(** * ScholarSync: the structured-generation client [analyzeArticles]

  A shallow embedding of [services/geminiService.ts] (the retrying
  version) together with the JavaScript built-ins it relies on
  ([String.prototype.replace], [split], [includes], [JSON.parse]),
  followed by the properties of the request builder and of the
  retry loop.

  Conventions of the model.
  - A JavaScript string is a [string] of the standard library, read as
    the sequence of its UTF-8 bytes.
  - [undefined] is [None] wherever the source can produce it.
  - What is thrown is an object whose [message] is a string or absent.
  - The generation service, the JavaScript engine's wording of a
    [SyntaxError] and the process environment form the [World] the
    function runs in; they are inputs of the model, never assumed.
  - A JavaScript number is an IEEE 754 binary64 double, held as its
    sign, mantissa and binary exponent; [JSON.parse] rounds each number
    literal to the nearest double, ties to even.
  - The loops of the source that are not structural ([while (true)], the
    recursive descent of [JSON.parse]) take fuel; each comes with the
    proof that the fuel it is given is never used up. *)

From Stdlib Require Import String Ascii List ZArith Lia Bool Arith.
From Stdlib Require Import DecimalString.
From Stdlib Require DecimalFacts DecimalPos DecimalN.
Import ListNotations.
Local Open Scope string_scope.

(* ===================================================================== *)
(** * JavaScript string built-ins used by the source                      *)
(* ===================================================================== *)

Module JS.

(** The one-character string holding a double quote. *)
Definition dquote : string := String (ascii_of_nat 34) EmptyString.

(** [s.slice(0, n)] and [s.slice(n)]. *)
Fixpoint take (n : nat) (s : string) : string :=
  match n, s with
  | S n', String c s' => String c (take n' s')
  | _, _ => EmptyString
  end.

Fixpoint drop (n : nat) (s : string) : string :=
  match n, s with
  | S n', String _ s' => drop n' s'
  | _, _ => s
  end.

(** [s.startsWith(pat)]. *)
Fixpoint startsWith (s pat : string) {struct pat} : bool :=
  match pat, s with
  | EmptyString, _ => true
  | String p pat', String c s' => Ascii.eqb p c && startsWith s' pat'
  | String _ _, EmptyString => false
  end.

(** [s.indexOf(pat)], with [None] for the source's [-1]. *)
Fixpoint indexOf (s pat : string) : option nat :=
  if startsWith s pat then Some 0
  else match s with
       | EmptyString => None
       | String _ s' => option_map S (indexOf s' pat)
       end.

(** [s.includes(pat)]. *)
Definition includes (s pat : string) : bool :=
  match indexOf s pat with Some _ => true | None => false end.

(** [s.split(sep)] for a one-character separator: the segments between
    the separators, always at least one. *)
Fixpoint split (sep : ascii) (s : string) : list string :=
  match s with
  | EmptyString => [EmptyString]
  | String c s' =>
      if Ascii.eqb c sep then EmptyString :: split sep s'
      else match split sep s' with
           | seg :: segs => String c seg :: segs
           | [] => [String c EmptyString]
           end
  end.

(** ECMAScript [GetSubstitution] for a string pattern: there are no
    captures, so only the four dollar forms below are special; a dollar
    sign before anything else stands for itself. *)
Fixpoint GetSubstitution (matched before after replacement : string)
  : string :=
  match replacement with
  | EmptyString => EmptyString
  | String c r =>
      if Ascii.eqb c "$"%char then
        match r with
        | String d r' =>
            if Ascii.eqb d "$"%char then
              String "$"%char (GetSubstitution matched before after r')
            else if Ascii.eqb d "&"%char then
              matched ++ GetSubstitution matched before after r'
            else if Ascii.eqb d "`"%char then
              before ++ GetSubstitution matched before after r'
            else if Ascii.eqb d "'"%char then
              after ++ GetSubstitution matched before after r'
            else String c (GetSubstitution matched before after r)
        | EmptyString => String c EmptyString
        end
      else String c (GetSubstitution matched before after r)
  end.

(** [s.replace(pat, replacement)] with a string pattern: the first
    occurrence only, the replacement text expanded by
    [GetSubstitution]; [s] itself when [pat] does not occur. *)
Definition replace (s pat replacement : string) : string :=
  match indexOf s pat with
  | None => s
  | Some p =>
      let before := take p s in
      let after := drop (p + String.length pat) s in
      before ++ GetSubstitution pat before after replacement ++ after
  end.

(** Values a property read such as [error.status] may yield, as far as
    the strict comparison with a number can tell them apart. *)
Inductive value : Type :=
| undefined
| number (n : Z)
| text (s : string).

(** An error object, as far as the catch clause and the caller look at
    it: [name], [message] (absent on a bare object), [status], [code]. *)
Record Error : Type :=
  { name : string; message : option string; status : value; code : value }.

(** [new Error(msg)]. *)
Definition newError (msg : string) : Error :=
  {| name := "Error"; message := Some msg;
     status := undefined; code := undefined |}.

(** [error.message?.includes(pat)], with [undefined] read as false. *)
Definition messageIncludes (e : Error) (pat : string) : bool :=
  match message e with
  | Some m => includes m pat
  | None => false
  end.

(** Decimal rendering of an integer inside a template literal. *)
Definition showZ (z : Z) : string := NilZero.string_of_int (Z.to_int z).

(** [v === n] for a number literal [n]. *)
Definition strictEqNumber (v : value) (n : Z) : bool :=
  match v with
  | number m => Z.eqb m n
  | _ => false
  end.

End JS.

(* ===================================================================== *)
(** * JSON values and [JSON.parse]                                        *)
(* ===================================================================== *)

Module JSON.

(** The mathematical value of a number literal:
    [(-1)^negative * digits * 10^exponent], kept in lowest terms (no
    trailing zero in [digits]). *)
Record decimal : Type :=
  { negative : bool; digits : N; exponent : Z }.

(** A Number value as [JSON.parse] can produce it: a binary64 double,
    [(-1)^negative * mantissa * 2^exponent] or an infinity.  In normal
    form the mantissa is below [2^53], the exponent lies between -1074
    and 971, and the mantissa is at least [2^52] unless the exponent is
    -1074 (the subnormal numbers, and the two zeros with mantissa 0). *)
Inductive double : Type :=
| Finite (negative : bool) (mantissa : N) (exponent : Z)
| Infinity (negative : bool).

#[warnings="-register-all"] Inductive json : Type :=
| JNull
| JBool (b : bool)
| JNumber (x : double)
| JString (s : string)
| JArray (items : list json)
| JObject (members : list (string * json)).

(** [CreateDataProperty]: a repeated key keeps its first position and
    takes the last value. *)
Fixpoint setProperty (members : list (string * json)) (k : string)
  (v : json) : list (string * json) :=
  match members with
  | [] => [(k, v)]
  | (k', v') :: rest =>
      if String.eqb k' k then (k', v) :: rest
      else (k', v') :: setProperty rest k v
  end.

(** [obj[k]] on a parsed object. *)
Fixpoint getProperty (members : list (string * json)) (k : string)
  : option json :=
  match members with
  | [] => None
  | (k', v) :: rest =>
      if String.eqb k' k then Some v else getProperty rest k
  end.

Definition QUOTE : ascii := ascii_of_nat 34.
Definition BACKSLASH : ascii := ascii_of_nat 92.

Definition isWhitespace (c : ascii) : bool :=
  let n := nat_of_ascii c in
  ((n =? 32) || (n =? 9) || (n =? 10) || (n =? 13))%nat.

Definition isDigit (c : ascii) : bool :=
  let n := nat_of_ascii c in ((48 <=? n) && (n <=? 57))%nat.

Fixpoint skipWhitespace (s : string) : string :=
  match s with
  | String c s' => if isWhitespace c then skipWhitespace s' else s
  | EmptyString => s
  end.

(** ** String literals *)

Definition hexValue (c : ascii) : option N :=
  let n := N_of_ascii c in
  (if (48 <=? n) && (n <=? 57) then Some (n - 48)
   else if (65 <=? n) && (n <=? 70) then Some (n - 55)
   else if (97 <=? n) && (n <=? 102) then Some (n - 87)
   else None)%N.

Definition hex4 (a b c d : ascii) : option N :=
  match hexValue a, hexValue b, hexValue c, hexValue d with
  | Some x, Some y, Some z, Some w =>
      Some (((x * 16 + y) * 16 + z) * 16 + w)%N
  | _, _, _, _ => None
  end.

(** The bytes of a code point (generalised UTF-8, so that a lone
    surrogate still has an image). *)
Definition utf8 (cp : N) (tail : string) : string :=
  let byte n := ascii_of_N n in
  (if cp <? 128 then String (byte cp) tail
  else if cp <? 2048 then
    String (byte (192 + cp / 64)) (String (byte (128 + cp mod 64)) tail)
  else if cp <? 65536 then
    String (byte (224 + cp / 4096))
      (String (byte (128 + (cp / 64) mod 64))
         (String (byte (128 + cp mod 64)) tail))
  else
    String (byte (240 + cp / 262144))
      (String (byte (128 + (cp / 4096) mod 64))
         (String (byte (128 + (cp / 64) mod 64))
            (String (byte (128 + cp mod 64)) tail))))%N.

Definition simpleEscape (e : ascii) : option ascii :=
  if Ascii.eqb e QUOTE then Some QUOTE
  else if Ascii.eqb e BACKSLASH then Some BACKSLASH
  else if Ascii.eqb e "/"%char then Some "/"%char
  else if Ascii.eqb e "b"%char then Some (ascii_of_nat 8)
  else if Ascii.eqb e "f"%char then Some (ascii_of_nat 12)
  else if Ascii.eqb e "n"%char then Some (ascii_of_nat 10)
  else if Ascii.eqb e "r"%char then Some (ascii_of_nat 13)
  else if Ascii.eqb e "t"%char then Some (ascii_of_nat 9)
  else None.

Definition isHighSurrogate (u : N) : bool :=
  ((55296 <=? u) && (u <=? 56319))%N.
Definition isLowSurrogate (u : N) : bool :=
  ((56320 <=? u) && (u <=? 57343))%N.

(** The low half of a surrogate pair written as a second escape. *)
Definition lowSurrogateEscape (s : string) : option (N * string) :=
  match s with
  | String b (String u (String h1 (String h2 (String h3 (String h4 r))))) =>
      if Ascii.eqb b BACKSLASH && Ascii.eqb u "u"%char then
        match hex4 h1 h2 h3 h4 with
        | Some lo => if isLowSurrogate lo then Some (lo, r) else None
        | None => None
        end
      else None
  | _ => None
  end.

Definition consChars {A : Type} (f : string -> string)
  (r : option (string * A)) : option (string * A) :=
  match r with
  | Some (str, rest) => Some (f str, rest)
  | None => None
  end.

(** The characters of a string literal after its opening quote, up to
    and including the closing quote. *)
Fixpoint parseChars (s : string) : option (string * string) :=
  match s with
  | EmptyString => None
  | String c r =>
      if Ascii.eqb c QUOTE then Some (EmptyString, r)
      else if Ascii.eqb c BACKSLASH then
        match r with
        | EmptyString => None
        | String e r1 =>
            if Ascii.eqb e "u"%char then
              match r1 with
              | String h1 (String h2 (String h3 (String h4 r2))) =>
                  match hex4 h1 h2 h3 h4 with
                  | None => None
                  | Some hi =>
                      if isHighSurrogate hi then
                        match r2 with
                        | String _ (String _ (String _ (String _
                            (String _ (String _ r3))))) =>
                            match lowSurrogateEscape r2 with
                            | Some (lo, _) =>
                                consChars
                                  (utf8 (65536 + (hi - 55296) * 1024
                                         + (lo - 56320))%N)
                                  (parseChars r3)
                            | None => consChars (utf8 hi) (parseChars r2)
                            end
                        | _ => consChars (utf8 hi) (parseChars r2)
                        end
                      else consChars (utf8 hi) (parseChars r2)
                  end
              | _ => None
              end
            else
              match simpleEscape e with
              | Some ch => consChars (String ch) (parseChars r1)
              | None => None
              end
        end
      else if (nat_of_ascii c <? 32)%nat then None
      else consChars (String c) (parseChars r)
  end.

(** ** Number literals *)

Fixpoint takeDigits (s : string) : string * string :=
  match s with
  | String c s' =>
      if isDigit c then let (ds, rest) := takeDigits s' in (String c ds, rest)
      else (EmptyString, s)
  | EmptyString => (EmptyString, EmptyString)
  end.

(** The value of a run of decimal digits. *)
Definition digitsValue (ds : string) : N :=
  match NilEmpty.uint_of_string ds with
  | Some u => N.of_uint u
  | None => 0
  end.

Fixpoint stripZeros (fuel : nat) (m : N) (e : Z) : N * Z :=
  match fuel with
  | O => (m, e)
  | S fuel' =>
      if (m mod 10 =? 0)%N then stripZeros fuel' (m / 10)%N (e + 1)%Z
      else (m, e)
  end.

Definition normalize (neg : bool) (m : N) (e : Z) : decimal :=
  if (m =? 0)%N then {| negative := neg; digits := 0; exponent := 0 |}
  else let (m', e') := stripZeros (N.to_nat (N.size m)) m e in
       {| negative := neg; digits := m'; exponent := e' |}.

(** The optional minus sign. *)
Definition signPart (s : string) : bool * string :=
  match s with
  | String c r => if Ascii.eqb c "-"%char then (true, r) else (false, s)
  | EmptyString => (false, s)
  end.

(** [0], or a digit from 1 to 9 followed by digits. *)
Definition intPart (s : string) : option (string * string) :=
  match s with
  | String c r =>
      if Ascii.eqb c "0"%char then Some (String c EmptyString, r)
      else if isDigit c then Some (takeDigits s)
      else None
  | EmptyString => None
  end.

(** The optional fraction: a point and at least one digit. *)
Definition fracPart (s : string) : option (string * string) :=
  match s with
  | String c r =>
      if Ascii.eqb c "."%char then
        match takeDigits r with
        | (EmptyString, _) => None
        | (fs, r') => Some (fs, r')
        end
      else Some (EmptyString, s)
  | EmptyString => Some (EmptyString, s)
  end.

(** The optional exponent: [e] or [E], an optional sign, at least one
    digit. *)
Definition expPart (s : string) : option (Z * string) :=
  match s with
  | String c r =>
      if Ascii.eqb c "e"%char || Ascii.eqb c "E"%char then
        let (eneg, r1) :=
          match r with
          | String sg r' =>
              if Ascii.eqb sg "-"%char then (true, r')
              else if Ascii.eqb sg "+"%char then (false, r')
              else (false, r)
          | EmptyString => (false, r)
          end in
        match takeDigits r1 with
        | (EmptyString, _) => None
        | (es, r2) =>
            let e := Z.of_N (digitsValue es) in
            Some ((if eneg then - e else e)%Z, r2)
        end
      else Some (0%Z, s)
  | EmptyString => Some (0%Z, s)
  end.

(** [-? int frac? exp?] of the JSON grammar, with the mathematical
    value of the literal. *)
Definition numberLiteral (s : string) : option (decimal * string) :=
  let (neg, s1) := signPart s in
  match intPart s1 with
  | None => None
  | Some (ints, s2) =>
      match fracPart s2 with
      | None => None
      | Some (fracs, s3) =>
          match expPart s3 with
          | None => None
          | Some (e, s4) =>
              Some (normalize neg (digitsValue (ints ++ fracs))
                      (e - Z.of_nat (String.length fracs))%Z,
                    s4)
          end
      end
  end.

(** The double nearest to [p / q], ties to even, for [0 <= p] and
    [0 < q].  [whole] is the integer part of [p / q] in units of
    [2^-1075], half the smallest step between doubles, and [inexact]
    tells whether anything was left below it; [shift] is the number of
    low bits of [whole] that do not fit into the 53 bits of a mantissa
    (at least the one bit below the smallest step). *)
Definition roundRatio (neg : bool) (p q : Z) : double :=
  let scaled := (p * 2 ^ 1075)%Z in
  let whole := (scaled / q)%Z in
  let inexact := negb (scaled mod q =? 0)%Z in
  let shift := Z.max 1 (Z.log2 whole - 52) in
  let kept := (whole / 2 ^ shift)%Z in
  let dropped := (whole mod 2 ^ shift)%Z in
  let half := (2 ^ (shift - 1))%Z in
  let up :=
    if (dropped <? half)%Z then false
    else if (half <? dropped)%Z then true
    else inexact || Z.odd kept in
  let rounded := (if up then kept + 1 else kept)%Z in
  let (m, s) :=
    if (rounded =? 2 ^ 53)%Z then (2 ^ 52, shift + 1)%Z
    else (rounded, shift) in
  if (2046 <? s)%Z then Infinity neg
  else Finite neg (Z.to_N m) (s - 1075).

(** The Number value of a literal: its mathematical value rounded to a
    double.  A value too large for any double becomes an infinity, one
    too small becomes a zero; both keep the sign of the literal. *)
Definition binary64 (d : decimal) : double :=
  roundRatio (negative d)
    (Z.of_N (digits d) * 10 ^ Z.max 0 (exponent d))
    (10 ^ Z.max 0 (- exponent d)).

(** A number literal, as the value [JSON.parse] gives it. *)
Definition parseNumber (s : string) : option (double * string) :=
  match numberLiteral s with
  | Some (d, rest) => Some (binary64 d, rest)
  | None => None
  end.

(** ** Values *)

Inductive result : Type :=
| Parsed (v : json) (rest : string)
| Invalid
| Exhausted.

Definition keyword (word : string) (v : json) (s : string) : result :=
  if JS.startsWith s word then Parsed v (JS.drop (String.length word) s)
  else Invalid.

(** Recursive descent, one unit of [fuel] per nested call; [parse] below
    supplies enough for any text. *)
Fixpoint parseValue (fuel : nat) (s : string) : result :=
  match fuel with
  | O => Exhausted
  | S fuel' =>
      match skipWhitespace s with
      | EmptyString => Invalid
      | String c r as s0 =>
          if Ascii.eqb c "{"%char then
            match skipWhitespace r with
            | String c' r' =>
                if Ascii.eqb c' "}"%char then Parsed (JObject []) r'
                else parseMembers fuel' r []
            | EmptyString => Invalid
            end
          else if Ascii.eqb c "["%char then
            match skipWhitespace r with
            | String c' r' =>
                if Ascii.eqb c' "]"%char then Parsed (JArray []) r'
                else parseElements fuel' r []
            | EmptyString => Invalid
            end
          else if Ascii.eqb c QUOTE then
            match parseChars r with
            | Some (str, r') => Parsed (JString str) r'
            | None => Invalid
            end
          else if Ascii.eqb c "-"%char || isDigit c then
            match parseNumber s0 with
            | Some (x, r') => Parsed (JNumber x) r'
            | None => Invalid
            end
          else if Ascii.eqb c "t"%char then keyword "true" (JBool true) s0
          else if Ascii.eqb c "f"%char then keyword "false" (JBool false) s0
          else if Ascii.eqb c "n"%char then keyword "null" JNull s0
          else Invalid
      end
  end

with parseElements (fuel : nat) (s : string) (acc : list json) : result :=
  match fuel with
  | O => Exhausted
  | S fuel' =>
      match parseValue fuel' s with
      | Parsed v r =>
          match skipWhitespace r with
          | String c r' =>
              if Ascii.eqb c ","%char then parseElements fuel' r' (acc ++ [v])
              else if Ascii.eqb c "]"%char then Parsed (JArray (acc ++ [v])) r'
              else Invalid
          | EmptyString => Invalid
          end
      | other => other
      end
  end

with parseMembers (fuel : nat) (s : string) (acc : list (string * json))
  : result :=
  match fuel with
  | O => Exhausted
  | S fuel' =>
      match skipWhitespace s with
      | String q r =>
          if Ascii.eqb q QUOTE then
            match parseChars r with
            | Some (k, r1) =>
                match skipWhitespace r1 with
                | String colon r2 =>
                    if Ascii.eqb colon ":"%char then
                      match parseValue fuel' r2 with
                      | Parsed v r3 =>
                          match skipWhitespace r3 with
                          | String c r4 =>
                              if Ascii.eqb c ","%char then
                                parseMembers fuel' r4 (setProperty acc k v)
                              else if Ascii.eqb c "}"%char then
                                Parsed (JObject (setProperty acc k v)) r4
                              else Invalid
                          | EmptyString => Invalid
                          end
                      | other => other
                      end
                    else Invalid
                | EmptyString => Invalid
                end
            | None => Invalid
            end
          else Invalid
      | EmptyString => Invalid
      end
  end.

(** The fuel [parse] runs with; [parse_never_exhausted] shows it is
    never used up. *)
Definition fuelFor (text : string) : nat := 2 * String.length text + 2.

(** [JSON.parse(text)]: [None] is the thrown [SyntaxError]. *)
Definition parse (text : string) : option json :=
  match parseValue (fuelFor text) text with
  | Parsed v rest =>
      match skipWhitespace rest with
      | EmptyString => Some v
      | String _ _ => None
      end
  | _ => None
  end.

(** ** Texts of a value, for synthetic responses

    What follows is not part of the source, which only ever parses: it
    writes texts a service may answer with.  [stringify] is the compact
    text.  It is not the built-in of that name: a number is spelled with
    all the digits of its decimal expansion, in lowest terms with a
    power of ten, where the built-in writes the shortest literal, and an
    infinity as a literal beyond every double, where the built-in writes
    [null]; each text reads back as the value it was written from. *)

Definition hexDigit (n : N) : ascii :=
  (if n <? 10 then ascii_of_N (48 + n) else ascii_of_N (87 + n))%N.

Definition escapeChar (c : ascii) (tail : string) : string :=
  if Ascii.eqb c QUOTE then String BACKSLASH (String QUOTE tail)
  else if Ascii.eqb c BACKSLASH then String BACKSLASH (String BACKSLASH tail)
  else if (nat_of_ascii c <? 32)%nat then
    String BACKSLASH
      (String "u"%char
         (String "0"%char
            (String "0"%char
               (String (hexDigit (N_of_ascii c / 16))
                  (String (hexDigit (N_of_ascii c mod 16)) tail)))))
  else String c tail.

Fixpoint escape (s tail : string) : string :=
  match s with
  | EmptyString => tail
  | String c s' => escapeChar c (escape s' tail)
  end.

Definition quoted (s tail : string) : string :=
  String QUOTE (escape s (String QUOTE tail)).

Definition showN (n : N) : string := NilEmpty.string_of_uint (N.to_uint n).

Definition showDecimal (d : decimal) (tail : string) : string :=
  (if negative d then "-" else EmptyString)
  ++ showN (digits d)
  ++ (if (exponent d =? 0)%Z then tail
      else String "e"%char
             ((if (exponent d <? 0)%Z then "-" else EmptyString)
              ++ showN (Z.abs_N (exponent d)) ++ tail)).

(** A literal for a double: the decimal expansion of a finite one, which
    is finite too ([m * 2^e] is [m * 5^-e * 10^e] for a negative [e]),
    and a literal beyond every double for an infinity. *)
Definition decimalOf (x : double) : decimal :=
  match x with
  | Finite neg m e =>
      if (0 <=? e)%Z then normalize neg (m * 2 ^ Z.to_N e) 0
      else normalize neg (m * 5 ^ Z.to_N (- e)) e
  | Infinity neg => {| negative := neg; digits := 1; exponent := 999 |}
  end.

(** The white space of a text: what it holds before and after each
    element or member, after a key, after a colon, before a closing
    bracket and inside empty brackets, by nesting depth. *)
Record Layout : Type :=
  { beforeItem : nat -> string;
    afterItem : nat -> string;
    afterKey : nat -> string;
    afterColon : nat -> string;
    beforeClose : nat -> string;
    inside : nat -> string }.

(** The white space of the JSON grammar: space, tab, line feed,
    carriage return. *)
Fixpoint allWhitespace (s : string) : bool :=
  match s with
  | EmptyString => true
  | String c s' =>
      (Ascii.eqb c " "%char || Ascii.eqb c (ascii_of_nat 9)
       || Ascii.eqb c (ascii_of_nat 10) || Ascii.eqb c (ascii_of_nat 13))
      && allWhitespace s'
  end.

Definition blank (L : Layout) : Prop :=
  forall depth,
    allWhitespace (beforeItem L depth) = true
    /\ allWhitespace (afterItem L depth) = true
    /\ allWhitespace (afterKey L depth) = true
    /\ allWhitespace (afterColon L depth) = true
    /\ allWhitespace (beforeClose L depth) = true
    /\ allWhitespace (inside L depth) = true.

(** The items of an array or object text after the opening bracket:
    separated by commas and followed by [close]; [whenEmpty] when there
    is none. *)
Definition joinWith {A : Type} (item : A -> string -> string)
  (whenEmpty close : string -> string) : list A -> string -> string :=
  fix go (xs : list A) (tail : string) : string :=
    match xs with
    | [] => whenEmpty tail
    | x :: xs' =>
        item x
          (match xs' with
           | [] => close tail
           | _ :: _ => String ","%char (go xs' tail)
           end)
    end.

(** [write L depth v tail] is the text of [v] with the white space of
    [L], followed by [tail]. *)
Fixpoint write (L : Layout) (depth : nat) (v : json) (tail : string)
  : string :=
  match v with
  | JNull => "null" ++ tail
  | JBool true => "true" ++ tail
  | JBool false => "false" ++ tail
  | JNumber x => showDecimal (decimalOf x) tail
  | JString s => quoted s tail
  | JArray vs =>
      String "["%char
        (joinWith
           (fun (x : json) (t : string) =>
              beforeItem L (S depth)
              ++ write L (S depth) x (afterItem L (S depth) ++ t))
           (fun t => inside L depth ++ String "]"%char t)
           (fun t => beforeClose L depth ++ String "]"%char t)
           vs tail)
  | JObject ms =>
      String "{"%char
        (joinWith
           (fun (m : string * json) (t : string) =>
              let (k, x) := m in
              beforeItem L (S depth)
              ++ quoted k
                   (afterKey L (S depth)
                    ++ String ":"%char
                         (afterColon L (S depth)
                          ++ write L (S depth) x
                               (afterItem L (S depth) ++ t))))
           (fun t => inside L depth ++ String "}"%char t)
           (fun t => beforeClose L depth ++ String "}"%char t)
           ms tail)
  end.

(** A whole text. *)
Definition text (L : Layout) (v : json) : string :=
  beforeItem L 0 ++ write L 0 v (afterItem L 0).

(** No white space at all. *)
Definition tight : Layout :=
  {| beforeItem := fun _ => EmptyString;
     afterItem := fun _ => EmptyString;
     afterKey := fun _ => EmptyString;
     afterColon := fun _ => EmptyString;
     beforeClose := fun _ => EmptyString;
     inside := fun _ => EmptyString |}.

Fixpoint spaces (n : nat) : string :=
  match n with
  | O => EmptyString
  | S n' => String " "%char (spaces n')
  end.

(** One item per line, two more spaces for each level, a space after
    each colon. *)
Definition indented : Layout :=
  {| beforeItem :=
       fun depth =>
         match depth with
         | O => EmptyString
         | S _ => String (ascii_of_nat 10) (spaces (2 * depth))
         end;
     afterItem := fun _ => EmptyString;
     afterKey := fun _ => EmptyString;
     afterColon := fun _ => " ";
     beforeClose :=
       fun depth => String (ascii_of_nat 10) (spaces (2 * depth));
     inside := fun _ => EmptyString |}.

(** [serialize v tail] is the compact text of [v] followed by [tail]. *)
Definition serialize (v : json) (tail : string) : string :=
  write tight 0 v tail.

Definition stringify (v : json) : string := serialize v EmptyString.

(** The Number value of an integer literal. *)
Definition ofZ (z : Z) : double :=
  binary64 {| negative := (z <? 0)%Z; digits := Z.abs_N z; exponent := 0 |}.

(** ** Values as [parse] builds them *)

Definition canonicalDecimal (d : decimal) : bool :=
  if (digits d =? 0)%N then (exponent d =? 0)%Z
  else negb (digits d mod 10 =? 0)%N.

(** A double in normal form. *)
Definition normal (x : double) : bool :=
  match x with
  | Finite _ m e =>
      (m <? 2 ^ 53)%N && (-1074 <=? e)%Z && (e <=? 971)%Z
      && ((2 ^ 52 <=? m)%N || (e =? -1074)%Z)
  | Infinity _ => true
  end.

Fixpoint distinct (ks : list string) : bool :=
  match ks with
  | [] => true
  | k :: ks' => negb (existsb (String.eqb k) ks') && distinct ks'
  end.

(** Numbers in normal form, no key twice in an object. *)
Fixpoint canonical (v : json) : bool :=
  match v with
  | JNumber x => normal x
  | JArray vs => forallb canonical vs
  | JObject ms =>
      distinct (map fst ms)
      && forallb (fun m : string * json => let (_, x) := m in canonical x) ms
  | _ => true
  end.

(** A bound on the fuel [parseValue] needs for a text of [v]. *)
Fixpoint size (v : json) : nat :=
  match v with
  | JArray vs => S (fold_right (fun x n => S (size x + n)) 0 vs)
  | JObject ms =>
      S (fold_right
           (fun (m : string * json) n => let (_, x) := m in S (size x + n))
           0 ms)
  | _ => 1
  end.

Definition itemsSize (vs : list json) : nat :=
  fold_right (fun x n => S (size x + n)) 0 vs.

Definition membersSize (ms : list (string * json)) : nat :=
  fold_right
    (fun (m : string * json) n => let (_, x) := m in S (size x + n)) 0 ms.

(** The text of one element of an array and of one member of an object,
    as [write] writes them at [depth]. *)
Definition elementText (L : Layout) (depth : nat) (x : json) (t : string)
  : string :=
  beforeItem L depth ++ write L depth x (afterItem L depth ++ t).

Definition memberText (L : Layout) (depth : nat) (m : string * json)
  (t : string) : string :=
  let (k, x) := m in
  beforeItem L depth
  ++ quoted k
       (afterKey L depth
        ++ String ":"%char
             (afterColon L depth
              ++ write L depth x (afterItem L depth ++ t))).

(** The first character of a value's text. *)
Definition startsValue (c : ascii) : bool :=
  Ascii.eqb c "{"%char || Ascii.eqb c "["%char || Ascii.eqb c QUOTE
  || Ascii.eqb c "-"%char || isDigit c
  || Ascii.eqb c "t"%char || Ascii.eqb c "f"%char || Ascii.eqb c "n"%char.

Definition startsWithDigit (s : string) : bool :=
  match s with String c _ => isDigit c | EmptyString => false end.

(** What may follow a value inside a text. *)
Definition delimited (tail : string) : bool :=
  match tail with
  | EmptyString => true
  | String c _ =>
      Ascii.eqb c ","%char || Ascii.eqb c "]"%char || Ascii.eqb c "}"%char
      || isWhitespace c
  end.

End JSON.

(* ===================================================================== *)
(** * The request builder                                                 *)
(* ===================================================================== *)

Module GeminiService.

Definition PROMPT_HEAD : string := "
You are an Academic Research Assistant specialized in Systematic Literature Reviews. 
Your goal is to analyze the provided batch of research articles (PDFs) and evaluate their relevance to the specific Research Topic provided below.

Research Topic: ".

Definition PROMPT_TAIL : string := "

Follow these stages rigorously:

STAGE 1: DEEP INDIVIDUAL ANALYSIS
For each article, analyze:
- Identification (Title, Authors, Year)
- Relevance Rating (0-100) based on alignment with the topic.
- Rating Justification (Brief explanation).
- Methodological Summary.
- Key Contributions.
- Thesis Integration advice.

STAGE 2: SUMMARY OVERVIEW TABLE
Provide data for a concise table: Article Name, Rating, Core Conclusion, Utility (Low/Medium/High).

STAGE 3: SYNTHESIS MATRIX
Compare articles across:
- Common themes/frameworks.
- Divergent results/conflicting viewpoints.
- Research gaps.

GUIDELINES:
- Objective, academic tone.
- If rating < 30, provide a brief summary.
- If rating > 85, highlight specific strong points.

Return the result in the specified JSON structure.
".

Definition PLACEHOLDER : string := "{RESEARCH_TOPIC}".

(** The template literal of the source; its only two double quotes are
    the ones around the placeholder. *)
Definition PROMPT_TEMPLATE : string :=
  PROMPT_HEAD ++ JS.dquote ++ PLACEHOLDER ++ JS.dquote ++ PROMPT_TAIL.

(** [types.ts]: a browser [File] (the fields read here) and the pair
    the upload component builds from it. *)
Record File : Type := { name : string; type : string }.

Record FileInput : Type := { file : File; base64 : string }.

(** ** The result as [types.ts] declares it *)

(** ['Low' | 'Medium' | 'High']. *)
Inductive Utility : Type := Low | Medium | High.

(** The two [number] fields hold the integer ratings of the
    specification. *)
Record IndividualAnalysis : Type :=
  { title : string;
    authors : string;
    year : string;
    relevanceRating : Z;
    ratingJustification : string;
    methodologicalSummary : string;
    keyContributions : string;
    thesisIntegration : string }.

Record SummaryRow : Type :=
  { article : string;
    rating : Z;
    coreConclusion : string;
    utility : Utility }.

Record SynthesisMatrix : Type :=
  { commonThemes : list string;
    divergentResults : list string;
    researchGaps : list string }.

Record AnalysisResponse : Type :=
  { individualAnalyses : list IndividualAnalysis;
    summaryTable : list SummaryRow;
    synthesisMatrix : SynthesisMatrix }.

(** A content part of the request. *)
Inductive Part : Type :=
| TextPart (text : string)
| InlineDataPart (mimeType : string) (data : option string).

(** [fileInput.base64.split(',')[1]]. *)
Definition base64Data (fileInput : FileInput) : option string :=
  nth_error (JS.split ","%char (base64 fileInput)) 1.

(** [PROMPT_TEMPLATE.replace(placeholder, topic)]. *)
Definition prompt (topic : string) : string :=
  JS.replace PROMPT_TEMPLATE PLACEHOLDER topic.

(** Lines 61-66: the part pushed for one file. *)
Definition inlinePart (fileInput : FileInput) : Part :=
  InlineDataPart (type (file fileInput)) (base64Data fileInput).

(** Lines 50-67: [parts] starts with the prompt and gets one inline part
    pushed per file, in the order of [files]. *)
Definition buildParts (topic : string) (files : list FileInput)
  : list Part :=
  fold_left
    (fun parts fileInput => (parts ++ [inlinePart fileInput])%list)
    files
    [TextPart (prompt topic)].

(** The instruction text the specification describes: the template with
    the topic text in the place of the placeholder. *)
Definition renderedTemplate (topic : string) : string :=
  PROMPT_HEAD ++ JS.dquote ++ topic ++ JS.dquote ++ PROMPT_TAIL.

(** The four two-character forms [replace] expands in its replacement
    text. *)
Definition hasDollarPattern (topic : string) : bool :=
  JS.includes topic "$$" || JS.includes topic "$&"
  || JS.includes topic "$`" || JS.includes topic "$'".

(** ** The response contract *)

(** The schema language of the SDK, as far as the source uses it. *)
#[warnings="-register-all"] Inductive Schema : Type :=
| STRING (enum : option (list string))
| NUMBER
| ARRAY (items : Schema)
| OBJECT (properties : list (string * Schema)) (required : list string).

Definition individualAnalysisSchema : Schema :=
  OBJECT
    [ ("title", STRING None);
      ("authors", STRING None);
      ("year", STRING None);
      ("relevanceRating", NUMBER);
      ("ratingJustification", STRING None);
      ("methodologicalSummary", STRING None);
      ("keyContributions", STRING None);
      ("thesisIntegration", STRING None) ]
    [ "title"; "authors"; "year"; "relevanceRating"; "ratingJustification";
      "methodologicalSummary"; "keyContributions"; "thesisIntegration" ].

Definition summaryRowSchema : Schema :=
  OBJECT
    [ ("article", STRING None);
      ("rating", NUMBER);
      ("coreConclusion", STRING None);
      ("utility", STRING (Some ["Low"; "Medium"; "High"])) ]
    [ "article"; "rating"; "coreConclusion"; "utility" ].

Definition synthesisMatrixSchema : Schema :=
  OBJECT
    [ ("commonThemes", ARRAY (STRING None));
      ("divergentResults", ARRAY (STRING None));
      ("researchGaps", ARRAY (STRING None)) ]
    [ "commonThemes"; "divergentResults"; "researchGaps" ].

(** Lines 70-114. *)
Definition responseSchema : Schema :=
  OBJECT
    [ ("individualAnalyses", ARRAY individualAnalysisSchema);
      ("summaryTable", ARRAY summaryRowSchema);
      ("synthesisMatrix", synthesisMatrixSchema) ]
    [ "individualAnalyses"; "summaryTable"; "synthesisMatrix" ].

Definition isSome {A : Type} (o : option A) : bool :=
  match o with Some _ => true | None => false end.

(** What it means for a value to have the declared shape: every required
    key is present, every declared property that is present has its
    declared type, a string with an [enum] is one of its members.  The
    source hands the contract to the service and never evaluates it; this
    predicate only serves to say which payloads are well formed. *)
Fixpoint conforms (schema : Schema) (v : JSON.json) : bool :=
  match schema, v with
  | STRING None, JSON.JString _ => true
  | STRING (Some allowed), JSON.JString s => existsb (String.eqb s) allowed
  | NUMBER, JSON.JNumber _ => true
  | ARRAY items, JSON.JArray vs => forallb (conforms items) vs
  | OBJECT properties required, JSON.JObject members =>
      forallb (fun k => isSome (JSON.getProperty members k)) required
      && (fix each (ps : list (string * Schema)) : bool :=
            match ps with
            | [] => true
            | (k, sub) :: ps' =>
                match JSON.getProperty members k with
                | Some x => conforms sub x
                | None => true
                end && each ps'
            end) properties
  | _, _ => false
  end.

(** ** The typed view of a payload *)

(** The JavaScript object that is a value of the declared type. *)
Definition utilityText (u : Utility) : string :=
  match u with Low => "Low" | Medium => "Medium" | High => "High" end.

Definition strings (l : list string) : JSON.json :=
  JSON.JArray (map JSON.JString l).

Definition analysisObject (a : IndividualAnalysis) : JSON.json :=
  JSON.JObject
    [ ("title", JSON.JString (title a));
      ("authors", JSON.JString (authors a));
      ("year", JSON.JString (year a));
      ("relevanceRating", JSON.JNumber (JSON.ofZ (relevanceRating a)));
      ("ratingJustification", JSON.JString (ratingJustification a));
      ("methodologicalSummary", JSON.JString (methodologicalSummary a));
      ("keyContributions", JSON.JString (keyContributions a));
      ("thesisIntegration", JSON.JString (thesisIntegration a)) ].

Definition rowObject (r : SummaryRow) : JSON.json :=
  JSON.JObject
    [ ("article", JSON.JString (article r));
      ("rating", JSON.JNumber (JSON.ofZ (rating r)));
      ("coreConclusion", JSON.JString (coreConclusion r));
      ("utility", JSON.JString (utilityText (utility r))) ].

Definition matrixObject (m : SynthesisMatrix) : JSON.json :=
  JSON.JObject
    [ ("commonThemes", strings (commonThemes m));
      ("divergentResults", strings (divergentResults m));
      ("researchGaps", strings (researchGaps m)) ].

Definition responseObject (r : AnalysisResponse) : JSON.json :=
  JSON.JObject
    [ ("individualAnalyses",
       JSON.JArray (map analysisObject (individualAnalyses r)));
      ("summaryTable", JSON.JArray (map rowObject (summaryTable r)));
      ("synthesisMatrix", matrixObject (synthesisMatrix r)) ].













(** ** The service call and its surroundings *)

Record GenerationConfig : Type :=
  { responseMimeType : string;
    configSchema : Schema;
    thinkingBudget : Z }.

Record GenerateContentParameters : Type :=
  { model : string;
    contents : list Part;
    config : GenerationConfig }.

(** Lines 125-135: the argument of [ai.models.generateContent]. *)
Definition request (parts : list Part) : GenerateContentParameters :=
  {| model := "gemini-3-flash-preview";
     contents := parts;
     config := {| responseMimeType := "application/json";
                  configSchema := responseSchema;
                  thinkingBudget := 2048 |} |}.

(** How the awaited call settles: a response whose [text] may be
    [undefined], or a rejection. *)
Inductive Settled : Type :=
| Fulfilled (text : option string)
| Rejected (e : JS.Error).

(** Everything outside the function: the environment variable, how the
    n-th service call (counted from 0) settles for a given request, and
    the wording the engine gives a [SyntaxError] of [JSON.parse]. *)
Record World : Type :=
  { API_KEY : option string;
    generateContent : nat -> GenerateContentParameters -> Settled;
    syntaxErrorMessage : string -> string }.

(** What the function does that an observer can see, in order. *)
Inductive Event : Type :=
| ServiceCall (parameters : GenerateContentParameters)
| ConsoleWarn (line : string)
| Wait (ms : Z)
| ConsoleError (label : string) (e : JS.Error).

Inductive Outcome : Type :=
| Returned (v : JSON.json)
| Thrown (e : JS.Error).

Record Run : Type := { outcome : Outcome; events : list Event }.

Definition syntaxError (w : World) (text : string) : JS.Error :=
  {| JS.name := "SyntaxError";
     JS.message := Some (syntaxErrorMessage w text);
     JS.status := JS.undefined;
     JS.code := JS.undefined |}.

(** Lines 125-141, the body of the [try]: the value returned, or the
    error the [catch] clause receives. *)
Definition tryBlock (w : World) (callIndex : nat)
  (parameters : GenerateContentParameters) : JSON.json + JS.Error :=
  match generateContent w callIndex parameters with
  | Rejected e => inr e
  | Fulfilled None => inr (JS.newError "No response generated")
  | Fulfilled (Some EmptyString) => inr (JS.newError "No response generated")
  | Fulfilled (Some text) =>
      match JSON.parse text with
      | Some v => inl v
      | None => inr (syntaxError w text)
      end
  end.

(** Lines 146-147. *)
Definition isQuotaError (error : JS.Error) : bool :=
  JS.messageIncludes error "429"
  || JS.strictEqNumber (JS.status error) 429
  || JS.strictEqNumber (JS.code error) 429.

Definition isServerOverload (error : JS.Error) : bool :=
  JS.messageIncludes error "503"
  || JS.strictEqNumber (JS.status error) 503.

Definition maxRetries : Z := 3.

(** Line 152, with [attempt] already incremented. *)
Definition delayMs (attempt : Z) : Z := 2000 * 2 ^ (attempt - 1).

(** Line 153. *)
Definition warning (attempt : Z) (quota : bool) (delay : Z) : string :=
  "Attempt " ++ JS.showZ attempt ++ " failed with "
  ++ (if quota then "quota" else "server")
  ++ " error. Retrying in " ++ JS.showZ delay ++ "ms...".

Definition prefixed (evs : list Event) (r : option Run) : option Run :=
  match r with
  | Some run =>
      Some {| outcome := outcome run; events := (evs ++ events run)%list |}
  | None => None
  end.

(** Lines 119-161: the [while (true)] loop, one unit of [fuel] per
    iteration; [None] when the fuel runs out before the loop ends. *)
Fixpoint retryLoop (fuel : nat) (w : World)
  (parameters : GenerateContentParameters) (attempt : Z) (callIndex : nat)
  : option Run :=
  match fuel with
  | O => None
  | S fuel' =>
      match tryBlock w callIndex parameters with
      | inl v =>
          Some {| outcome := Returned v;
                  events := [ServiceCall parameters] |}
      | inr error =>
          if (isQuotaError error || isServerOverload error)
             && (attempt <? maxRetries)%Z
          then
            let attempt' := (attempt + 1)%Z in
            prefixed
              [ ServiceCall parameters;
                ConsoleWarn (warning attempt' (isQuotaError error)
                                     (delayMs attempt'));
                Wait (delayMs attempt') ]
              (retryLoop fuel' w parameters attempt' (S callIndex))
          else
            Some {| outcome := Thrown error;
                    events := [ ServiceCall parameters;
                                ConsoleError "Gemini Analysis Error:" error ] |}
      end
  end.

(** [process.env.API_KEY] is falsy when unset or empty. *)
Definition apiKeyMissing (w : World) : bool :=
  match API_KEY w with
  | None => true
  | Some EmptyString => true
  | Some (String _ _) => false
  end.

(** The exported function. *)
Definition analyzeArticles (fuel : nat) (w : World) (topic : string)
  (files : list FileInput) : option Run :=
  if apiKeyMissing w then
    Some {| outcome :=
              Thrown (JS.newError
                        "API Key is missing in environment variables");
            events := [] |}
  else retryLoop fuel w (request (buildParts topic files)) 0 0.

(** ** Observations on a run *)

Definition isCall (e : Event) : bool :=
  match e with ServiceCall _ => true | _ => false end.

(** Number of service calls made. *)
Definition calls (r : Run) : nat := List.length (filter isCall (events r)).

(** The waits, in order, in milliseconds. *)
Fixpoint waitsOf (evs : list Event) : list Z :=
  match evs with
  | [] => []
  | Wait ms :: evs' => ms :: waitsOf evs'
  | _ :: evs' => waitsOf evs'
  end.

Definition waits (r : Run) : list Z := waitsOf (events r).

Definition totalWait (r : Run) : Z := fold_right Z.add 0%Z (waits r).

(** The calls and waits alone, in the order they happen. *)
Inductive Step : Type := CallStep | WaitStep (ms : Z).

Fixpoint stepsOf (evs : list Event) : list Step :=
  match evs with
  | [] => []
  | ServiceCall _ :: evs' => CallStep :: stepsOf evs'
  | Wait ms :: evs' => WaitStep ms :: stepsOf evs'
  | _ :: evs' => stepsOf evs'
  end.

Definition steps (r : Run) : list Step := stepsOf (events r).

(** ** The retry policy of the specification *)

(** A failure whose signature matches one of the two transient classes,
    as the catch clause decides it. *)
Definition transient (error : JS.Error) : bool :=
  isQuotaError error || isServerOverload error.

(** The state machine of the specification, section 4.1, for the attempt
    with index [i] (counted from 0, so that [i] is also the number of
    retries already made): [ATTEMPTING] goes to [SUCCESS] when the
    attempt yields a value, to [FAILED] when it fails with a signature
    that is not transient or with the budget of 3 retries used up, and
    to [RETRY_WAIT] and back otherwise, after a wait of
    [2000 * 2 ^ (attempt - 1)] for the retry number [attempt = i + 1]. *)
Inductive machine (w : World) (p : GenerateContentParameters)
  : nat -> Run -> Prop :=
| SUCCESS (i : nat) (v : JSON.json) :
    tryBlock w i p = inl v ->
    machine w p i {| outcome := Returned v; events := [ServiceCall p] |}
| FAILED (i : nat) (e : JS.Error) :
    tryBlock w i p = inr e ->
    transient e = false \/ 3 <= i ->
    machine w p i
      {| outcome := Thrown e;
         events := [ServiceCall p; ConsoleError "Gemini Analysis Error:" e] |}
| RETRY_WAIT (i : nat) (e : JS.Error) (r : Run) :
    tryBlock w i p = inr e ->
    transient e = true ->
    i < 3 ->
    machine w p (S i) r ->
    machine w p i
      {| outcome := outcome r;
         events :=
           ServiceCall p
             :: ConsoleWarn (warning (Z.of_nat (S i)) (isQuotaError e)
                                     (2000 * 2 ^ Z.of_nat i))
             :: Wait (2000 * 2 ^ Z.of_nat i)
             :: events r |}.

(** The failures the specification calls terminal, for the attempt with
    index [k]: no response body, a body that is not JSON and whose
    [SyntaxError] is not worded like a transient failure, a rejection
    whose signature matches neither transient class. *)
Inductive terminalCause (w : World) (p : GenerateContentParameters)
  (k : nat) : JS.Error -> Prop :=
| NoBody :
    generateContent w k p = Fulfilled None
    \/ generateContent w k p = Fulfilled (Some EmptyString) ->
    terminalCause w p k (JS.newError "No response generated")
| NotJson (text : string) :
    generateContent w k p = Fulfilled (Some text) ->
    text <> EmptyString ->
    JSON.parse text = None ->
    JS.includes (syntaxErrorMessage w text) "429" = false ->
    JS.includes (syntaxErrorMessage w text) "503" = false ->
    terminalCause w p k (syntaxError w text)
| NotTransient (e : JS.Error) :
    generateContent w k p = Rejected e ->
    isQuotaError e = false ->
    isServerOverload e = false ->
    terminalCause w p k e.

Fixpoint stepWaits (ss : list Step) : list Z :=
  match ss with
  | [] => []
  | WaitStep ms :: ss' => ms :: stepWaits ss'
  | CallStep :: ss' => stepWaits ss'
  end.

(** Calls and waits of a run of [n] attempts that starts at attempt [i]:
    a call, then before each further call the wait of its retry. *)
Definition expectedSteps (i n : nat) : list Step :=
  CallStep
    :: flat_map (fun a => [WaitStep (2000 * 2 ^ Z.of_nat a); CallStep])
                (seq i (n - 1)).

End GeminiService.

(* ===================================================================== *)
(** * Concrete inputs                                                     *)
(* ===================================================================== *)

Module Scenario.

Import GeminiService.

(** A topic as a user may type it; the amount notation holds a dollar
    sign followed by an apostrophe. *)
Definition topicThousands : string :=
  "Firm revenue (US$'000) and R&D intensity".

Definition plainTopic : string := "Generative AI in computing education".

Definition pdf : File := {| name := "paper.pdf"; type := "application/pdf" |}.

(** What [FileReader.readAsDataURL] hands to the upload component. *)
Definition dataUrlUpload : FileInput :=
  {| file := pdf; base64 := "data:application/pdf;base64,JVBERi0xLjQ=" |}.

(** The same content with the prefix already taken off by the caller. *)
Definition bareUpload : FileInput :=
  {| file := pdf; base64 := "JVBERi0xLjQ=" |}.

(** Errors as the SDK raises them. *)
Definition quotaError : JS.Error :=
  {| JS.name := "ApiError";
     JS.message := Some "got status: 429 Too Many Requests";
     JS.status := JS.number 429;
     JS.code := JS.undefined |}.

Definition overloadError : JS.Error :=
  {| JS.name := "ApiError";
     JS.message := Some "got status: 503 Service Unavailable";
     JS.status := JS.number 503;
     JS.code := JS.undefined |}.

Definition authError : JS.Error :=
  {| JS.name := "ApiError";
     JS.message := Some "API key not valid. Please pass a valid API key.";
     JS.status := JS.number 400;
     JS.code := JS.undefined |}.

(** A request the service refuses as too long, with HTTP status 400; the
    token count in the message happens to hold the digits 429. *)
Definition tokenLimitError : JS.Error :=
  {| JS.name := "ApiError";
     JS.message :=
       Some "The input token count (1429034) exceeds the maximum number of tokens allowed (1048576).";
     JS.status := JS.number 400;
     JS.code := JS.undefined |}.

(** Errors that carry their class in [code] only. *)
Definition code429Error : JS.Error :=
  {| JS.name := "Error";
     JS.message := Some "Resource has been exhausted";
     JS.status := JS.undefined;
     JS.code := JS.number 429 |}.

Definition code503Error : JS.Error :=
  {| JS.name := "Error";
     JS.message := Some "The model is overloaded";
     JS.status := JS.undefined;
     JS.code := JS.number 503 |}.

(** The same with a trace identifier in the message. *)
Definition code503TraceError : JS.Error :=
  {| JS.name := "Error";
     JS.message := Some "The model is overloaded (trace 7f4291)";
     JS.status := JS.undefined;
     JS.code := JS.number 503 |}.

Definition num (z : Z) : JSON.json := JSON.JNumber (JSON.ofZ z).

(** A result of the declared type, and the objects of its parts. *)
Definition goodResult : AnalysisResponse :=
  {| individualAnalyses :=
       [ {| title := "Teaching with language models";
            authors := "A. Author; B. Writer";
            year := "2024";
            relevanceRating := 92;
            ratingJustification := "Directly on topic.";
            methodologicalSummary := "Survey, n = 212.";
            keyContributions := "A taxonomy of uses.";
            thesisIntegration := "Cite in chapter 2." |} ];
     summaryTable :=
       [ {| article := "Teaching with language models";
            rating := 92;
            coreConclusion := "Useful with guidance.";
            utility := High |} ];
     synthesisMatrix :=
       {| commonThemes := ["assessment"];
          divergentResults := [];
          researchGaps := ["longitudinal data"] |} |}.

Definition analysis : JSON.json :=
  JSON.JArray (map analysisObject (individualAnalyses goodResult)).

Definition matrix : JSON.json := matrixObject (synthesisMatrix goodResult).

(** A summary row without [utility]. *)
Definition rowWithoutUtility : JSON.json :=
  JSON.JObject
    [ ("article", JSON.JString "Teaching with language models");
      ("rating", num 92);
      ("coreConclusion", JSON.JString "Useful with guidance.") ].

Definition goodPayload : JSON.json := responseObject goodResult.

Definition payloadWithoutUtility : JSON.json :=
  JSON.JObject
    [ ("individualAnalyses", analysis);
      ("summaryTable", JSON.JArray [rowWithoutUtility]);
      ("synthesisMatrix", matrix) ].

(** A world with a key, in which the calls settle as scripted (and with
    an empty response once the script is used up). *)
Definition scripted (script : list Settled) : World :=
  {| API_KEY := Some "test-key";
     generateContent := fun n _ => nth n script (Fulfilled None);
     syntaxErrorMessage := fun _ => "Unexpected end of JSON input" |}.

Definition withoutKey (script : list Settled) : World :=
  {| API_KEY := None;
     generateContent := fun n _ => nth n script (Fulfilled None);
     syntaxErrorMessage := fun _ => "Unexpected end of JSON input" |}.

Definition respond (v : JSON.json) : Settled :=
  Fulfilled (Some (JSON.stringify v)).


(** A body cut off inside a string literal, 4291 characters long, and an
    engine that words the [SyntaxError] of such a body with the position
    where the text ends, as V8 does. *)
Fixpoint filler (n : nat) : string :=
  match n with
  | O => EmptyString
  | S n' => String "a"%char (filler n')
  end.

Definition truncatedBody : string := String JSON.QUOTE (filler 4290).

Definition positionWording (script : list Settled) : World :=
  {| API_KEY := Some "test-key";
     generateContent := fun n _ => nth n script (Fulfilled None);
     syntaxErrorMessage :=
       fun text =>
         "Unterminated string in JSON at position "
         ++ JS.showZ (Z.of_nat (String.length text)) |}.

End Scenario.

(* ===================================================================== *)
(** * More JavaScript string built-ins                                    *)
(* ===================================================================== *)

Module JSString.

Definition LF : string := String (ascii_of_nat 10) EmptyString.

(** The number of bytes of the white-space or line-terminator code point
    [s] starts with, and 0 when it starts with none: the code points
    [String.prototype.trim] removes (TAB, LF, VT, FF, CR, SP, U+00A0,
    U+1680, U+2000 to U+200A, U+2028, U+2029, U+202F, U+205F, U+3000,
    U+FEFF), in UTF-8. *)
Definition whiteSpaceBytes (s : string) : nat :=
  match s with
  | EmptyString => 0
  | String a r =>
      let x := nat_of_ascii a in
      if (((9 <=? x) && (x <=? 13)) || (x =? 32))%nat then 1
      else
        match r with
        | EmptyString => 0
        | String b r2 =>
            let y := nat_of_ascii b in
            if ((x =? 194) && (y =? 160))%nat then 2
            else
              match r2 with
              | EmptyString => 0
              | String c _ =>
                  let z := nat_of_ascii c in
                  if ((x =? 225) && (y =? 154) && (z =? 128))%nat then 3
                  else if ((x =? 226) && (y =? 128)
                           && (((128 <=? z) && (z <=? 138))
                               || (z =? 168) || (z =? 169) || (z =? 175)))%nat
                  then 3
                  else if ((x =? 226) && (y =? 129) && (z =? 159))%nat then 3
                  else if ((x =? 227) && (y =? 128) && (z =? 128))%nat then 3
                  else if ((x =? 239) && (y =? 187) && (z =? 191))%nat then 3
                  else 0
              end
        end
  end.

(** [s.trimStart()]; [skip] counts the bytes still to drop of the code
    point being removed. *)
Fixpoint trimStartFrom (skip : nat) (s : string) : string :=
  match s with
  | EmptyString => EmptyString
  | String _ r =>
      match skip with
      | S k => trimStartFrom k r
      | O =>
          match whiteSpaceBytes s with
          | O => s
          | S k => trimStartFrom k r
          end
      end
  end.

Definition trimStart (s : string) : string := trimStartFrom 0 s.

(** Whether [s] is white space throughout. *)
Fixpoint blankFrom (skip : nat) (s : string) : bool :=
  match s with
  | EmptyString => true
  | String _ r =>
      match skip with
      | S k => blankFrom k r
      | O =>
          match whiteSpaceBytes s with
          | O => false
          | S k => blankFrom k r
          end
      end
  end.

Definition blank (s : string) : bool := blankFrom 0 s.

(** [s.trimEnd()]: the text up to the white space it ends with. *)
Fixpoint trimEnd (s : string) : string :=
  match s with
  | EmptyString => EmptyString
  | String c r => if blank s then EmptyString else String c (trimEnd r)
  end.

(** [s.trim()]. *)
Definition trim (s : string) : string := trimEnd (trimStart s).

(** [!s] for a string. *)
Definition isEmpty (s : string) : bool :=
  match s with EmptyString => true | String _ _ => false end.

(** [s.replace(/c/g, replacement)] for a pattern that is one literal
    character and a replacement text without dollar sign. *)
Fixpoint replaceAllChar (c : ascii) (replacement s : string) : string :=
  match s with
  | EmptyString => EmptyString
  | String x r =>
      if Ascii.eqb x c then replacement ++ replaceAllChar c replacement r
      else String x (replaceAllChar c replacement r)
  end.

(** Occurrences of a character. *)
Fixpoint countChar (c : ascii) (s : string) : nat :=
  match s with
  | EmptyString => 0
  | String x r => (if Ascii.eqb x c then 1 else 0) + countChar c r
  end.

(** Pipes that no backslash stands right before: the cell separators
    of a Markdown table row. *)
Fixpoint unescapedPipesAfter (escaped : bool) (s : string) : nat :=
  match s with
  | EmptyString => 0
  | String x r =>
      (if Ascii.eqb x "|"%char && negb escaped then 1 else 0)
      + unescapedPipesAfter (Ascii.eqb x JSON.BACKSLASH) r
  end.

Definition unescapedPipes (s : string) : nat := unescapedPipesAfter false s.

End JSString.

(* ===================================================================== *)
(** * The upload component, [components/FileUpload.tsx]                   *)
(* ===================================================================== *)

Module FileUpload.

Import GeminiService.

(** Lines 12-31.  [readAsDataURL] is the browser's reader, taken for the
    reads that succeed; a [null] file list changes nothing, a list is
    read in order and appended to the files already there. *)
Definition processFiles (readAsDataURL : File -> string)
  (fileList : option (list File)) (prev : list FileInput)
  : list FileInput :=
  match fileList with
  | None => prev
  | Some l =>
      (prev
       ++ map (fun f => {| file := f; base64 := readAsDataURL f |}) l)%list
  end.

(** [l.filter((_, i) => keep(i))], the index counted from [i]. *)
Fixpoint filterIndex {A : Type} (keep : nat -> bool) (i : nat)
  (l : list A) : list A :=
  match l with
  | [] => []
  | x :: l' =>
      if keep i then x :: filterIndex keep (S i) l'
      else filterIndex keep (S i) l'
  end.

(** Lines 42-44. *)
Definition removeFile (index : nat) (prev : list FileInput)
  : list FileInput :=
  filterIndex (fun i => negb (i =? index)%nat) 0 prev.

End FileUpload.

(* ===================================================================== *)
(** * The application component, [App.tsx]                                *)
(* ===================================================================== *)

Module App.

Import GeminiService.

(** [types.ts]. *)
Inductive AnalysisStage : Type := INPUT | PROCESSING | RESULTS.

(** The five [useState] cells; [None] is [null]. *)
Record State : Type :=
  { topic : string;
    files : list FileInput;
    stage : AnalysisStage;
    results : option JSON.json;
    error : option string }.

Definition initial : State :=
  {| topic := EmptyString; files := []; stage := INPUT;
     results := None; error := None |}.

(** Lines 177-183: every cell is set back. *)
Definition handleReset (s : State) : State :=
  {| topic := EmptyString; files := []; stage := INPUT;
     results := None; error := None |}.

(** [err.message || fallback]. *)
Definition messageOr (e : JS.Error) (fallback : string) : string :=
  match JS.message e with
  | Some (String c m) => String c m
  | _ => fallback
  end.

(** What one click on the button does: the state it leaves, the state
    shown while the call is awaited (when there is a call), the run of
    the service function, and what the handler itself logs. *)
Record Handled : Type :=
  { final : State;
    awaiting : option State;
    service : option Run;
    logged : list JS.Error }.

Definition withError (s : State) (msg : string) : State :=
  {| topic := topic s; files := files s; stage := stage s;
     results := results s; error := Some msg |}.

(** Lines 185-207. *)
Definition handleAnalyze (fuel : nat) (w : World) (s : State)
  : option Handled :=
  if JSString.isEmpty (JSString.trim (topic s)) then
    Some {| final := withError s "Please enter a research topic.";
            awaiting := None; service := None; logged := [] |}
  else if (List.length (files s) =? 0)%nat then
    Some {| final := withError s "Please upload at least one PDF article.";
            awaiting := None; service := None; logged := [] |}
  else
    let processing :=
      {| topic := topic s; files := files s; stage := PROCESSING;
         results := results s; error := None |} in
    match analyzeArticles fuel w (topic s) (files s) with
    | None => None
    | Some run =>
        match outcome run with
        | Returned data =>
            Some {| final :=
                      {| topic := topic s; files := files s;
                         stage := RESULTS; results := Some data;
                         error := None |};
                    awaiting := Some processing;
                    service := Some run;
                    logged := [] |}
        | Thrown err =>
            Some {| final :=
                      {| topic := topic s; files := files s;
                         stage := INPUT; results := results s;
                         error :=
                           Some (messageOr err
                                   "An unexpected error occurred during analysis.") |};
                    awaiting := Some processing;
                    service := Some run;
                    logged := [err] |}
        end
    end.

(** Truthiness of a parsed value: of the numbers, the two zeros are
    falsy. *)
Definition truthy (v : JSON.json) : bool :=
  match v with
  | JSON.JNull => false
  | JSON.JBool b => b
  | JSON.JNumber (JSON.Finite _ m _) => negb (m =? 0)%N
  | JSON.JNumber (JSON.Infinity _) => true
  | JSON.JString s => negb (JSString.isEmpty s)
  | JSON.JArray _ => true
  | JSON.JObject _ => true
  end.

(** What the component renders, lines 209-306: the results view, the
    spinner with the number of articles, or the form with the error it
    shows and whether its button is disabled. *)
Inductive View : Type :=
| ResultsView (data : JSON.json) (topicShown : string)
| ProcessingView (articles : nat)
| FormView (errorShown : option string) (buttonDisabled : bool).

Definition buttonDisabled (s : State) : bool :=
  JSString.isEmpty (JSString.trim (topic s))
  || (List.length (files s) =? 0)%nat.

Definition errorShown (s : State) : option string :=
  match error s with
  | Some (String c m) => Some (String c m)
  | _ => None
  end.

Definition mainCard (s : State) : View :=
  match stage s with
  | PROCESSING => ProcessingView (List.length (files s))
  | _ => FormView (errorShown s) (buttonDisabled s)
  end.

Definition render (s : State) : View :=
  match stage s, results s with
  | RESULTS, Some data =>
      if truthy data then ResultsView data (topic s) else mainCard s
  | _, _ => mainCard s
  end.

End App.

(* ===================================================================== *)
(** * The results component, [components/AnalysisView.tsx]                *)
(* ===================================================================== *)

Module AnalysisView.

Import GeminiService.

(** Lines 14-19, on an integer rating. *)
Definition getRatingColor (rating : Z) : string :=
  if (85 <=? rating)%Z then "text-green-600 bg-green-50 border-green-200"
  else if (60 <=? rating)%Z then "text-blue-600 bg-blue-50 border-blue-200"
  else if (30 <=? rating)%Z
       then "text-yellow-600 bg-yellow-50 border-yellow-200"
  else "text-red-600 bg-red-50 border-red-200".

(** Line 204: the class of the rating in the summary table. *)
Definition ratingEmphasis (rating : Z) : string :=
  if (60 <=? rating)%Z then "text-academic-800" else "text-academic-500".

(** Lines 43-44: a cell of the Markdown table. *)
Definition sanitize (s : string) : string :=
  JSString.replaceAllChar (ascii_of_nat 10) " "
    (JSString.replaceAllChar "|"%char "\|" s).

(** Line 45.  A rating is written in decimal, as JavaScript writes an
    integer below [10 ^ 21] in magnitude. *)
Definition summaryLine (row : SummaryRow) : string :=
  "| " ++ sanitize (article row) ++ " | " ++ JS.showZ (rating row)
  ++ " | " ++ sanitize (coreConclusion row) ++ " | "
  ++ utilityText (utility row) ++ " |" ++ JSString.LF.

(** Lines 52, 54, 56. *)
Definition bullet (item : string) : string :=
  "- " ++ item ++ JSString.LF.

(** Lines 62-70. *)
Definition analysisBlock (item : IndividualAnalysis) : string :=
  "### " ++ title item ++ JSString.LF
  ++ "**Authors:** " ++ authors item ++ " | **Year:** " ++ year item
  ++ JSString.LF
  ++ "**Relevance:** " ++ JS.showZ (relevanceRating item) ++ "/100"
  ++ JSString.LF ++ JSString.LF
  ++ "**Methodological Summary:**" ++ JSString.LF
  ++ methodologicalSummary item ++ JSString.LF ++ JSString.LF
  ++ "**Key Contributions:**" ++ JSString.LF
  ++ keyContributions item ++ JSString.LF ++ JSString.LF
  ++ "**Rating Justification:**" ++ JSString.LF
  ++ ratingJustification item ++ JSString.LF ++ JSString.LF
  ++ "**Thesis Integration:**" ++ JSString.LF
  ++ thesisIntegration item ++ JSString.LF ++ JSString.LF
  ++ "---" ++ JSString.LF ++ JSString.LF.

(** [l.forEach(x => content += text(x))]. *)
Definition appendEach {A : Type} (text : A -> string) (l : list A)
  (content : string) : string :=
  fold_left (fun acc x => acc ++ text x) l content.

(** Lines 31-71: the text of the report; [date] is what
    [toLocaleDateString] gives. *)
Definition reportContent (topic date : string) (data : AnalysisResponse)
  : string :=
  let content :=
    "# Systematic Literature Review Report" ++ JSString.LF ++ JSString.LF in
  let content :=
    content ++ "**Research Topic:** " ++ topic ++ JSString.LF in
  let content :=
    content ++ "**Date:** " ++ date ++ JSString.LF ++ JSString.LF in
  let content := content ++ "---" ++ JSString.LF ++ JSString.LF in
  let content :=
    content ++ "## 1. Summary Overview" ++ JSString.LF ++ JSString.LF in
  let content :=
    content ++ "| Article | Rating | Core Conclusion | Utility |"
    ++ JSString.LF in
  let content :=
    content ++ "| :--- | :--- | :--- | :--- |" ++ JSString.LF in
  let content := appendEach summaryLine (summaryTable data) content in
  let content :=
    content ++ JSString.LF ++ "---" ++ JSString.LF ++ JSString.LF in
  let content :=
    content ++ "## 2. Synthesis Matrix" ++ JSString.LF ++ JSString.LF in
  let content := content ++ "### Common Themes" ++ JSString.LF in
  let content :=
    appendEach bullet (commonThemes (synthesisMatrix data)) content in
  let content :=
    content ++ JSString.LF ++ "### Divergent Results" ++ JSString.LF in
  let content :=
    appendEach bullet (divergentResults (synthesisMatrix data)) content in
  let content :=
    content ++ JSString.LF ++ "### Research Gaps" ++ JSString.LF in
  let content :=
    appendEach bullet (researchGaps (synthesisMatrix data)) content in
  let content :=
    content ++ JSString.LF ++ "---" ++ JSString.LF ++ JSString.LF in
  let content :=
    content ++ "## 3. Deep Individual Analysis" ++ JSString.LF
    ++ JSString.LF in
  appendEach analysisBlock (individualAnalyses data) content.

(** Line 77: the name of the downloaded file, from the ISO date. *)
Definition downloadName (isoDate : string) : string :=
  "ScholarSync_Report_" ++ JS.take 10 isoDate ++ ".md".

End AnalysisView.

(* ===================================================================== *)
(** * The service function without retry, the other [geminiService.ts]   *)
(* ===================================================================== *)

Module SingleShot.

Import GeminiService.

(** Lines 117-127 of that file. *)
Definition request (parts : list Part) : GenerateContentParameters :=
  {| model := "gemini-3-pro-preview";
     contents := parts;
     config := {| responseMimeType := "application/json";
                  configSchema := responseSchema;
                  thinkingBudget := 4096 |} |}.

(** Lines 38-138: the same key check, parts and contract, one call, and
    every error logged and thrown again. *)
Definition analyzeArticles (w : World) (topic : string)
  (files : list FileInput) : Run :=
  if apiKeyMissing w then
    {| outcome :=
         Thrown (JS.newError "API Key is missing in environment variables");
       events := [] |}
  else
    let parameters := request (buildParts topic files) in
    match tryBlock w 0 parameters with
    | inl v =>
        {| outcome := Returned v; events := [ServiceCall parameters] |}
    | inr error =>
        {| outcome := Thrown error;
           events := [ ServiceCall parameters;
                       ConsoleError "Gemini Analysis Error:" error ] |}
    end.

End SingleShot.

(* ===================================================================== *)
(** * What a run logs, and more concrete inputs                           *)
(* ===================================================================== *)

Module RunLog.

Import GeminiService.

(** The requests of the service calls of a run, in order. *)
Fixpoint requestsOf (evs : list Event) : list GenerateContentParameters :=
  match evs with
  | [] => []
  | ServiceCall q :: evs' => q :: requestsOf evs'
  | _ :: evs' => requestsOf evs'
  end.

(** The lines written with [console.warn]. *)
Fixpoint warningsOf (evs : list Event) : list string :=
  match evs with
  | [] => []
  | ConsoleWarn line :: evs' => line :: warningsOf evs'
  | _ :: evs' => warningsOf evs'
  end.

(** The errors written with [console.error]. *)
Fixpoint errorLogsOf (evs : list Event) : list JS.Error :=
  match evs with
  | [] => []
  | ConsoleError _ e :: evs' => e :: errorLogsOf evs'
  | _ :: evs' => errorLogsOf evs'
  end.

(** The error a run throws, if it throws. *)
Definition thrownBy (r : Run) : list JS.Error :=
  match outcome r with
  | Thrown e => [e]
  | Returned _ => []
  end.

End RunLog.

Module Cases.

Import GeminiService.

(** Two spaces, a no-break space, a tab and a line feed. *)
Definition blankTopic : string :=
  "  " ++ String (ascii_of_nat 194) (String (ascii_of_nat 160) EmptyString)
  ++ String (ascii_of_nat 9) (String (ascii_of_nat 10) EmptyString).

(** A reader that yields the data URL of a file with the content
    [JVBERi0xLjQ=]. *)
Definition reader (f : File) : string :=
  "data:" ++ type f ++ ";base64," ++ "JVBERi0xLjQ=".

Definition second : File :=
  {| name := "second.pdf"; type := "application/pdf" |}.

(** The form filled in. *)
Definition filled : App.State :=
  {| App.topic := Scenario.plainTopic;
     App.files := [Scenario.dataUrlUpload];
     App.stage := App.INPUT;
     App.results := None;
     App.error := None |}.

(** A row whose cells hold pipes, a backslash and line feeds. *)
Definition awkwardRow : SummaryRow :=
  {| article := "A | B" ++ JSString.LF ++ "C\";
     rating := 92;
     coreConclusion := "x\|y" ++ JSString.LF;
     utility := Medium |}.

End Cases.

(* ===================================================================== *)
(** * Properties of the string built-ins                                  *)
(* ===================================================================== *)

Import GeminiService.

Section StringFacts.

Lemma includes_cons_false (c : ascii) (s pat : string) :
  JS.includes (String c s) pat = false ->
  JS.startsWith (String c s) pat = false /\ JS.includes s pat = false.
Proof.
  unfold JS.includes. cbn [JS.indexOf].
  destruct (JS.startsWith (String c s) pat); [discriminate|].
  destruct (JS.indexOf s pat); [discriminate|]. auto.
Qed.

Lemma includes_char_cons (c sep : ascii) (s : string) :
  JS.includes (String c s) (String sep EmptyString) = false ->
  Ascii.eqb c sep = false /\ JS.includes s (String sep EmptyString) = false.
Proof.
  intros H. apply includes_cons_false in H. destruct H as [H1 H2].
  split; [|exact H2].
  cbn in H1. rewrite Ascii.eqb_sym.
  destruct (Ascii.eqb sep c); [|reflexivity].
  destruct s; discriminate.
Qed.

(** Without a separator [split] gives back the whole string, alone. *)
Lemma split_no_separator (sep : ascii) (s : string) :
  JS.includes s (String sep EmptyString) = false -> JS.split sep s = [s].
Proof.
  induction s as [|c s IH]; intros H; [reflexivity|].
  apply includes_char_cons in H. destruct H as [Hc Hs].
  cbn [JS.split]. rewrite Hc, (IH Hs). reflexivity.
Qed.

(** A separator-free prefix is the first segment. *)
Lemma split_prefix (sep : ascii) (pre rest : string) :
  JS.includes pre (String sep EmptyString) = false ->
  JS.split sep (pre ++ String sep rest) = pre :: JS.split sep rest.
Proof.
  induction pre as [|c pre IH]; intros H.
  - cbn. rewrite Ascii.eqb_refl. reflexivity.
  - apply includes_char_cons in H. destruct H as [Hc Hs].
    cbn [append JS.split]. rewrite Hc, (IH Hs). reflexivity.
Qed.

Lemma split_nonempty (sep : ascii) (s : string) : JS.split sep s <> [].
Proof.
  destruct s as [|c s]; cbn; [discriminate|].
  destruct (Ascii.eqb c sep); [discriminate|].
  destruct (JS.split sep s); discriminate.
Qed.

Lemma startsWith2_false (c d : ascii) (r : string) (p q : ascii) :
  JS.startsWith (String c (String d r)) (String p (String q EmptyString))
  = false ->
  c = p -> Ascii.eqb d q = false.
Proof.
  intros H ->. cbn in H. rewrite Ascii.eqb_refl in H. cbn in H.
  rewrite Ascii.eqb_sym. destruct (Ascii.eqb q d); [|reflexivity].
  destruct r; discriminate.
Qed.

(** A replacement text without any of the four dollar forms is inserted
    as it is. *)
Lemma GetSubstitution_plain (matched before after topic : string) :
  hasDollarPattern topic = false ->
  JS.GetSubstitution matched before after topic = topic.
Proof.
  unfold hasDollarPattern.
  induction topic as [|c r IH]; intros H; [reflexivity|].
  apply orb_false_elim in H. destruct H as [H H4].
  apply orb_false_elim in H. destruct H as [H H3].
  apply orb_false_elim in H. destruct H as [H1 H2].
  apply includes_cons_false in H1, H2, H3, H4.
  destruct H1 as [S1 I1], H2 as [S2 I2], H3 as [S3 I3], H4 as [S4 I4].
  assert (IHr : JS.GetSubstitution matched before after r = r).
  { apply IH. rewrite I1, I2, I3, I4. reflexivity. }
  cbn [JS.GetSubstitution].
  destruct (Ascii.eqb c "$"%char) eqn:Hc.
  - apply Ascii.eqb_eq in Hc.
    destruct r as [|d r']; [reflexivity|].
    rewrite (startsWith2_false _ _ _ _ _ S1 Hc).
    rewrite (startsWith2_false _ _ _ _ _ S2 Hc).
    rewrite (startsWith2_false _ _ _ _ _ S3 Hc).
    rewrite (startsWith2_false _ _ _ _ _ S4 Hc).
    rewrite IHr. reflexivity.
  - rewrite IHr. reflexivity.
Qed.

End StringFacts.

(* ===================================================================== *)
(** * Properties of [JSON.parse]                                          *)
(* ===================================================================== *)

Section ParserFacts.

Import JSON.

(** The equations of the three parsers. *)
Lemma parseValue_eq (fuel : nat) (s : string) :
  parseValue (S fuel) s
  = match skipWhitespace s with
    | EmptyString => Invalid
    | String c r as s0 =>
        if Ascii.eqb c "{"%char then
          match skipWhitespace r with
          | String c' r' =>
              if Ascii.eqb c' "}"%char then Parsed (JObject []) r'
              else parseMembers fuel r []
          | EmptyString => Invalid
          end
        else if Ascii.eqb c "["%char then
          match skipWhitespace r with
          | String c' r' =>
              if Ascii.eqb c' "]"%char then Parsed (JArray []) r'
              else parseElements fuel r []
          | EmptyString => Invalid
          end
        else if Ascii.eqb c QUOTE then
          match parseChars r with
          | Some (str, r') => Parsed (JString str) r'
          | None => Invalid
          end
        else if Ascii.eqb c "-"%char || isDigit c then
          match parseNumber s0 with
          | Some (d, r') => Parsed (JNumber d) r'
          | None => Invalid
          end
        else if Ascii.eqb c "t"%char then keyword "true" (JBool true) s0
        else if Ascii.eqb c "f"%char then keyword "false" (JBool false) s0
        else if Ascii.eqb c "n"%char then keyword "null" JNull s0
        else Invalid
    end.
Proof. reflexivity. Qed.

Lemma parseElements_eq (fuel : nat) (s : string) (acc : list json) :
  parseElements (S fuel) s acc
  = match parseValue fuel s with
    | Parsed v r =>
        match skipWhitespace r with
        | String c r' =>
            if Ascii.eqb c ","%char then parseElements fuel r' (acc ++ [v])
            else if Ascii.eqb c "]"%char then Parsed (JArray (acc ++ [v])) r'
            else Invalid
        | EmptyString => Invalid
        end
    | other => other
    end.
Proof. reflexivity. Qed.

Lemma parseMembers_eq (fuel : nat) (s : string)
  (acc : list (string * json)) :
  parseMembers (S fuel) s acc
  = match skipWhitespace s with
    | String q r =>
        if Ascii.eqb q QUOTE then
          match parseChars r with
          | Some (k, r1) =>
              match skipWhitespace r1 with
              | String colon r2 =>
                  if Ascii.eqb colon ":"%char then
                    match parseValue fuel r2 with
                    | Parsed v r3 =>
                        match skipWhitespace r3 with
                        | String c r4 =>
                            if Ascii.eqb c ","%char then
                              parseMembers fuel r4 (setProperty acc k v)
                            else if Ascii.eqb c "}"%char then
                              Parsed (JObject (setProperty acc k v)) r4
                            else Invalid
                        | EmptyString => Invalid
                        end
                    | other => other
                    end
                  else Invalid
              | EmptyString => Invalid
              end
          | None => Invalid
          end
        else Invalid
    | EmptyString => Invalid
    end.
Proof. reflexivity. Qed.


Lemma skipWhitespace_length (s : string) :
  String.length (skipWhitespace s) <= String.length s.
Proof.
  induction s as [|c s IH]; cbn; [lia|].
  destruct (isWhitespace c); cbn; lia.
Qed.

Lemma consChars_some (f : string -> string) (o : option (string * string))
  (str r : string) :
  consChars f o = Some (str, r) ->
  exists str', o = Some (str', r) /\ str = f str'.
Proof.
  destruct o as [[str' r']|]; cbn; [|discriminate].
  intros [= <- <-]. eauto.
Qed.

(** A string literal takes at least its closing quote. *)
Lemma parseChars_length (n : nat) :
  forall s str r,
    String.length s <= n ->
    parseChars s = Some (str, r) ->
    String.length r < String.length s.
Proof.
  induction n as [|n IH]; intros s str r Hn H.
  - destruct s; [discriminate|cbn in Hn; lia].
  - destruct s as [|c s]; [discriminate|].
    cbn [parseChars] in H. cbn [String.length] in *.
    repeat
      match type of H with
      | Some _ = Some _ => injection H as <- <-
      | None = Some _ => discriminate H
      | consChars _ _ = Some _ =>
          apply consChars_some in H; destruct H as [? [H _]];
          apply IH in H; cbn [String.length] in *; lia
      | context [match ?x with _ => _ end] => 
          destruct x eqn:?; cbn [String.length] in *
      | context [if ?b then _ else _] => destruct b eqn:?
      end; try lia.
Qed.


Lemma takeDigits_length (s ds r : string) :
  takeDigits s = (ds, r) ->
  String.length ds + String.length r = String.length s.
Proof.
  revert ds r. induction s as [|c s IH]; intros ds r H; cbn in H.
  - injection H as <- <-. reflexivity.
  - destruct (isDigit c).
    + destruct (takeDigits s) as [ds' r'] eqn:E.
      injection H as <- <-. cbn. rewrite (IH _ _ eq_refl). reflexivity.
    + injection H as <- <-. reflexivity.
Qed.

Lemma signPart_length (s : string) (neg : bool) (r : string) :
  signPart s = (neg, r) -> String.length r <= String.length s.
Proof.
  destruct s as [|c s]; cbn; [intros [= <- <-]; cbn; lia|].
  destruct (Ascii.eqb c "-"%char); intros [= <- <-]; cbn; lia.
Qed.

Lemma intPart_length (s ints r : string) :
  intPart s = Some (ints, r) -> String.length r < String.length s.
Proof.
  destruct s as [|c s]; [discriminate|]. unfold intPart.
  destruct (Ascii.eqb c "0"%char); [intros [= <- <-]; cbn; lia|].
  destruct (isDigit c) eqn:Hd; [|discriminate].
  cbn [takeDigits]. rewrite Hd.
  destruct (takeDigits s) as [ds r'] eqn:E.
  apply takeDigits_length in E. intros [= <- <-].
  cbn [String.length]. lia.
Qed.

Lemma fracPart_length (s fracs r : string) :
  fracPart s = Some (fracs, r) -> String.length r <= String.length s.
Proof.
  destruct s as [|c s]; cbn; [intros [= <- <-]; cbn; lia|].
  destruct (Ascii.eqb c "."%char); [|intros [= <- <-]; cbn; lia].
  destruct (takeDigits s) as [fs r'] eqn:E.
  apply takeDigits_length in E.
  destruct fs; [discriminate|]. intros [= <- <-]. lia.
Qed.

Lemma expPart_length (s : string) (e : Z) (r : string) :
  expPart s = Some (e, r) -> String.length r <= String.length s.
Proof.
  destruct s as [|c s]; cbn; [intros [= <- <-]; cbn; lia|].
  destruct (Ascii.eqb c "e"%char || Ascii.eqb c "E"%char);
    [|intros [= <- <-]; cbn; lia].
  destruct s as [|sg s'].
  - cbn. discriminate.
  - destruct (Ascii.eqb sg "-"%char); [|destruct (Ascii.eqb sg "+"%char)];
      match goal with
      | |- context [takeDigits ?x] =>
          destruct (takeDigits x) as [es r2] eqn:E;
          apply takeDigits_length in E
      end;
      (destruct es; [discriminate|]); intros [= <- <-];
      cbn [String.length] in *; lia.
Qed.

(** A number literal takes at least one digit. *)
Lemma numberLiteral_length (s : string) (d : decimal) (r : string) :
  numberLiteral s = Some (d, r) -> String.length r < String.length s.
Proof.
  unfold numberLiteral.
  destruct (signPart s) as [neg s1] eqn:E1.
  destruct (intPart s1) as [[ints s2]|] eqn:E2; [|discriminate].
  destruct (fracPart s2) as [[fracs s3]|] eqn:E3; [|discriminate].
  destruct (expPart s3) as [[e s4]|] eqn:E4; [|discriminate].
  intros [= _ <-].
  apply signPart_length in E1. apply intPart_length in E2.
  apply fracPart_length in E3. apply expPart_length in E4. lia.
Qed.

Lemma parseNumber_length (s : string) (x : double) (r : string) :
  parseNumber s = Some (x, r) -> String.length r < String.length s.
Proof.
  unfold parseNumber.
  destruct (numberLiteral s) as [[d r']|] eqn:E; [|discriminate].
  intros [= _ <-]. apply (numberLiteral_length _ _ _ E).
Qed.

Lemma startsWith_drop (s pat : string) :
  JS.startsWith s pat = true ->
  String.length (JS.drop (String.length pat) s) + String.length pat
  = String.length s.
Proof.
  revert s. induction pat as [|q pat IH]; intros s H.
  - cbn. destruct s; cbn; lia.
  - destruct s as [|c s]; cbn in H; [discriminate|].
    apply andb_true_iff in H. destruct H as [_ H].
    cbn. rewrite <- (IH _ H). lia.
Qed.

Lemma keyword_length (word : string) (v v' : json) (s r : string) :
  word <> EmptyString ->
  keyword word v s = Parsed v' r -> String.length r < String.length s.
Proof.
  unfold keyword. intros Hw H.
  destruct (JS.startsWith s word) eqn:E; [|discriminate].
  injection H as _ <-. apply startsWith_drop in E.
  destruct word; [contradiction|]. cbn [String.length] in *. lia.
Qed.


(** Whatever a sub-parser accepts, it takes at least one character. *)
Lemma parse_consumes (fuel : nat) :
  (forall s v r, parseValue fuel s = Parsed v r ->
                 String.length r < String.length s)
  /\ (forall s acc v r, parseElements fuel s acc = Parsed v r ->
                        String.length r < String.length s)
  /\ (forall s acc v r, parseMembers fuel s acc = Parsed v r ->
                        String.length r < String.length s).
Proof.
  induction fuel as [|fuel [IHv [IHe IHm]]];
    [repeat split; intros; discriminate|].
  split; [|split].
  - intros s v r H. cbn [parseValue] in H.
    pose proof (skipWhitespace_length s) as Hs.
    destruct (skipWhitespace s) as [|c s0] eqn:E; [discriminate|].
    cbn [String.length] in Hs.
    destruct (Ascii.eqb c "{"%char).
    { pose proof (skipWhitespace_length s0) as Hs0.
      destruct (skipWhitespace s0) as [|c' r'] eqn:E0; [discriminate|].
      cbn [String.length] in Hs0.
      destruct (Ascii.eqb c' "}"%char); [injection H as _ <-; lia|].
      apply IHm in H. lia. }
    destruct (Ascii.eqb c "["%char).
    { pose proof (skipWhitespace_length s0) as Hs0.
      destruct (skipWhitespace s0) as [|c' r'] eqn:E0; [discriminate|].
      cbn [String.length] in Hs0.
      destruct (Ascii.eqb c' "]"%char); [injection H as _ <-; lia|].
      apply IHe in H. lia. }
    destruct (Ascii.eqb c QUOTE).
    { destruct (parseChars s0) as [[str r']|] eqn:Ec; [|discriminate].
      injection H as _ <-.
      apply (parseChars_length _ _ _ _ (le_n _)) in Ec. lia. }
    destruct (Ascii.eqb c "-"%char || isDigit c).
    { destruct (parseNumber (String c s0)) as [[d r']|] eqn:En;
        [|discriminate].
      injection H as _ <-. apply parseNumber_length in En.
      cbn [String.length] in En. lia. }
    destruct (Ascii.eqb c "t"%char).
    { apply keyword_length in H; [|discriminate].
      cbn [String.length] in H. lia. }
    destruct (Ascii.eqb c "f"%char).
    { apply keyword_length in H; [|discriminate].
      cbn [String.length] in H. lia. }
    destruct (Ascii.eqb c "n"%char); [|discriminate].
    apply keyword_length in H; [|discriminate].
    cbn [String.length] in H. lia.
  - intros s acc v r H. cbn [parseElements] in H.
    destruct (parseValue fuel s) as [v' r'| |] eqn:Ev; try discriminate.
    apply IHv in Ev.
    pose proof (skipWhitespace_length r') as Hs.
    destruct (skipWhitespace r') as [|c r''] eqn:E; [discriminate|].
    cbn [String.length] in Hs.
    destruct (Ascii.eqb c ","%char); [apply IHe in H; lia|].
    destruct (Ascii.eqb c "]"%char); [|discriminate].
    injection H as _ <-. lia.
  - intros s acc v r H. cbn [parseMembers] in H.
    pose proof (skipWhitespace_length s) as Hs.
    destruct (skipWhitespace s) as [|q s0] eqn:E; [discriminate|].
    cbn [String.length] in Hs.
    destruct (Ascii.eqb q QUOTE); [|discriminate].
    destruct (parseChars s0) as [[k r1]|] eqn:Ec; [|discriminate].
    apply (parseChars_length _ _ _ _ (le_n _)) in Ec.
    pose proof (skipWhitespace_length r1) as Hs1.
    destruct (skipWhitespace r1) as [|colon r2] eqn:E1; [discriminate|].
    cbn [String.length] in Hs1.
    destruct (Ascii.eqb colon ":"%char); [|discriminate].
    destruct (parseValue fuel r2) as [v' r3| |] eqn:Ev; try discriminate.
    apply IHv in Ev.
    pose proof (skipWhitespace_length r3) as Hs3.
    destruct (skipWhitespace r3) as [|c r4] eqn:E3; [discriminate|].
    cbn [String.length] in Hs3.
    destruct (Ascii.eqb c ","%char); [apply IHm in H; lia|].
    destruct (Ascii.eqb c "}"%char); [|discriminate].
    injection H as _ <-. lia.
Qed.


Lemma keyword_total (word : string) (v : json) (s : string) :
  keyword word v s <> Exhausted.
Proof. unfold keyword. destruct (JS.startsWith s word); discriminate. Qed.

(** Two units of fuel per character are enough. *)
Lemma parse_fuel_suffices (fuel : nat) :
  (forall s, 2 * String.length s + 1 <= fuel ->
             parseValue fuel s <> Exhausted)
  /\ (forall s acc, 2 * String.length s + 2 <= fuel ->
                    parseElements fuel s acc <> Exhausted)
  /\ (forall s acc, 2 * String.length s + 2 <= fuel ->
                    parseMembers fuel s acc <> Exhausted).
Proof.
  induction fuel as [|fuel [IHv [IHe IHm]]];
    [repeat split; intros; lia|].
  destruct (parse_consumes fuel) as [Cv _].
  split; [|split].
  - intros s Hf. cbn [parseValue].
    pose proof (skipWhitespace_length s) as Hs.
    destruct (skipWhitespace s) as [|c s0] eqn:E; [discriminate|].
    cbn [String.length] in Hs.
    destruct (Ascii.eqb c "{"%char).
    { destruct (skipWhitespace s0) as [|c' r'] eqn:E0; [discriminate|].
      destruct (Ascii.eqb c' "}"%char); [discriminate|].
      apply IHm. lia. }
    destruct (Ascii.eqb c "["%char).
    { destruct (skipWhitespace s0) as [|c' r'] eqn:E0; [discriminate|].
      destruct (Ascii.eqb c' "]"%char); [discriminate|].
      apply IHe. lia. }
    destruct (Ascii.eqb c QUOTE).
    { destruct (parseChars s0) as [[str r']|]; discriminate. }
    destruct (Ascii.eqb c "-"%char || isDigit c).
    { destruct (parseNumber (String c s0)) as [[d r']|]; discriminate. }
    destruct (Ascii.eqb c "t"%char); [apply keyword_total|].
    destruct (Ascii.eqb c "f"%char); [apply keyword_total|].
    destruct (Ascii.eqb c "n"%char); [apply keyword_total|discriminate].
  - intros s acc Hf. cbn [parseElements].
    destruct (parseValue fuel s) as [v' r'| |] eqn:Ev.
    + apply Cv in Ev.
      pose proof (skipWhitespace_length r') as Hs.
      destruct (skipWhitespace r') as [|c r''] eqn:E; [discriminate|].
      cbn [String.length] in Hs.
      destruct (Ascii.eqb c ","%char); [apply IHe; lia|].
      destruct (Ascii.eqb c "]"%char); discriminate.
    + discriminate.
    + exfalso. apply (IHv s); [lia|exact Ev].
  - intros s acc Hf. cbn [parseMembers].
    pose proof (skipWhitespace_length s) as Hs.
    destruct (skipWhitespace s) as [|q s0] eqn:E; [discriminate|].
    cbn [String.length] in Hs.
    destruct (Ascii.eqb q QUOTE); [|discriminate].
    destruct (parseChars s0) as [[k r1]|] eqn:Ec; [|discriminate].
    apply (parseChars_length _ _ _ _ (le_n _)) in Ec.
    pose proof (skipWhitespace_length r1) as Hs1.
    destruct (skipWhitespace r1) as [|colon r2] eqn:E1; [discriminate|].
    cbn [String.length] in Hs1.
    destruct (Ascii.eqb colon ":"%char); [|discriminate].
    destruct (parseValue fuel r2) as [v' r3| |] eqn:Ev.
    + apply Cv in Ev.
      pose proof (skipWhitespace_length r3) as Hs3.
      destruct (skipWhitespace r3) as [|c r4] eqn:E3; [discriminate|].
      cbn [String.length] in Hs3.
      destruct (Ascii.eqb c ","%char); [apply IHm; lia|].
      destruct (Ascii.eqb c "}"%char); discriminate.
    + discriminate.
    + exfalso. apply (IHv r2); [lia|exact Ev].
Qed.

(** [parse] never runs out of fuel: its [None] is a syntax error. *)
Lemma parse_never_exhausted (text : string) :
  parseValue (fuelFor text) text <> Exhausted.
Proof.
  apply (proj1 (parse_fuel_suffices (fuelFor text))).
  unfold fuelFor. lia.
Qed.

(** More fuel does not change an answer. *)
Lemma parse_fuel_monotone (fuel : nat) :
  (forall s R, parseValue fuel s = R -> R <> Exhausted ->
               parseValue (S fuel) s = R)
  /\ (forall s acc R, parseElements fuel s acc = R -> R <> Exhausted ->
                      parseElements (S fuel) s acc = R)
  /\ (forall s acc R, parseMembers fuel s acc = R -> R <> Exhausted ->
                      parseMembers (S fuel) s acc = R).
Proof.
  induction fuel as [|fuel [IHv [IHe IHm]]];
    [repeat split; intros; cbn in *; congruence|].
  split; [|split].
  - intros s R H HR. rewrite parseValue_eq in H |- *.
    destruct (skipWhitespace s) as [|c s0]; [exact H|].
    destruct (Ascii.eqb c "{"%char).
    { destruct (skipWhitespace s0) as [|c' r']; [exact H|].
      destruct (Ascii.eqb c' "}"%char); [exact H|].
      apply IHm; assumption. }
    destruct (Ascii.eqb c "["%char).
    { destruct (skipWhitespace s0) as [|c' r']; [exact H|].
      destruct (Ascii.eqb c' "]"%char); [exact H|].
      apply IHe; assumption. }
    exact H.
  - intros s acc R H HR. rewrite parseElements_eq in H |- *.
    destruct (parseValue fuel s) as [v r| |] eqn:Ev.
    + rewrite (IHv _ _ Ev) by discriminate.
      destruct (skipWhitespace r) as [|c r']; [exact H|].
      destruct (Ascii.eqb c ","%char); [apply IHe; assumption|exact H].
    + rewrite (IHv _ _ Ev) by discriminate. exact H.
    + congruence.
  - intros s acc R H HR. rewrite parseMembers_eq in H |- *.
    destruct (skipWhitespace s) as [|q s0]; [exact H|].
    destruct (Ascii.eqb q QUOTE); [|exact H].
    destruct (parseChars s0) as [[k r1]|]; [|exact H].
    destruct (skipWhitespace r1) as [|colon r2]; [exact H|].
    destruct (Ascii.eqb colon ":"%char); [|exact H].
    destruct (parseValue fuel r2) as [v r3| |] eqn:Ev.
    + rewrite (IHv _ _ Ev) by discriminate.
      destruct (skipWhitespace r3) as [|c r4]; [exact H|].
      destruct (Ascii.eqb c ","%char); [apply IHm; assumption|exact H].
    + rewrite (IHv _ _ Ev) by discriminate. exact H.
    + congruence.
Qed.

(** One escaped character reads back as itself. *)
Lemma parseChars_escapeChar (c : ascii) (rest : string) :
  parseChars (escapeChar c rest) = consChars (String c) (parseChars rest).
Proof.
  destruct c as [[] [] [] [] [] [] [] []]; reflexivity.
Qed.

Lemma parseChars_escape (s tail : string) :
  parseChars (escape s (String QUOTE tail)) = Some (s, tail).
Proof.
  induction s as [|c s IH]; [reflexivity|].
  cbn [escape]. rewrite parseChars_escapeChar, IH. reflexivity.
Qed.

Lemma takeDigits_uint (u : Decimal.uint) (rest : string) :
  startsWithDigit rest = false ->
  takeDigits (NilEmpty.string_of_uint u ++ rest)
  = (NilEmpty.string_of_uint u, rest).
Proof.
  intros Hr. induction u; cbn [NilEmpty.string_of_uint append takeDigits];
    try (rewrite IHu; reflexivity).
  destruct rest as [|c rest]; [reflexivity|].
  cbn in Hr. cbn. rewrite Hr. reflexivity.
Qed.

Lemma digitsValue_showN (n : N) : digitsValue (showN n) = n.
Proof.
  unfold digitsValue, showN. rewrite NilEmpty.usu. apply DecimalN.Unsigned.of_to.
Qed.

Lemma to_uint_normal (n : N) : Decimal.unorm (N.to_uint n) = N.to_uint n.
Proof.
  rewrite <- (DecimalN.Unsigned.to_of (N.to_uint n)),
    DecimalN.Unsigned.of_to.
  reflexivity.
Qed.

(** The decimal text of a number: [0] alone, or digits that do not start
    with a zero. *)
Lemma intPart_showN (n : N) (rest : string) :
  startsWithDigit rest = false ->
  intPart (showN n ++ rest) = Some (showN n, rest).
Proof.
  intros Hr. unfold showN.
  pose proof (to_uint_normal n) as Hn.
  pose proof (takeDigits_uint (N.to_uint n) rest Hr) as Ht.
  destruct (N.to_uint n) as [|u|u|u|u|u|u|u|u|u|u] eqn:E;
    try (unfold intPart; cbn [NilEmpty.string_of_uint append] in *;
         cbn [Ascii.eqb Bool.eqb isDigit nat_of_ascii] ; rewrite Ht; reflexivity).
  - exfalso. destruct n; cbn in E; [discriminate|].
    unfold N.to_uint in E. apply (DecimalPos.Unsigned.to_uint_nonnil p E).
  - unfold Decimal.unorm in Hn. cbn [Decimal.nzhead] in Hn.
    destruct (Decimal.nzhead u) eqn:Hz;
      try (exfalso; apply (DecimalFacts.nzhead_nonzero u u); congruence).
    injection Hn as <-. reflexivity.
Qed.


Lemma showN_head (n : N) :
  exists c r, showN n = String c r /\ isDigit c = true.
Proof.
  pose proof (intPart_showN n EmptyString eq_refl) as H.
  destruct (showN n ++ EmptyString) as [|c r] eqn:E; [discriminate|].
  assert (Hs : showN n = String c r).
  { rewrite <- E. clear. induction (showN n) as [|x s IH]; cbn;
      [reflexivity | rewrite <- IH; reflexivity]. }
  exists c, r. split; [exact Hs|].
  unfold intPart in H.
  destruct (Ascii.eqb c "0"%char) eqn:E0.
  - apply Ascii.eqb_eq in E0. subst c. reflexivity.
  - destruct (isDigit c); [reflexivity|discriminate].
Qed.

Lemma append_empty (s : string) : s ++ EmptyString = s.
Proof. induction s as [|c s IH]; cbn; [|rewrite IH]; reflexivity. Qed.

Lemma delimited_not_digit (tail : string) :
  delimited tail = true -> startsWithDigit tail = false.
Proof.
  destruct tail as [|c tail]; [reflexivity|]. cbn [delimited startsWithDigit].
  destruct c as [[] [] [] [] [] [] [] []]; cbn; intros H;
    try reflexivity; discriminate H.
Qed.

Lemma fracPart_none (rest : string) :
  (match rest with
   | String c _ => Ascii.eqb c "."%char
   | EmptyString => false
   end) = false ->
  fracPart rest = Some (EmptyString, rest).
Proof.
  destruct rest as [|c rest]; [reflexivity|]. cbn. intros ->. reflexivity.
Qed.

Lemma expPart_none (tail : string) :
  delimited tail = true -> expPart tail = Some (0%Z, tail).
Proof.
  destruct tail as [|c tail]; [reflexivity|]. cbn [delimited expPart].
  destruct c as [[] [] [] [] [] [] [] []]; cbn; intros H;
    try reflexivity; discriminate H.
Qed.

Lemma delimited_not_point (tail : string) :
  delimited tail = true ->
  (match tail with
   | String c _ => Ascii.eqb c "."%char
   | EmptyString => false
   end) = false.
Proof.
  destruct tail as [|c tail]; [reflexivity|]. cbn [delimited].
  destruct c as [[] [] [] [] [] [] [] []]; cbn; intros H;
    try reflexivity; discriminate H.
Qed.

(** The exponent text of [showDecimal] reads back. *)
Lemma expPart_show (e : Z) (tail : string) :
  delimited tail = true ->
  expPart (String "e"%char
             ((if (e <? 0)%Z then "-" else EmptyString)
              ++ showN (Z.abs_N e) ++ tail))
  = Some (e, tail).
Proof.
  intros Ht. pose proof (delimited_not_digit _ Ht) as Hd.
  destruct (showN_head (Z.abs_N e)) as [c [r [Hs Hc]]].
  pose proof (takeDigits_uint (N.to_uint (Z.abs_N e)) tail Hd) as Htd.
  fold (showN (Z.abs_N e)) in Htd.
  cbn [expPart Ascii.eqb Bool.eqb orb].
  destruct (Z.ltb_spec e 0) as [Hneg|Hpos].
  - cbn [append Ascii.eqb Bool.eqb]. rewrite Htd, Hs.
    rewrite <- Hs, digitsValue_showN, N2Z.inj_abs_N.
    f_equal. f_equal. lia.
  - cbn [append]. rewrite Hs. cbn [append].
    assert (Hm : Ascii.eqb c "-"%char = false)
      by (destruct c as [[] [] [] [] [] [] [] []];
          try reflexivity; discriminate Hc).
    assert (Hp : Ascii.eqb c "+"%char = false)
      by (destruct c as [[] [] [] [] [] [] [] []];
          try reflexivity; discriminate Hc).
    rewrite Hm, Hp.
    change (String c (r ++ tail)) with (String c r ++ tail).
    rewrite <- Hs, Htd, Hs. rewrite <- Hs, digitsValue_showN, N2Z.inj_abs_N.
    f_equal. f_equal. lia.
Qed.

Lemma normalize_canonical (d : decimal) :
  canonicalDecimal d = true ->
  normalize (negative d) (digits d) (exponent d) = d.
Proof.
  destruct d as [neg m e]. unfold canonicalDecimal, normalize.
  cbn [negative digits exponent].
  destruct (N.eqb_spec m 0) as [-> | Hm].
  - intros He. apply Z.eqb_eq in He. subst e. reflexivity.
  - intros Hmod. apply negb_true_iff in Hmod.
    destruct m as [|p]; [contradiction|].
    cbn [N.size]. 
    destruct (N.to_nat (N.pos (Pos.size p))) as [|fuel] eqn:Ef; [lia|].
    cbn [stripZeros]. rewrite Hmod. reflexivity.
Qed.

(** A canonical literal value reads back from its text. *)
Lemma numberLiteral_showDecimal (d : decimal) (tail : string) :
  canonicalDecimal d = true ->
  delimited tail = true ->
  numberLiteral (showDecimal d tail) = Some (d, tail).
Proof.
  intros Hd Ht. unfold showDecimal, numberLiteral.
  destruct (showN_head (digits d)) as [c [r [Hs Hc]]].
  set (rest := if (exponent d =? 0)%Z then tail
               else String "e"%char
                      ((if (exponent d <? 0)%Z then "-" else EmptyString)
                       ++ showN (Z.abs_N (exponent d)) ++ tail)).
  assert (Hrd : startsWithDigit rest = false).
  { unfold rest. destruct (exponent d =? 0)%Z;
      [apply delimited_not_digit, Ht | reflexivity]. }
  assert (Hsign :
            signPart ((if negative d then "-" else EmptyString)
                      ++ showN (digits d) ++ rest)
            = (negative d, showN (digits d) ++ rest)).
  { destruct (negative d); [reflexivity|].
    cbn [append]. rewrite Hs. cbn [append signPart].
    replace (Ascii.eqb c "-"%char) with false; [reflexivity|].
    destruct c as [[] [] [] [] [] [] [] []];
      try reflexivity; discriminate Hc. }
  rewrite Hsign, (intPart_showN _ _ Hrd).
  assert (Hfrac : fracPart rest = Some (EmptyString, rest)).
  { apply fracPart_none. unfold rest.
    destruct (exponent d =? 0)%Z;
      [apply delimited_not_point, Ht | reflexivity]. }
  rewrite Hfrac.
  assert (Hexp : expPart rest = Some (exponent d, tail)).
  { unfold rest. destruct (Z.eqb_spec (exponent d) 0) as [-> | Hne];
      [apply expPart_none, Ht | apply expPart_show, Ht]. }
  rewrite Hexp, append_empty, digitsValue_showN.
  cbn [String.length Z.of_nat]. rewrite Z.sub_0_r.
  rewrite (normalize_canonical d Hd). reflexivity.
Qed.

Lemma size_tenth (m : N) :
  (m <> 0)%N -> (m mod 10 = 0)%N ->
  (m / 10 <> 0)%N /\ N.to_nat (N.size (m / 10)) < N.to_nat (N.size m).
Proof.
  intros Hm Hmod.
  pose proof (N.div_mod m 10 ltac:(discriminate)) as Hdm.
  rewrite Hmod, N.add_0_r in Hdm.
  assert (Hq : (m / 10 <> 0)%N) by lia.
  split; [exact Hq|].
  rewrite (N.size_log2 m Hm), (N.size_log2 _ Hq).
  assert (N.log2 (m / 10) < N.log2 m)%N.
  { apply N.lt_le_trans with (N.log2 (2 * (m / 10))).
    - rewrite N.log2_double by lia. lia.
    - apply N.log2_le_mono. lia. }
  lia.
Qed.

Lemma stripZeros_lowest (fuel : nat) :
  forall m e m' e',
    (m <> 0)%N -> N.to_nat (N.size m) <= fuel ->
    stripZeros fuel m e = (m', e') ->
    (m' <> 0)%N /\ (m' mod 10 <> 0)%N.
Proof.
  induction fuel as [|fuel IH]; intros m e m' e' Hm Hf H.
  - rewrite (N.size_log2 m Hm) in Hf. lia.
  - cbn [stripZeros] in H. destruct (N.eqb_spec (m mod 10) 0) as [Hz|Hnz].
    + destruct (size_tenth m Hm Hz) as [Hq Hs].
      apply (IH _ _ _ _ Hq ltac:(lia) H).
    + injection H as <- <-. auto.
Qed.

(** [normalize] yields literal values in lowest terms. *)
Lemma normalize_lowest (neg : bool) (m : N) (e : Z) :
  canonicalDecimal (normalize neg m e) = true.
Proof.
  unfold normalize. destruct (N.eqb_spec m 0) as [-> | Hm]; [reflexivity|].
  destruct (stripZeros (N.to_nat (N.size m)) m e) as [m' e'] eqn:E.
  destruct (stripZeros_lowest _ _ _ _ _ Hm (le_n _) E) as [H0 H10].
  unfold canonicalDecimal. cbn [digits exponent].
  destruct (N.eqb_spec m' 0); [contradiction|].
  destruct (N.eqb_spec (m' mod 10) 0); [contradiction|reflexivity].
Qed.

Section Rounding.

Local Open Scope Z_scope.

(** A value that is a double is rounded to itself. *)
Lemma roundRatio_exact (neg : bool) (p q : Z) (m : N) (e : Z) :
  0 < q ->
  Z.of_N m < 2 ^ 53 ->
  -1074 <= e <= 971 ->
  2 ^ 52 <= Z.of_N m \/ e = -1074 ->
  p * 2 ^ 1075 = Z.of_N m * 2 ^ (e + 1075) * q ->
  roundRatio neg p q = Finite neg m e.
Proof.
  intros Hq Hm He Hn Hp. unfold roundRatio. cbv zeta.
  set (M := Z.of_N m) in *. set (s := e + 1075) in *.
  assert (HM : 0 <= M) by apply N2Z.is_nonneg.
  assert (Hs : 1 <= s <= 2046) by (unfold s; lia).
  rewrite Hp, Z.div_mul, Z.mod_mul by lia.
  cbn [Z.eqb negb].
  assert (Hshift : Z.max 1 (Z.log2 (M * 2 ^ s) - 52) = s).
  { destruct (Z.eq_dec M 0) as [H0 | H0].
    - rewrite H0 in *. cbn [Z.mul Z.log2]. destruct Hn as [Hn | Hn]; lia.
    - rewrite Z.log2_mul_pow2 by lia.
      destruct Hn as [Hn | Hn].
      + rewrite (Z.log2_unique M 52)
          by (change (2 ^ Z.succ 52) with (2 ^ 53); lia).
        lia.
      + assert (Z.log2 M < 53) by (apply Z.log2_lt_pow2; lia). lia. }
  rewrite Hshift.
  rewrite Z.div_mul, Z.mod_mul by (apply Z.pow_nonzero; lia).
  assert (Hhalf : 0 < 2 ^ (s - 1)) by (apply Z.pow_pos_nonneg; lia).
  destruct (Z.ltb_spec 0 (2 ^ (s - 1))) as [_ | ?]; [|lia].
  destruct (Z.eqb_spec M (2 ^ 53)) as [? | _]; [lia|].
  destruct (Z.ltb_spec 2046 s) as [? | _]; [lia|].
  unfold M, s. rewrite N2Z.id. f_equal. lia.
Qed.

(** Rounding depends on the ratio alone. *)
Lemma roundRatio_scale (neg : bool) (c p q : Z) :
  0 < c -> 0 < q ->
  roundRatio neg (c * p) (c * q) = roundRatio neg p q.
Proof.
  intros Hc Hq. unfold roundRatio. cbv zeta.
  rewrite <- Z.mul_assoc, Z.div_mul_cancel_l by lia.
  rewrite Z.mul_mod_distr_l by lia.
  replace (c * ((p * 2 ^ 1075) mod q) =? 0)
    with ((p * 2 ^ 1075) mod q =? 0); [reflexivity|].
  destruct (Z.eqb_spec ((p * 2 ^ 1075) mod q) 0) as [-> | Hne].
  - rewrite Z.mul_0_r. reflexivity.
  - symmetry. apply Z.eqb_neq. nia.
Qed.

Lemma roundRatio_zero (neg : bool) (q : Z) :
  0 < q -> roundRatio neg 0 q = Finite neg 0 (-1074).
Proof.
  intros Hq. apply roundRatio_exact; cbn; try lia.
Qed.

Lemma binary64_tenth (neg : bool) (m : N) (e : Z) :
  (m mod 10 = 0)%N ->
  binary64 {| negative := neg; digits := m / 10; exponent := e + 1 |}
  = binary64 {| negative := neg; digits := m; exponent := e |}.
Proof.
  intros Hmod. unfold binary64. cbn [negative digits exponent].
  assert (Hm : Z.of_N m = 10 * Z.of_N (m / 10)).
  { pose proof (N.div_mod m 10 ltac:(discriminate)) as H.
    rewrite Hmod, N.add_0_r in H. lia. }
  rewrite Hm. destruct (Z.le_gt_cases 0 e) as [He | He].
  - replace (Z.max 0 (e + 1)) with (e + 1) by lia.
    replace (Z.max 0 e) with e by lia.
    replace (Z.max 0 (- (e + 1))) with 0 by lia.
    replace (Z.max 0 (- e)) with 0 by lia.
    rewrite Z.pow_add_r by lia. f_equal. ring.
  - replace (Z.max 0 (e + 1)) with 0 by lia.
    replace (Z.max 0 e) with 0 by lia.
    replace (Z.max 0 (- (e + 1))) with (- (e + 1)) by lia.
    replace (Z.max 0 (- e)) with (1 + - (e + 1)) by lia.
    rewrite (Z.pow_add_r 10 1) by lia.
    change (10 ^ 0) with 1. change (10 ^ 1) with 10.
    rewrite !Z.mul_1_r.
    symmetry. apply roundRatio_scale; [lia|]. apply Z.pow_pos_nonneg; lia.
Qed.

Lemma binary64_stripZeros (neg : bool) (fuel : nat) :
  forall m e m' e',
    stripZeros fuel m e = (m', e') ->
    binary64 {| negative := neg; digits := m'; exponent := e' |}
    = binary64 {| negative := neg; digits := m; exponent := e |}.
Proof.
  induction fuel as [|fuel IH]; intros m e m' e' H; cbn [stripZeros] in H.
  - injection H as <- <-. reflexivity.
  - destruct (N.eqb_spec (m mod 10) 0) as [Hz | Hnz].
    + rewrite (IH _ _ _ _ H). apply binary64_tenth, Hz.
    + injection H as <- <-. reflexivity.
Qed.

(** Rounding looks at the value of a literal, not at how it is written. *)
Lemma binary64_normalize (neg : bool) (m : N) (e : Z) :
  binary64 (normalize neg m e)
  = binary64 {| negative := neg; digits := m; exponent := e |}.
Proof.
  unfold normalize. destruct (N.eqb_spec m 0) as [-> | Hm].
  - unfold binary64. cbn [negative digits exponent Z.of_N Z.mul].
    rewrite !roundRatio_zero; [reflexivity| |];
      apply Z.pow_pos_nonneg; lia.
  - destruct (stripZeros (N.to_nat (N.size m)) m e) as [m' e'] eqn:E.
    apply (binary64_stripZeros neg _ _ _ _ _ E).
Qed.

(** A double reads back from its own decimal expansion. *)
Lemma binary64_decimalOf (x : double) :
  normal x = true -> binary64 (decimalOf x) = x.
Proof.
  destruct x as [neg m e | neg]; cbn [normal decimalOf].
  - intros H.
    apply andb_true_iff in H. destruct H as [H Hn].
    apply andb_true_iff in H. destruct H as [H Hhi].
    apply andb_true_iff in H. destruct H as [Hm Hlo].
    apply N.ltb_lt in Hm. apply Z.leb_le in Hlo, Hhi.
    assert (Hm' : Z.of_N m < 2 ^ 53)
      by (change (2 ^ 53) with (Z.of_N (2 ^ 53)); lia).
    assert (Hn' : 2 ^ 52 <= Z.of_N m \/ e = -1074).
    { apply orb_true_iff in Hn. destruct Hn as [Hn | Hn].
      - left. apply N.leb_le in Hn.
        change (2 ^ 52) with (Z.of_N (2 ^ 52)). lia.
      - right. apply Z.eqb_eq, Hn. }
    destruct (Z.leb_spec 0 e) as [He | He]; rewrite binary64_normalize.
    + unfold binary64. cbn [negative digits exponent].
      apply roundRatio_exact; try assumption; try lia.
      rewrite N2Z.inj_mul, N2Z.inj_pow, Z2N.id by lia.
      change (Z.of_N 2) with 2.
      change (10 ^ Z.max 0 0) with 1. change (10 ^ Z.max 0 (- 0)) with 1.
      rewrite (Z.pow_add_r 2 e 1075) by lia.
      ring.
    + unfold binary64. cbn [negative digits exponent].
      apply roundRatio_exact; try assumption; try lia;
        try (apply Z.pow_pos_nonneg; lia).
      rewrite N2Z.inj_mul, N2Z.inj_pow, Z2N.id by lia.
      change (Z.of_N 5) with 5.
      replace (Z.max 0 e) with 0 by lia.
      replace (Z.max 0 (- e)) with (- e) by lia.
      change (10 ^ 0) with 1.
      replace 1075 with (- e + (e + 1075)) at 1 by lia.
      rewrite (Z.pow_add_r 2 (- e)) by lia.
      change 10 with (2 * 5). rewrite Z.pow_mul_l. ring.
  - intros _. destruct neg; vm_compute; reflexivity.
Qed.

(** Rounding yields a double in normal form. *)
Lemma roundRatio_normal (neg : bool) (p q : Z) :
  0 <= p -> 0 < q -> normal (roundRatio neg p q) = true.
Proof.
  intros Hp Hq. unfold roundRatio. cbv zeta.
  set (whole := p * 2 ^ 1075 / q).
  assert (Hw : 0 <= whole).
  { apply Z.div_pos; [|exact Hq]. apply Z.mul_nonneg_nonneg; [exact Hp|].
    apply Z.pow_nonneg. lia. }
  set (shift := Z.max 1 (Z.log2 whole - 52)).
  assert (Hs : 1 <= shift) by (unfold shift; lia).
  assert (H2s : 0 < 2 ^ shift) by (apply Z.pow_pos_nonneg; lia).
  set (kept := whole / 2 ^ shift).
  assert (Hk0 : 0 <= kept) by (apply Z.div_pos; lia).
  assert (Hk53 : kept < 2 ^ 53).
  { apply Z.div_lt_upper_bound; [exact H2s|].
    rewrite <- Z.pow_add_r by lia.
    destruct (Z.eq_dec whole 0) as [-> | Hne];
      [apply Z.pow_pos_nonneg; lia|].
    apply Z.lt_le_trans with (2 ^ Z.succ (Z.log2 whole)).
    - apply Z.log2_spec. lia.
    - apply Z.pow_le_mono_r; unfold shift; lia. }
  assert (Hk52 : 1 < shift -> 2 ^ 52 <= kept).
  { intros H1. apply Z.div_le_lower_bound; [exact H2s|].
    rewrite <- Z.pow_add_r by lia.
    assert (Hpos : 0 < whole).
    { destruct (Z.eq_dec whole 0) as [E | ?]; [|lia].
      unfold shift in H1. rewrite E in H1. cbn in H1. lia. }
    apply Z.le_trans with (2 ^ Z.log2 whole).
    - apply Z.pow_le_mono_r; unfold shift in *; lia.
    - apply Z.log2_spec, Hpos. }
  set (up := if whole mod 2 ^ shift <? 2 ^ (shift - 1) then false
             else if 2 ^ (shift - 1) <? whole mod 2 ^ shift then true
             else negb (p * 2 ^ 1075 mod q =? 0) || Z.odd kept).
  clearbody up.
  set (rounded := if up then kept + 1 else kept).
  assert (Hr : kept <= rounded <= kept + 1)
    by (unfold rounded; destruct up; lia).
  clearbody rounded. clearbody kept. clearbody shift. clear whole Hw.
  change (2 ^ 53) with 9007199254740992 in *.
  change (2 ^ 52) with 4503599627370496 in *.
  destruct (Z.eqb_spec rounded 9007199254740992) as [E | E].
  - destruct (Z.ltb_spec 2046 (shift + 1)); [reflexivity|].
    cbn [normal].
    change (Z.to_N 4503599627370496) with 4503599627370496%N.
    change (4503599627370496 <? 2 ^ 53)%N with true.
    change (2 ^ 52 <=? 4503599627370496)%N with true.
    cbn [andb orb]. rewrite andb_true_r.
    apply andb_true_iff. split; apply Z.leb_le; lia.
  - destruct (Z.ltb_spec 2046 shift); [reflexivity|].
    cbn [normal].
    change (2 ^ 53)%N with 9007199254740992%N.
    change (2 ^ 52)%N with 4503599627370496%N.
    repeat (apply andb_true_iff; split).
    + apply N.ltb_lt. lia.
    + apply Z.leb_le. lia.
    + apply Z.leb_le. lia.
    + apply orb_true_iff.
      destruct (Z.eq_dec shift 1) as [-> | Hne].
      * right. reflexivity.
      * left. apply N.leb_le. specialize (Hk52 ltac:(lia)). lia.
Qed.

(** The double chosen lies within half a step of the ratio, and on a
    tie it is the one with the even mantissa. *)
Lemma roundRatio_nearest (neg : bool) (p q : Z) (m : N) (e : Z) :
  0 <= p -> 0 < q ->
  roundRatio neg p q = Finite neg m e ->
  Z.abs (p * 2 ^ 1075 - Z.of_N m * 2 ^ (e + 1075) * q) <= 2 ^ (e + 1074) * q
  /\ (Z.abs (p * 2 ^ 1075 - Z.of_N m * 2 ^ (e + 1075) * q)
      = 2 ^ (e + 1074) * q ->
      Z.even (Z.of_N m) = true).
Proof.
  intros Hp Hq. unfold roundRatio. cbv zeta.
  set (scaled := p * 2 ^ 1075).
  assert (Hsc : 0 <= scaled)
    by (apply Z.mul_nonneg_nonneg; [exact Hp | apply Z.pow_nonneg; lia]).
  pose proof (Z.div_mod scaled q ltac:(lia)) as Hdm.
  pose proof (Z.mod_pos_bound scaled q Hq) as Hr0.
  set (whole := scaled / q) in *. set (r0 := scaled mod q) in *.
  assert (Hw : 0 <= whole) by (apply Z.div_pos; lia).
  set (shift := Z.max 1 (Z.log2 whole - 52)).
  assert (Hs : 1 <= shift) by (unfold shift; lia).
  assert (Hpow : 2 ^ shift = 2 * 2 ^ (shift - 1)).
  { replace shift with (1 + (shift - 1)) at 1 by lia.
    rewrite Z.pow_add_r by lia. reflexivity. }
  assert (Hhalf : 0 < 2 ^ (shift - 1)) by (apply Z.pow_pos_nonneg; lia).
  pose proof (Z.div_mod whole (2 ^ shift) ltac:(lia)) as Hkd.
  pose proof (Z.mod_pos_bound whole (2 ^ shift) ltac:(lia)) as Hd.
  set (kept := whole / 2 ^ shift) in *.
  set (dropped := whole mod 2 ^ shift) in *.
  assert (Hk0 : 0 <= kept) by (apply Z.div_pos; lia).
  set (half := 2 ^ (shift - 1)) in *.
  assert (Hh : 2 ^ (shift - 1) = half) by reflexivity.
  assert (Hnext : 2 ^ (shift + 1) = 4 * half).
  { rewrite Z.pow_add_r, Hpow by lia. change (2 ^ 1) with 2. ring. }
  assert (Hnext' : 2 ^ (shift + 1 - 1) = 2 * half).
  { replace (shift + 1 - 1) with shift by lia. exact Hpow. }
  clearbody half. clearbody shift.
  revert Hkd Hd. clearbody kept dropped. intros Hkd Hd.
  revert Hdm Hr0. clearbody whole r0. intros Hdm Hr0.
  assert (Habs : forall rounded,
             0 <= rounded ->
             Z.abs (scaled - rounded * 2 ^ shift * q) <= half * q ->
             (Z.abs (scaled - rounded * 2 ^ shift * q) = half * q ->
              Z.even rounded = true) ->
             (let (m', s) :=
                if rounded =? 2 ^ 53 then (2 ^ 52, shift + 1)
                else (rounded, shift) in
              if 2046 <? s then Infinity neg
              else Finite neg (Z.to_N m') (s - 1075))
             = Finite neg m e ->
             Z.abs (scaled - Z.of_N m * 2 ^ (e + 1075) * q)
             <= 2 ^ (e + 1074) * q
             /\ (Z.abs (scaled - Z.of_N m * 2 ^ (e + 1075) * q)
                 = 2 ^ (e + 1074) * q ->
                 Z.even (Z.of_N m) = true)).
  { intros rounded Hr Hbound Htie.
    destruct (Z.eqb_spec rounded (2 ^ 53)) as [E | E].
    - destruct (2046 <? shift + 1); [discriminate|].
      intros [= <- <-].
      replace (shift + 1 - 1075 + 1075) with (shift + 1) by lia.
      replace (shift + 1 - 1075 + 1074) with (shift + 1 - 1) by lia.
      rewrite Hnext, Hnext'.
      change (Z.of_N (Z.to_N (2 ^ 52))) with 4503599627370496.
      rewrite E, Hpow in Hbound.
      change (2 ^ 53) with 9007199254740992 in Hbound.
      split; [|reflexivity].
      replace (4503599627370496 * (4 * half) * q)
        with (9007199254740992 * (2 * half) * q) by ring.
      nia.
    - destruct (2046 <? shift); [discriminate|].
      intros [= <- <-].
      replace (shift - 1075 + 1075) with shift by lia.
      replace (shift - 1075 + 1074) with (shift - 1) by lia.
      rewrite Hh, Z2N.id by exact Hr. split; assumption. }
  assert (Hscaled : scaled = q * (2 * half * kept + dropped) + r0)
    by (rewrite <- Hpow, <- Hkd; exact Hdm).
  rewrite Hpow in Hd.
  destruct (Z.ltb_spec dropped half) as [Hlt | Hge].
  - apply (Habs kept Hk0).
    + rewrite Hpow, Hscaled. rewrite Z.abs_eq by nia. nia.
    + rewrite Hpow, Hscaled. rewrite Z.abs_eq by nia. intros G. nia.
  - destruct (Z.ltb_spec half dropped) as [Hgt | Hle].
    + apply (Habs (kept + 1) ltac:(lia)).
      * rewrite Hpow, Hscaled. rewrite Z.abs_neq by nia. nia.
      * rewrite Hpow, Hscaled. rewrite Z.abs_neq by nia. intros G. nia.
    + assert (Ed : dropped = half) by lia. subst dropped.
      destruct (Z.eqb_spec r0 0) as [Er | Er]; cbn [negb orb].
      * destruct (Z.odd kept) eqn:Eo.
        -- apply (Habs (kept + 1) ltac:(lia)).
           ++ rewrite Hpow, Hscaled. rewrite Z.abs_neq by nia. nia.
           ++ intros _. change (kept + 1) with (Z.succ kept).
              rewrite Z.even_succ. exact Eo.
        -- apply (Habs kept Hk0).
           ++ rewrite Hpow, Hscaled. rewrite Z.abs_eq by nia. nia.
           ++ intros _. rewrite <- Z.negb_odd, Eo. reflexivity.
      * apply (Habs (kept + 1) ltac:(lia)).
        -- rewrite Hpow, Hscaled. rewrite Z.abs_neq by nia. nia.
        -- rewrite Hpow, Hscaled. rewrite Z.abs_neq by nia. intros G. nia.
Qed.

Lemma binary64_normal (d : decimal) : normal (binary64 d) = true.
Proof.
  unfold binary64. apply roundRatio_normal.
  - apply Z.mul_nonneg_nonneg; [apply N2Z.is_nonneg|].
    apply Z.pow_nonneg. lia.
  - apply Z.pow_pos_nonneg; lia.
Qed.

End Rounding.

Lemma decimalOf_canonical (x : double) :
  canonicalDecimal (decimalOf x) = true.
Proof.
  destruct x as [neg m e | neg]; cbn [decimalOf]; [|reflexivity].
  destruct (0 <=? e)%Z; apply normalize_lowest.
Qed.

(** A double in normal form reads back from its text. *)
Lemma parseNumber_showDouble (x : double) (tail : string) :
  normal x = true ->
  delimited tail = true ->
  parseNumber (showDecimal (decimalOf x) tail) = Some (x, tail).
Proof.
  intros Hx Ht. unfold parseNumber.
  rewrite (numberLiteral_showDecimal _ _ (decimalOf_canonical x) Ht).
  rewrite (binary64_decimalOf x Hx). reflexivity.
Qed.

Lemma startsValue_facts (c : ascii) :
  startsValue c = true ->
  isWhitespace c = false
  /\ Ascii.eqb c "]"%char = false /\ Ascii.eqb c "}"%char = false.
Proof.
  destruct c as [[] [] [] [] [] [] [] []]; cbn; intros H;
    try discriminate H; repeat split.
Qed.

Lemma number_head_facts (c : ascii) :
  Ascii.eqb c "-"%char || isDigit c = true ->
  startsValue c = true
  /\ Ascii.eqb c "{"%char = false /\ Ascii.eqb c "["%char = false
  /\ Ascii.eqb c QUOTE = false.
Proof.
  destruct c as [[] [] [] [] [] [] [] []]; cbn; intros H;
    try discriminate H; repeat split.
Qed.

Lemma showDecimal_head (d : decimal) (tail : string) :
  exists c r,
    showDecimal d tail = String c r
    /\ Ascii.eqb c "-"%char || isDigit c = true.
Proof.
  unfold showDecimal. destruct (negative d).
  - cbn [append]. eexists _, _. split; reflexivity.
  - destruct (showN_head (digits d)) as [c [r [Hs Hc]]].
    rewrite Hs. cbn [append]. eexists _, _. split; [reflexivity|].
    rewrite Hc. apply orb_true_r.
Qed.

Lemma write_head (L : Layout) (depth : nat) (v : json) (tail : string) :
  exists c r, write L depth v tail = String c r /\ startsValue c = true.
Proof.
  destruct v as [|[]|x|s|vs|ms]; cbn [write append];
    try (eexists _, _; split; reflexivity).
  - destruct (showDecimal_head (decimalOf x) tail) as [c [r [Hs Hc]]].
    exists c, r. split; [exact Hs|]. apply (number_head_facts c Hc).
Qed.

Lemma size_positive (v : json) : 1 <= size v.
Proof. destruct v; cbn; lia. Qed.

Lemma setProperty_fresh (acc : list (string * json)) (k : string) (v : json) :
  existsb (String.eqb k) (map fst acc) = false ->
  setProperty acc k v = (acc ++ [(k, v)])%list.
Proof.
  induction acc as [|[k' v'] acc IH]; cbn; [reflexivity|].
  intros H. apply orb_false_elim in H. destruct H as [Hk Hacc].
  rewrite String.eqb_sym, Hk, (IH Hacc). reflexivity.
Qed.

Lemma distinct_middle (l1 : list string) (k : string) (l2 : list string) :
  distinct (l1 ++ k :: l2) = true -> existsb (String.eqb k) l1 = false.
Proof.
  induction l1 as [|a l1 IH]; cbn; [reflexivity|].
  intros H. apply andb_true_iff in H. destruct H as [Ha Hd].
  apply negb_true_iff in Ha. rewrite existsb_app in Ha.
  apply orb_false_elim in Ha. destruct Ha as [_ Ha]. cbn in Ha.
  apply orb_false_elim in Ha. destruct Ha as [Hak _].
  rewrite String.eqb_sym, Hak, (IH Hd). reflexivity.
Qed.

Lemma joinWith_single {A : Type} (item : A -> string -> string)
  (whenEmpty close : string -> string) (x : A) (tail : string) :
  joinWith item whenEmpty close [x] tail = item x (close tail).
Proof. reflexivity. Qed.

Lemma joinWith_cons {A : Type} (item : A -> string -> string)
  (whenEmpty close : string -> string) (x y : A) (xs : list A)
  (tail : string) :
  joinWith item whenEmpty close (x :: y :: xs) tail
  = item x (String ","%char (joinWith item whenEmpty close (y :: xs) tail)).
Proof. reflexivity. Qed.

(** ** White space between the tokens *)

Lemma whitespace_char (c : ascii) :
  Ascii.eqb c " "%char || Ascii.eqb c (ascii_of_nat 9)
  || Ascii.eqb c (ascii_of_nat 10) || Ascii.eqb c (ascii_of_nat 13) = true ->
  isWhitespace c = true.
Proof.
  destruct c as [[] [] [] [] [] [] [] []]; cbn; intros H;
    try reflexivity; discriminate H.
Qed.

Lemma skipWhitespace_blank (ws s : string) :
  allWhitespace ws = true -> skipWhitespace (ws ++ s) = skipWhitespace s.
Proof.
  induction ws as [|c ws IH]; cbn [allWhitespace append]; intros H;
    [reflexivity|].
  apply andb_true_iff in H. destruct H as [Hc Hws].
  cbn [skipWhitespace]. rewrite (whitespace_char _ Hc). apply IH, Hws.
Qed.

Lemma skipWhitespace_all (ws : string) :
  allWhitespace ws = true -> skipWhitespace ws = EmptyString.
Proof.
  intros H. rewrite <- (append_empty ws) at 1.
  rewrite (skipWhitespace_blank _ _ H). reflexivity.
Qed.

Lemma delimited_blank (ws t : string) :
  allWhitespace ws = true -> delimited t = true ->
  delimited (ws ++ t) = true.
Proof.
  destruct ws as [|c ws]; [intros _ H; exact H|].
  cbn [allWhitespace append delimited]. intros H _.
  apply andb_true_iff in H. destruct H as [Hc _].
  rewrite (whitespace_char _ Hc). apply orb_true_r.
Qed.

Lemma skipWhitespace_value (L : Layout) (depth : nat) (v : json)
  (tail : string) :
  skipWhitespace (write L depth v tail) = write L depth v tail.
Proof.
  destruct (write_head L depth v tail) as [c [r [Hw Hc]]].
  destruct (startsValue_facts c Hc) as [Hs _].
  rewrite Hw. cbn [skipWhitespace]. rewrite Hs. reflexivity.
Qed.

Lemma parseValue_blank (fuel : nat) (ws s : string) :
  allWhitespace ws = true ->
  parseValue fuel (ws ++ s) = parseValue fuel s.
Proof.
  intros H. destruct fuel as [|fuel]; [reflexivity|].
  rewrite !parseValue_eq, (skipWhitespace_blank _ _ H). reflexivity.
Qed.

Section Step.

Variable L : Layout.
Hypothesis spaced : blank L.
Variable bound : nat.

(** The round trip of values below the bound. *)
Hypothesis values :
  forall fuel depth v tail,
    fuel < bound ->
    canonical v = true -> delimited tail = true -> size v <= fuel ->
    parseValue fuel (write L depth v tail) = Parsed v tail.

Lemma parseElements_join (depth : nat) (whenEmpty : string -> string)
  (ws : string) (vs : list json) :
  allWhitespace ws = true ->
  forall fuel acc tail,
    fuel < bound ->
    vs <> [] ->
    forallb canonical vs = true ->
    delimited tail = true ->
    itemsSize vs <= fuel ->
    parseElements fuel
      (joinWith (elementText L depth) whenEmpty
         (fun t => ws ++ String "]"%char t) vs tail) acc
    = Parsed (JArray (acc ++ vs)) tail.
Proof.
  intros Hws.
  destruct (spaced depth) as [Hbefore [Hafter _]].
  induction vs as [|v vs IH]; intros fuel acc tail Hb Hne Hc Ht Hs;
    [contradiction|].
  cbn [forallb] in Hc. apply andb_true_iff in Hc. destruct Hc as [Hv Hvs].
  change (itemsSize (v :: vs)) with (S (size v + itemsSize vs)) in Hs.
  destruct fuel as [|fuel]; [lia|].
  rewrite parseElements_eq.
  destruct vs as [|v' vs].
  - rewrite joinWith_single. unfold elementText.
    rewrite (parseValue_blank _ _ _ Hbefore).
    assert (Hlast : delimited (afterItem L depth ++ ws ++ String "]"%char tail)
                    = true)
      by (apply delimited_blank; [assumption|];
          apply delimited_blank; [assumption|reflexivity]).
    rewrite (values fuel depth v _ ltac:(lia) Hv Hlast ltac:(lia)).
    rewrite (skipWhitespace_blank _ _ Hafter),
      (skipWhitespace_blank _ _ Hws).
    reflexivity.
  - rewrite joinWith_cons. unfold elementText at 1.
    rewrite (parseValue_blank _ _ _ Hbefore).
    assert (Hnext : forall t,
               delimited (afterItem L depth ++ String ","%char t) = true)
      by (intros t; apply delimited_blank; [assumption|reflexivity]).
    rewrite (values fuel depth v _ ltac:(lia) Hv (Hnext _) ltac:(lia)).
    rewrite (skipWhitespace_blank _ _ Hafter).
    change (skipWhitespace (String ","%char ?x)) with (String ","%char x).
    cbv beta iota. rewrite Ascii.eqb_refl.
    rewrite (IH fuel (acc ++ [v])%list tail)
      by (try discriminate; try assumption; cbn in *; lia).
    rewrite <- app_assoc. reflexivity.
Qed.

Lemma parseMembers_join (depth : nat) (whenEmpty : string -> string)
  (ws : string) (ms : list (string * json)) :
  allWhitespace ws = true ->
  forall fuel acc tail,
    fuel < bound ->
    ms <> [] ->
    distinct (map fst (acc ++ ms)) = true ->
    forallb (fun m : string * json => let (_, x) := m in canonical x) ms
    = true ->
    delimited tail = true ->
    membersSize ms <= fuel ->
    parseMembers fuel
      (joinWith (memberText L depth) whenEmpty
         (fun t => ws ++ String "}"%char t) ms tail) acc
    = Parsed (JObject (acc ++ ms)) tail.
Proof.
  intros Hws.
  destruct (spaced depth) as [Hbefore [Hafter [Hkey [Hcolon _]]]].
  induction ms as [|[k v] ms IH]; intros fuel acc tail Hb Hne Hd Hc Ht Hs;
    [contradiction|].
  cbn [forallb] in Hc. apply andb_true_iff in Hc. destruct Hc as [Hv Hms].
  change (membersSize ((k, v) :: ms)) with (S (size v + membersSize ms)) in Hs.
  destruct fuel as [|fuel]; [lia|].
  assert (Hfresh : setProperty acc k v = (acc ++ [(k, v)])%list).
  { apply setProperty_fresh. rewrite map_app in Hd. cbn [map fst] in Hd.
    apply (distinct_middle _ _ _ Hd). }
  assert (Hhead :
            forall t,
              parseMembers (S fuel) (memberText L depth (k, v) t) acc
              = match parseValue fuel
                        (write L depth v (afterItem L depth ++ t)) with
                | Parsed v' r3 =>
                    match skipWhitespace r3 with
                    | String c r4 =>
                        if Ascii.eqb c ","%char then
                          parseMembers fuel r4 (setProperty acc k v')
                        else if Ascii.eqb c "}"%char then
                          Parsed (JObject (setProperty acc k v')) r4
                        else Invalid
                    | EmptyString => Invalid
                    end
                | other => other
                end).
  { intros t. rewrite parseMembers_eq. unfold memberText, quoted.
    rewrite (skipWhitespace_blank _ _ Hbefore).
    change (skipWhitespace (String QUOTE ?x)) with (String QUOTE x).
    cbv beta iota. rewrite Ascii.eqb_refl, parseChars_escape.
    rewrite (skipWhitespace_blank _ _ Hkey).
    change (skipWhitespace (String ":"%char ?x)) with (String ":"%char x).
    cbv beta iota. rewrite Ascii.eqb_refl.
    rewrite (parseValue_blank _ _ _ Hcolon). reflexivity. }
  destruct ms as [|m' ms].
  - rewrite joinWith_single, Hhead.
    assert (Hlast : delimited (afterItem L depth ++ ws ++ String "}"%char tail)
                    = true)
      by (apply delimited_blank; [assumption|];
          apply delimited_blank; [assumption|reflexivity]).
    rewrite (values fuel depth v _ ltac:(lia) Hv Hlast ltac:(lia)).
    rewrite (skipWhitespace_blank _ _ Hafter),
      (skipWhitespace_blank _ _ Hws).
    cbn. rewrite Hfresh. reflexivity.
  - rewrite joinWith_cons, Hhead.
    assert (Hnext : forall t,
               delimited (afterItem L depth ++ String ","%char t) = true)
      by (intros t; apply delimited_blank; [assumption|reflexivity]).
    rewrite (values fuel depth v _ ltac:(lia) Hv (Hnext _) ltac:(lia)).
    rewrite (skipWhitespace_blank _ _ Hafter).
    change (skipWhitespace (String ","%char ?x)) with (String ","%char x).
    cbv beta iota. rewrite Ascii.eqb_refl, Hfresh.
    rewrite (IH fuel (acc ++ [(k, v)])%list tail);
      [rewrite <- app_assoc; reflexivity | lia | discriminate
       | rewrite <- app_assoc; exact Hd | exact Hms | exact Ht
       | cbn in *; lia].
Qed.

End Step.

(** A canonical value reads back from each of its texts, whatever
    follows it. *)
Lemma parseValue_write (L : Layout) (spaced : blank L) (fuel : nat) :
  forall depth v tail,
    canonical v = true -> delimited tail = true -> size v <= fuel ->
    parseValue fuel (write L depth v tail) = Parsed v tail.
Proof.
  induction fuel as [fuel IH] using lt_wf_ind.
  intros depth v tail Hc Ht Hs.
  pose proof (size_positive v) as Hp.
  destruct fuel as [|fuel]; [lia|].
  destruct (spaced depth) as [_ [_ [_ [_ [Hclose Hinside]]]]].
  rewrite parseValue_eq.
  destruct v as [|[]|x|s|vs|ms]; try reflexivity.
  - destruct (showDecimal_head (decimalOf x) tail) as [c [r [Hd Hh]]].
    destruct (number_head_facts c Hh) as [Hv [H1 [H2 H3]]].
    destruct (startsValue_facts c Hv) as [Hw _].
    cbn [write]. pose proof (parseNumber_showDouble x tail Hc Ht) as Hn.
    rewrite Hd in *. cbn [skipWhitespace]. rewrite Hw, H1, H2, H3, Hh, Hn.
    reflexivity.
  - cbn [write]. unfold quoted.
    change (skipWhitespace (String QUOTE ?x)) with (String QUOTE x).
    cbv beta iota zeta.
    change (Ascii.eqb QUOTE "{"%char) with false.
    change (Ascii.eqb QUOTE "["%char) with false.
    cbv beta iota. rewrite Ascii.eqb_refl, parseChars_escape. reflexivity.
  - cbn [write]. fold (elementText L (S depth)).
    change (skipWhitespace (String "["%char ?x)) with (String "["%char x).
    cbv beta iota zeta.
    change (Ascii.eqb "["%char "{"%char) with false.
    change (Ascii.eqb "["%char "["%char) with true.
    cbv beta iota.
    destruct vs as [|v vs].
    { cbn [joinWith]. rewrite (skipWhitespace_blank _ _ Hinside).
      reflexivity. }
    assert (Hskip : exists c r,
               skipWhitespace
                 (joinWith (elementText L (S depth))
                    (fun t => inside L depth ++ String "]"%char t)
                    (fun t => beforeClose L depth ++ String "]"%char t)
                    (v :: vs) tail)
               = String c r /\ Ascii.eqb c "]"%char = false).
    { cbn [joinWith]. unfold elementText at 1.
      destruct (spaced (S depth)) as [Hbefore _].
      rewrite (skipWhitespace_blank _ _ Hbefore), skipWhitespace_value.
      destruct (write_head L (S depth) v
                  (afterItem L (S depth)
                   ++ match vs with
                      | [] => beforeClose L depth ++ String "]"%char tail
                      | _ :: _ =>
                          String ","%char
                            (joinWith (elementText L (S depth))
                               (fun t => inside L depth ++ String "]"%char t)
                               (fun t =>
                                  beforeClose L depth ++ String "]"%char t)
                               vs tail)
                      end)) as [c [r [Hh Hv]]].
      destruct (startsValue_facts c Hv) as [_ [Hb _]].
      exists c, r. split; [exact Hh | exact Hb]. }
    destruct Hskip as [c [r [Hskip Hb]]]. rewrite Hskip, Hb.
    apply (parseElements_join L spaced (S fuel)
             (fun f d x t Hf => IH f Hf d x t)
             (S depth) _ (beforeClose L depth) (v :: vs) Hclose
             fuel [] tail);
      [lia | discriminate | exact Hc | exact Ht | cbn in Hs |- *; lia].
  - cbn [write]. fold (memberText L (S depth)).
    change (skipWhitespace (String "{"%char ?x)) with (String "{"%char x).
    cbv beta iota zeta.
    change (Ascii.eqb "{"%char "{"%char) with true.
    cbv beta iota.
    destruct ms as [|[k v] ms].
    { cbn [joinWith]. rewrite (skipWhitespace_blank _ _ Hinside).
      reflexivity. }
    assert (Hskip : exists r,
               skipWhitespace
                 (joinWith (memberText L (S depth))
                    (fun t => inside L depth ++ String "}"%char t)
                    (fun t => beforeClose L depth ++ String "}"%char t)
                    ((k, v) :: ms) tail)
               = String QUOTE r).
    { cbn [joinWith memberText]. unfold quoted.
      destruct (spaced (S depth)) as [Hbefore _].
      rewrite (skipWhitespace_blank _ _ Hbefore).
      eexists. reflexivity. }
    destruct Hskip as [r Hskip]. rewrite Hskip.
    change (Ascii.eqb QUOTE "}"%char) with false. cbv iota.
    cbn [canonical] in Hc. apply andb_true_iff in Hc. destruct Hc as [Hd Hc].
    apply (parseMembers_join L spaced (S fuel)
             (fun f d x t Hf => IH f Hf d x t)
             (S depth) _ (beforeClose L depth) ((k, v) :: ms) Hclose
             fuel [] tail);
      [lia | discriminate | exact Hd | exact Hc | exact Ht
       | cbn in Hs |- *; lia].
Qed.

Lemma parse_more_fuel (k fuel : nat) (s : string) (R : result) :
  parseValue fuel s = R -> R <> Exhausted -> parseValue (k + fuel) s = R.
Proof.
  intros H HR. induction k as [|k IH]; [exact H|].
  apply (proj1 (parse_fuel_monotone (k + fuel))); assumption.
Qed.

(** Every text of a canonical value parses to that value, whatever white
    space it holds between its tokens. *)
Lemma parse_text (L : Layout) (v : json) :
  blank L -> canonical v = true -> parse (text L v) = Some v.
Proof.
  intros HL Hc. unfold parse.
  destruct (HL 0) as [Hbefore [Hafter _]].
  assert (Hv : parseValue (size v) (text L v)
               = Parsed v (afterItem L 0)).
  { unfold text. rewrite (parseValue_blank _ _ _ Hbefore).
    apply (parseValue_write L HL); [exact Hc | | apply le_n].
    rewrite <- (append_empty (afterItem L 0)).
    apply delimited_blank; [exact Hafter | reflexivity]. }
  pose proof (parse_never_exhausted (text L v)) as Hne.
  destruct (parseValue (fuelFor (text L v)) (text L v))
    as [v' r| |] eqn:E.
  - pose proof (parse_more_fuel (size v) _ _ _ E ltac:(discriminate)) as H1.
    pose proof (parse_more_fuel (fuelFor (text L v)) _ _ _ Hv
                  ltac:(discriminate)) as H2.
    rewrite Nat.add_comm, H2 in H1. injection H1 as <- <-.
    rewrite (skipWhitespace_all _ Hafter). reflexivity.
  - pose proof (parse_more_fuel (size v) _ _ _ E ltac:(discriminate)) as H1.
    pose proof (parse_more_fuel (fuelFor (text L v)) _ _ _ Hv
                  ltac:(discriminate)) as H2.
    rewrite Nat.add_comm, H2 in H1. discriminate.
  - contradiction.
Qed.

Lemma tight_blank : blank tight.
Proof. intros depth. repeat split. Qed.

Lemma spaces_blank (n : nat) : allWhitespace (spaces n) = true.
Proof. induction n as [|n IH]; [reflexivity | exact IH]. Qed.

Lemma indented_blank : blank indented.
Proof.
  intros depth. cbn [indented beforeItem afterItem afterKey afterColon
                     beforeClose inside].
  repeat split; try reflexivity.
  - destruct depth as [|depth]; [reflexivity|]. apply spaces_blank.
  - apply spaces_blank.
Qed.

(** The compact text of a canonical value parses to that value. *)
Lemma parse_stringify (v : json) :
  canonical v = true -> parse (stringify v) = Some v.
Proof. intros Hc. apply (parse_text tight v tight_blank Hc). Qed.

(** So does its indented text. *)
Lemma parse_indented (v : json) :
  canonical v = true -> parse (text indented v) = Some v.
Proof. apply parse_text, indented_blank. Qed.

(** Literals that are no doubles: the integer after [2^53] is rounded to
    its even neighbour, a tenth to the double next to it, a literal
    beyond every double to an infinity and one below every double to a
    zero, each with the sign of the literal. *)
Lemma parse_rounds :
  parse "9007199254740993" = Some (JNumber (Finite false (2 ^ 52) 1))
  /\ parse "9007199254740995"
     = Some (JNumber (Finite false (2 ^ 52 + 2) 1))
  /\ parse "0.1" = Some (JNumber (Finite false 7205759403792794 (-56)))
  /\ parse "1e400" = Some (JNumber (Infinity false))
  /\ parse "-1e-400" = Some (JNumber (Finite true 0 (-1074)))
  /\ parse "5e-324" = Some (JNumber (Finite false 1 (-1074)))
  /\ parse "-0" = Some (JNumber (Finite true 0 (-1074))).
Proof. repeat split; vm_compute; reflexivity. Qed.

Lemma setProperty_has (a : string) (acc : list (string * json)) (k : string)
  (v : json) :
  existsb (String.eqb a) (map fst (setProperty acc k v))
  = existsb (String.eqb a) (map fst acc) || String.eqb a k.
Proof.
  induction acc as [|[k' v'] acc IH]; cbn [setProperty map fst existsb].
  - rewrite orb_false_r. reflexivity.
  - destruct (String.eqb_spec k' k) as [-> | Hne]; cbn [map fst existsb].
    + destruct (String.eqb a k), (existsb (String.eqb a) (map fst acc));
        reflexivity.
    + rewrite IH. rewrite orb_assoc. reflexivity.
Qed.

Lemma setProperty_distinct (acc : list (string * json)) (k : string)
  (v : json) :
  distinct (map fst acc) = true ->
  distinct (map fst (setProperty acc k v)) = true.
Proof.
  induction acc as [|[k' v'] acc IH]; cbn [setProperty map fst distinct];
    [reflexivity|].
  intros H. apply andb_true_iff in H. destruct H as [Hk Hd].
  destruct (String.eqb_spec k' k) as [-> | Hne]; cbn [map fst distinct].
  - rewrite Hk, Hd. reflexivity.
  - rewrite setProperty_has, (IH Hd).
    apply negb_true_iff in Hk. rewrite Hk.
    apply String.eqb_neq in Hne. rewrite Hne. reflexivity.
Qed.

Lemma setProperty_canonical (acc : list (string * json)) (k : string)
  (v : json) :
  forallb (fun m : string * json => let (_, x) := m in canonical x) acc
  = true ->
  canonical v = true ->
  forallb (fun m : string * json => let (_, x) := m in canonical x)
          (setProperty acc k v) = true.
Proof.
  intros Hacc Hv.
  induction acc as [|[k' v'] acc IH]; cbn [setProperty forallb].
  - rewrite Hv. reflexivity.
  - cbn [forallb] in Hacc. apply andb_true_iff in Hacc.
    destruct Hacc as [Hv' Hacc].
    destruct (String.eqb k' k); cbn [forallb].
    + rewrite Hv, Hacc. reflexivity.
    + rewrite Hv', (IH Hacc). reflexivity.
Qed.

Lemma parseNumber_canonical (s : string) (x : double) (r : string) :
  parseNumber s = Some (x, r) -> normal x = true.
Proof.
  unfold parseNumber.
  destruct (numberLiteral s) as [[d r']|]; [|discriminate].
  intros [= <- _]. apply binary64_normal.
Qed.

Lemma keyword_canonical (word : string) (v v' : json) (s r : string) :
  canonical v = true -> keyword word v s = Parsed v' r -> canonical v' = true.
Proof.
  unfold keyword. intros Hv. destruct (JS.startsWith s word); [|discriminate].
  intros [= <- _]. exact Hv.
Qed.

(** Every value the parser builds is canonical. *)
Lemma parse_results_canonical (fuel : nat) :
  (forall s v r, parseValue fuel s = Parsed v r -> canonical v = true)
  /\ (forall s acc v r,
        forallb canonical acc = true ->
        parseElements fuel s acc = Parsed v r -> canonical v = true)
  /\ (forall s acc v r,
        distinct (map fst acc) = true ->
        forallb (fun m : string * json => let (_, x) := m in canonical x) acc
        = true ->
        parseMembers fuel s acc = Parsed v r -> canonical v = true).
Proof.
  induction fuel as [|fuel [IHv [IHe IHm]]];
    [repeat split; intros; discriminate|].
  split; [|split].
  - intros s v r H. cbn [parseValue] in H.
    destruct (skipWhitespace s) as [|c s0]; [discriminate|].
    destruct (Ascii.eqb c "{"%char).
    { destruct (skipWhitespace s0) as [|c' r']; [discriminate|].
      destruct (Ascii.eqb c' "}"%char); [injection H as <- _; reflexivity|].
      apply (IHm s0 [] v r eq_refl eq_refl H). }
    destruct (Ascii.eqb c "["%char).
    { destruct (skipWhitespace s0) as [|c' r']; [discriminate|].
      destruct (Ascii.eqb c' "]"%char); [injection H as <- _; reflexivity|].
      apply (IHe s0 [] v r eq_refl H). }
    destruct (Ascii.eqb c QUOTE).
    { destruct (parseChars s0) as [[str r']|]; [|discriminate].
      injection H as <- _. reflexivity. }
    destruct (Ascii.eqb c "-"%char || isDigit c).
    { destruct (parseNumber (String c s0)) as [[d r']|] eqn:En;
        [|discriminate].
      injection H as <- _. apply (parseNumber_canonical _ _ _ En). }
    destruct (Ascii.eqb c "t"%char);
      [apply (keyword_canonical "true" (JBool true) v _ r eq_refl H)|].
    destruct (Ascii.eqb c "f"%char);
      [apply (keyword_canonical "false" (JBool false) v _ r eq_refl H)|].
    destruct (Ascii.eqb c "n"%char); [|discriminate].
    apply (keyword_canonical "null" JNull v _ r eq_refl H).
  - intros s acc v r Hacc H. cbn [parseElements] in H.
    destruct (parseValue fuel s) as [v' r'| |] eqn:Ev; try discriminate.
    apply IHv in Ev.
    assert (Hacc' : forallb canonical (acc ++ [v']) = true).
    { rewrite forallb_app, Hacc. cbn. rewrite Ev. reflexivity. }
    destruct (skipWhitespace r') as [|c r'']; [discriminate|].
    destruct (Ascii.eqb c ","%char); [apply (IHe _ _ _ _ Hacc' H)|].
    destruct (Ascii.eqb c "]"%char); [|discriminate].
    injection H as <- _. exact Hacc'.
  - intros s acc v r Hd Hacc H. cbn [parseMembers] in H.
    destruct (skipWhitespace s) as [|q s0]; [discriminate|].
    destruct (Ascii.eqb q QUOTE); [|discriminate].
    destruct (parseChars s0) as [[k r1]|]; [|discriminate].
    destruct (skipWhitespace r1) as [|colon r2]; [discriminate|].
    destruct (Ascii.eqb colon ":"%char); [|discriminate].
    destruct (parseValue fuel r2) as [v' r3| |] eqn:Ev; try discriminate.
    apply IHv in Ev.
    pose proof (setProperty_distinct acc k v' Hd) as Hd'.
    pose proof (setProperty_canonical acc k v' Hacc Ev) as Hacc'.
    destruct (skipWhitespace r3) as [|c r4]; [discriminate|].
    destruct (Ascii.eqb c ","%char); [apply (IHm _ _ _ _ Hd' Hacc' H)|].
    destruct (Ascii.eqb c "}"%char); [|discriminate].
    injection H as <- _. cbn [canonical]. rewrite Hd', Hacc'. reflexivity.
Qed.

(** The values [parse] returns are the canonical ones. *)
Lemma parse_canonical (text : string) (v : json) :
  parse text = Some v -> canonical v = true.
Proof.
  unfold parse.
  destruct (parseValue (fuelFor text) text) as [v' r| |] eqn:E;
    try discriminate.
  destruct (skipWhitespace r); [|discriminate].
  intros [= <-]. apply (proj1 (parse_results_canonical _) _ _ _ E).
Qed.

End ParserFacts.

(* ===================================================================== *)
(** * Properties of the typed view                                       *)
(* ===================================================================== *)

Section TypedView.

Import JSON.






















End TypedView.

(* ===================================================================== *)
(** * Properties of the request builder                                   *)
(* ===================================================================== *)

Section RequestBuilder.

Lemma fold_push (files : list FileInput) (acc : list Part) :
  fold_left (fun parts fileInput => (parts ++ [inlinePart fileInput])%list)
            files acc
  = (acc ++ map inlinePart files)%list.
Proof.
  revert acc. induction files as [|f files IH]; intros acc; cbn.
  - rewrite app_nil_r. reflexivity.
  - rewrite IH, <- app_assoc. reflexivity.
Qed.

(** The parts are the prompt followed by the files' parts in order. *)
Lemma buildParts_shape (topic : string) (files : list FileInput) :
  buildParts topic files = TextPart (prompt topic) :: map inlinePart files.
Proof. unfold buildParts. rewrite fold_push. reflexivity. Qed.

Lemma buildParts_length (topic : string) (files : list FileInput) :
  List.length (buildParts topic files) = 1 + List.length files.
Proof. rewrite buildParts_shape. cbn. rewrite length_map. reflexivity. Qed.

Lemma buildParts_nth (topic : string) (files : list FileInput) (i : nat)
  (f : FileInput) :
  nth_error files i = Some f ->
  nth_error (buildParts topic files) (S i) = Some (inlinePart f).
Proof.
  intros H. rewrite buildParts_shape. cbn.
  rewrite nth_error_map, H. reflexivity.
Qed.

Lemma template_placeholder_position :
  JS.indexOf PROMPT_TEMPLATE PLACEHOLDER = Some 252.
Proof. vm_compute. reflexivity. Qed.

Lemma template_before :
  JS.take 252 PROMPT_TEMPLATE = PROMPT_HEAD ++ JS.dquote.
Proof. vm_compute. reflexivity. Qed.

Lemma template_after :
  JS.drop (252 + String.length PLACEHOLDER) PROMPT_TEMPLATE
  = JS.dquote ++ PROMPT_TAIL.
Proof. vm_compute. reflexivity. Qed.

Lemma append_assoc (a b c : string) : (a ++ b) ++ c = a ++ (b ++ c).
Proof. induction a as [|x a IH]; cbn; [|rewrite IH]; reflexivity. Qed.

(** The prompt in general: the replacement text goes through
    [GetSubstitution]. *)
Lemma prompt_unfold (topic : string) :
  prompt topic
  = PROMPT_HEAD ++ JS.dquote
    ++ JS.GetSubstitution PLACEHOLDER (PROMPT_HEAD ++ JS.dquote)
         (JS.dquote ++ PROMPT_TAIL) topic
    ++ JS.dquote ++ PROMPT_TAIL.
Proof.
  unfold prompt, JS.replace.
  rewrite template_placeholder_position.
  cbv zeta. rewrite template_before, template_after.
  rewrite append_assoc. reflexivity.
Qed.

(** For a topic without dollar forms the prompt is the rendered
    template. *)
Lemma prompt_plain (topic : string) :
  hasDollarPattern topic = false -> prompt topic = renderedTemplate topic.
Proof.
  intros H. rewrite prompt_unfold, (GetSubstitution_plain _ _ _ _ H).
  reflexivity.
Qed.

End RequestBuilder.

Section RequestClaims.

(** C7.  The claim asks for the template with its placeholder replaced by
    the topic text, for every topic.  [String.prototype.replace] expands
    dollar forms in its replacement text, so for the topic
    [Scenario.topicThousands] the first part of the request is not the
    rendered template: the dollar sign and the apostrophe are replaced by
    the whole remainder of the template. *)
Theorem C7_dollar_form_in_topic_is_expanded :
  buildParts Scenario.topicThousands []
  = [TextPart (prompt Scenario.topicThousands)]
  /\ prompt Scenario.topicThousands
     = PROMPT_HEAD ++ JS.dquote
       ++ "Firm revenue (US" ++ (JS.dquote ++ PROMPT_TAIL)
       ++ "000) and R&D intensity" ++ JS.dquote ++ PROMPT_TAIL
  /\ prompt Scenario.topicThousands
     <> renderedTemplate Scenario.topicThousands.
Proof.
  split; [reflexivity|]. split.
  - vm_compute. reflexivity.
  - vm_compute. discriminate.
Qed.

(** What does hold of the request for every topic and every file list:
    [1 + n] parts, the prompt first, then the files' parts in input
    order, each with the declared MIME type; and the prompt is the
    rendered template whenever the topic has no dollar form. *)
Lemma request_parts_structure (topic : string) (files : list FileInput) :
  List.length (buildParts topic files) = 1 + List.length files
  /\ nth_error (buildParts topic files) 0 = Some (TextPart (prompt topic))
  /\ (forall i f, nth_error files i = Some f ->
        nth_error (buildParts topic files) (S i)
        = Some (InlineDataPart (type (file f)) (base64Data f)))
  /\ (hasDollarPattern topic = false -> prompt topic = renderedTemplate topic).
Proof.
  split; [apply buildParts_length|].
  split; [rewrite buildParts_shape; reflexivity|].
  split; [intros i f H; apply (buildParts_nth _ _ _ _ H)|].
  apply prompt_plain.
Qed.

(** C8, as the code has it.  The core itself takes the data-URL prefix
    off: the data of a part is the text between the first and the second
    comma of the caller's string, passed on as it is. *)
Theorem C8_data_is_segment_after_first_comma
  (topic : string) (files : list FileInput) (i : nat) (f : FileInput)
  (pre payload rest : string) :
  nth_error files i = Some f ->
  JS.includes pre "," = false ->
  JS.includes payload "," = false ->
  (base64 f = pre ++ "," ++ payload
   \/ base64 f = pre ++ "," ++ payload ++ "," ++ rest) ->
  nth_error (buildParts topic files) (S i)
  = Some (InlineDataPart (type (file f)) (Some payload)).
Proof.
  intros Hf Hpre Hpay Hb.
  rewrite (buildParts_nth _ _ _ _ Hf).
  unfold inlinePart, base64Data.
  destruct Hb as [-> | ->].
  - change (pre ++ "," ++ payload) with (pre ++ String ","%char payload).
    rewrite (split_prefix _ _ _ Hpre), (split_no_separator _ _ Hpay).
    reflexivity.
  - change (pre ++ "," ++ payload ++ "," ++ rest)
      with (pre ++ String ","%char (payload ++ String ","%char rest)).
    rewrite (split_prefix _ _ _ Hpre), (split_prefix _ _ _ Hpay).
    reflexivity.
Qed.

Lemma C8_witness :
  nth_error [Scenario.dataUrlUpload] 0 = Some Scenario.dataUrlUpload
  /\ JS.includes "data:application/pdf;base64" "," = false
  /\ JS.includes "JVBERi0xLjQ=" "," = false
  /\ nth_error (buildParts Scenario.plainTopic [Scenario.dataUrlUpload]) 1
     = Some (InlineDataPart "application/pdf" (Some "JVBERi0xLjQ=")).
Proof.
  split; [reflexivity|]. split; [reflexivity|]. split; [reflexivity|].
  apply (C8_data_is_segment_after_first_comma
           Scenario.plainTopic [Scenario.dataUrlUpload] 0
           Scenario.dataUrlUpload
           "data:application/pdf;base64" "JVBERi0xLjQ=" EmptyString);
    [reflexivity | reflexivity | reflexivity | left; reflexivity].
Defined.

(** C8 as stated fails: for a data URL the part does not carry the
    caller's string but only what follows its prefix. *)
Lemma C8_counterexample :
  nth_error (buildParts Scenario.plainTopic [Scenario.dataUrlUpload]) 1
  = Some (InlineDataPart "application/pdf" (Some "JVBERi0xLjQ="))
  /\ nth_error (buildParts Scenario.plainTopic [Scenario.dataUrlUpload]) 1
     <> Some (InlineDataPart "application/pdf"
                (Some (base64 Scenario.dataUrlUpload))).
Proof.
  split; [reflexivity|]. vm_compute. discriminate.
Qed.

(** C9.  A document whose string has no comma gets a part whose data is
    undefined. *)
Theorem C9_no_comma_gives_undefined_data
  (topic : string) (files : list FileInput) (i : nat) (f : FileInput) :
  nth_error files i = Some f ->
  JS.includes (base64 f) "," = false ->
  nth_error (buildParts topic files) (S i)
  = Some (InlineDataPart (type (file f)) None).
Proof.
  intros Hf Hc. rewrite (buildParts_nth _ _ _ _ Hf).
  unfold inlinePart, base64Data.
  rewrite (split_no_separator _ _ Hc). reflexivity.
Qed.

Lemma C9_witness :
  nth_error [Scenario.dataUrlUpload; Scenario.bareUpload] 1
  = Some Scenario.bareUpload
  /\ JS.includes (base64 Scenario.bareUpload) "," = false
  /\ nth_error
       (buildParts Scenario.plainTopic
          [Scenario.dataUrlUpload; Scenario.bareUpload]) 2
     = Some (InlineDataPart "application/pdf" None).
Proof.
  split; [reflexivity|]. split; [reflexivity|].
  apply (C9_no_comma_gives_undefined_data Scenario.plainTopic
           [Scenario.dataUrlUpload; Scenario.bareUpload] 1
           Scenario.bareUpload); reflexivity.
Defined.

End RequestClaims.

(* ===================================================================== *)
(** * The retry loop                                                      *)
(* ===================================================================== *)

Section RetryLoop.

Variable w : World.
Variable p : GenerateContentParameters.

Lemma parse_empty : JSON.parse EmptyString = None.
Proof. reflexivity. Qed.

Lemma tryBlock_rejected (i : nat) (e : JS.Error) :
  generateContent w i p = Rejected e -> tryBlock w i p = inr e.
Proof. unfold tryBlock. intros ->. reflexivity. Qed.

Lemma tryBlock_no_body (i : nat) :
  generateContent w i p = Fulfilled None
  \/ generateContent w i p = Fulfilled (Some EmptyString) ->
  tryBlock w i p = inr (JS.newError "No response generated").
Proof. unfold tryBlock. intros [-> | ->]; reflexivity. Qed.

Lemma tryBlock_parsed (i : nat) (text : string) (v : JSON.json) :
  generateContent w i p = Fulfilled (Some text) ->
  JSON.parse text = Some v ->
  tryBlock w i p = inl v.
Proof.
  unfold tryBlock. intros -> Hp.
  destruct text as [|c text]; [rewrite parse_empty in Hp; discriminate|].
  rewrite Hp. reflexivity.
Qed.

Lemma tryBlock_syntax_error (i : nat) (text : string) :
  generateContent w i p = Fulfilled (Some text) ->
  text <> EmptyString ->
  JSON.parse text = None ->
  tryBlock w i p = inr (syntaxError w text).
Proof.
  unfold tryBlock. intros -> Hne Hp.
  destruct text as [|c text]; [contradiction|].
  rewrite Hp. reflexivity.
Qed.

Lemma delayMs_succ (i : nat) :
  delayMs (Z.of_nat i + 1) = (2000 * 2 ^ Z.of_nat i)%Z.
Proof. unfold delayMs. f_equal. f_equal. lia. Qed.

Lemma budget_left (i : nat) :
  (Z.of_nat i <? maxRetries)%Z = (i <? 3)%nat.
Proof.
  unfold maxRetries.
  destruct (Z.ltb_spec (Z.of_nat i) 3), (Nat.ltb_spec i 3);
    try reflexivity; lia.
Qed.

(** One iteration of the loop, by cases on the attempt. *)
Lemma retryLoop_success (fuel : nat) (attempt : Z) (i : nat) (v : JSON.json) :
  tryBlock w i p = inl v ->
  retryLoop (S fuel) w p attempt i
  = Some {| outcome := Returned v; events := [ServiceCall p] |}.
Proof. cbn [retryLoop]. intros ->. reflexivity. Qed.

Lemma retryLoop_failed (fuel : nat) (attempt : Z) (i : nat) (e : JS.Error) :
  tryBlock w i p = inr e ->
  transient e && (attempt <? maxRetries)%Z = false ->
  retryLoop (S fuel) w p attempt i
  = Some {| outcome := Thrown e;
            events := [ServiceCall p;
                       ConsoleError "Gemini Analysis Error:" e] |}.
Proof.
  cbn [retryLoop]. intros -> H. unfold transient in H. rewrite H.
  reflexivity.
Qed.

Lemma retryLoop_retry (fuel : nat) (attempt : Z) (i : nat) (e : JS.Error) :
  tryBlock w i p = inr e ->
  transient e = true ->
  (attempt < maxRetries)%Z ->
  retryLoop (S fuel) w p attempt i
  = prefixed
      [ServiceCall p;
       ConsoleWarn (warning (attempt + 1) (isQuotaError e)
                            (delayMs (attempt + 1)));
       Wait (delayMs (attempt + 1))]
      (retryLoop fuel w p (attempt + 1) (S i)).
Proof.
  cbn [retryLoop]. intros -> H Hlt. unfold transient in H. rewrite H.
  apply Z.ltb_lt in Hlt. rewrite Hlt. reflexivity.
Qed.

(** The loop ends, within the fuel of four iterations, in a run of the
    state machine. *)
Lemma retryLoop_machine (fuel i : nat) :
  1 <= fuel -> 4 <= fuel + i ->
  exists r, retryLoop fuel w p (Z.of_nat i) i = Some r /\ machine w p i r.
Proof.
  revert i. induction fuel as [|fuel IH]; intros i H1 H4; [lia|].
  destruct (tryBlock w i p) as [v|e] eqn:Ht.
  - eexists. split; [apply (retryLoop_success _ _ _ _ Ht)|].
    apply SUCCESS, Ht.
  - destruct (transient e && (Z.of_nat i <? maxRetries)%Z) eqn:Hc.
    + apply andb_true_iff in Hc. destruct Hc as [Htr Hlt].
      rewrite budget_left in Hlt. apply Nat.ltb_lt in Hlt.
      destruct (IH (S i)) as [r [Hr Hm]]; [lia | lia |].
      rewrite (retryLoop_retry _ _ _ _ Ht Htr) by (unfold maxRetries; lia).
      replace (Z.of_nat i + 1)%Z with (Z.of_nat (S i)) by lia.
      rewrite Hr. cbn [prefixed]. eexists. split; [reflexivity|].
      replace (delayMs (Z.of_nat (S i))) with (2000 * 2 ^ Z.of_nat i)%Z
        by (rewrite <- delayMs_succ; f_equal; lia).
      cbn [app]. apply (RETRY_WAIT _ _ _ _ _ Ht Htr Hlt Hm).
    + eexists. split; [apply (retryLoop_failed _ _ _ _ Ht Hc)|].
      apply FAILED; [exact Ht|].
      apply andb_false_iff in Hc. destruct Hc as [Hc|Hc]; [left; exact Hc|].
      right. rewrite budget_left in Hc. apply Nat.ltb_ge in Hc. exact Hc.
Qed.

(** What a run of the machine looks like: it makes at least one call, a
    wait goes before every call but the first, and the [k]-th attempt of
    the run decides whether the run goes on. *)
Lemma machine_run (i : nat) (r : Run) :
  machine w p i r ->
  1 <= calls r
  /\ steps r = expectedSteps i (calls r)
  /\ forall k, k < calls r ->
       match tryBlock w (i + k) p with
       | inl v => calls r = S k /\ outcome r = Returned v
       | inr e =>
           if transient e && (i + k <? 3)%nat then S k < calls r
           else calls r = S k /\ outcome r = Thrown e
       end.
Proof.
  induction 1 as [i v Ht | i e Ht Hstop | i e r Ht Htr Hlt Hm IH].
  - split; [cbn; lia|]. split; [reflexivity|].
    intros k Hk. cbn in Hk. assert (k = 0) by lia. subst k.
    rewrite Nat.add_0_r, Ht. split; reflexivity.
  - split; [cbn; lia|]. split; [reflexivity|].
    intros k Hk. cbn in Hk. assert (k = 0) by lia. subst k.
    rewrite Nat.add_0_r, Ht.
    replace (transient e && (i <? 3)%nat) with false; [split; reflexivity|].
    destruct Hstop as [-> | Hge]; [reflexivity|].
    apply Nat.ltb_ge in Hge. rewrite Hge, andb_false_r. reflexivity.
  - destruct IH as [IH1 [IH2 IH3]].
    assert (Hc : calls {| outcome := outcome r;
                          events := ServiceCall p
                            :: ConsoleWarn (warning (Z.of_nat (S i))
                                 (isQuotaError e) (2000 * 2 ^ Z.of_nat i))
                            :: Wait (2000 * 2 ^ Z.of_nat i) :: events r |}
                 = S (calls r)) by reflexivity.
    rewrite Hc. split; [lia|]. split.
    + unfold steps in *. cbn [events stepsOf]. rewrite IH2.
      unfold expectedSteps.
      replace (S (calls r) - 1) with (S (calls r - 1)) by lia.
      reflexivity.
    + intros [|k] Hk.
      * rewrite Nat.add_0_r, Ht, Htr.
        apply Nat.ltb_lt in Hlt. rewrite Hlt. cbn. lia.
      * specialize (IH3 k ltac:(lia)).
        replace (i + S k) with (S i + k) by lia.
        destruct (tryBlock w (S i + k) p) as [v|e'].
        -- cbn [outcome]. destruct IH3 as [-> ->]. split; reflexivity.
        -- destruct (transient e' && (S i + k <? 3)%nat).
           ++ lia.
           ++ cbn [outcome]. destruct IH3 as [-> ->]. split; reflexivity.
Qed.

End RetryLoop.

Section Runs.

Variable w : World.
Variable p : GenerateContentParameters.

Lemma waits_of_steps (evs : list Event) :
  waitsOf evs = stepWaits (stepsOf evs).
Proof.
  induction evs as [|[q|l|ms|l e] evs IH]; cbn; rewrite ?IH; reflexivity.
Qed.

Lemma stepWaits_retries (l : list nat) :
  stepWaits
    (flat_map (fun a => [WaitStep (2000 * 2 ^ Z.of_nat a); CallStep]) l)
  = map (fun a => (2000 * 2 ^ Z.of_nat a)%Z) l.
Proof.
  induction l as [|a l IH]; [reflexivity|].
  cbn [flat_map app stepWaits map]. rewrite IH. reflexivity.
Qed.

(** The waits of a run whose steps are the expected ones. *)
Lemma waits_expected (r : Run) (i : nat) :
  steps r = expectedSteps i (calls r) ->
  waits r = map (fun a => (2000 * 2 ^ Z.of_nat a)%Z) (seq i (calls r - 1)).
Proof.
  intros H. unfold waits. rewrite waits_of_steps.
  unfold steps in H. rewrite H. unfold expectedSteps. cbn [stepWaits].
  apply stepWaits_retries.
Qed.

(** The machine has one run from each attempt. *)
Lemma machine_deterministic (i : nat) (r1 r2 : Run) :
  machine w p i r1 -> machine w p i r2 -> r1 = r2.
Proof.
  intros H1. revert r2.
  induction H1 as [i v Ht | i e Ht Hstop | i e r Ht Htr Hlt Hm IH];
    intros r2 H2; inversion H2; subst;
    try (rewrite Ht in *; discriminate).
  - congruence.
  - congruence.
  - assert (e0 = e) by congruence. subst e0.
    destruct Hstop as [Hn | Hge]; [congruence | lia].
  - assert (e0 = e) by congruence. subst e0.
    match goal with
    | H : transient e = false \/ 3 <= i |- _ =>
        destruct H as [Hn | Hge]; [congruence | lia]
    end.
  - assert (e0 = e) by congruence. subst e0.
    match goal with
    | H : machine w p (S i) ?r' |- _ => rewrite (IH r' H)
    end.
    reflexivity.
Qed.

(** A machine run that starts within the budget makes at most four
    attempts in all and waits at most until the budget is spent. *)
Lemma machine_bounds (i : nat) (r : Run) :
  machine w p i r ->
  i <= 3 ->
  calls r + i <= 4 /\ (totalWait r + 2000 * 2 ^ Z.of_nat i <= 16000)%Z.
Proof.
  induction 1 as [i v Ht | i e Ht Hstop | i e r Ht Htr Hlt Hm IH];
    intros Hi.
  - split; [cbn; lia|]. change (totalWait _) with 0%Z.
    assert (H : (2 ^ Z.of_nat i <= 2 ^ 3)%Z)
      by (apply Z.pow_le_mono_r; lia).
    change (2 ^ 3)%Z with 8%Z in H. lia.
  - split; [cbn; lia|]. change (totalWait _) with 0%Z.
    assert (H : (2 ^ Z.of_nat i <= 2 ^ 3)%Z)
      by (apply Z.pow_le_mono_r; lia).
    change (2 ^ 3)%Z with 8%Z in H. lia.
  - destruct (IH ltac:(lia)) as [IHc IHw].
    split.
    + change (S (calls r) + i <= 4). lia.
    + change (2000 * 2 ^ Z.of_nat i + totalWait r + 2000 * 2 ^ Z.of_nat i
              <= 16000)%Z.
      replace (Z.of_nat (S i)) with (Z.of_nat i + 1)%Z in IHw by lia.
      rewrite Z.pow_add_r in IHw by lia. lia.
Qed.

End Runs.

Section Analyze.

Variable w : World.
Variable topic : string.
Variable files : list FileInput.

Let p : GenerateContentParameters := request (buildParts topic files).

(** With a key, the function is the loop from attempt 0, and it ends in
    a run of the state machine. *)
Lemma analyze_machine (fuel : nat) :
  apiKeyMissing w = false ->
  4 <= fuel ->
  exists r, analyzeArticles fuel w topic files = Some r /\ machine w p 0 r.
Proof.
  intros Hk Hf. unfold analyzeArticles. rewrite Hk.
  apply (retryLoop_machine w p fuel 0); lia.
Qed.

Lemma analyze_without_key (fuel : nat) :
  apiKeyMissing w = true ->
  analyzeArticles fuel w topic files
  = Some {| outcome :=
              Thrown (JS.newError
                        "API Key is missing in environment variables");
            events := [] |}.
Proof. intros Hk. unfold analyzeArticles. rewrite Hk. reflexivity. Qed.

(** Fuel beyond four iterations changes nothing. *)
Lemma analyze_fuel_irrelevant (fuel fuel' : nat) :
  4 <= fuel -> 4 <= fuel' ->
  analyzeArticles fuel w topic files = analyzeArticles fuel' w topic files.
Proof.
  intros H H'. destruct (apiKeyMissing w) eqn:Hk.
  - rewrite !(analyze_without_key _ Hk). reflexivity.
  - destruct (analyze_machine fuel Hk H) as [r [-> Hm]].
    destruct (analyze_machine fuel' Hk H') as [r' [-> Hm']].
    rewrite (machine_deterministic w p 0 r r' Hm Hm'). reflexivity.
Qed.

(** The attempt at which a run stops, and how. *)
Lemma run_stops_with_value (r : Run) (k : nat) (v : JSON.json) :
  machine w p 0 r ->
  tryBlock w k p = inl v ->
  k < calls r ->
  calls r = S k /\ outcome r = Returned v /\ List.length (waits r) = k.
Proof.
  intros Hm Ht Hk.
  destruct (machine_run w p 0 r Hm) as [_ [Hs Hd]].
  specialize (Hd k Hk). cbn [Nat.add] in Hd. rewrite Ht in Hd.
  destruct Hd as [Hc Ho]. split; [exact Hc|]. split; [exact Ho|].
  rewrite (waits_expected r 0 Hs), length_map, length_seq. lia.
Qed.

Lemma run_stops_with_error (r : Run) (k : nat) (e : JS.Error) :
  machine w p 0 r ->
  tryBlock w k p = inr e ->
  transient e = false \/ 3 <= k ->
  k < calls r ->
  calls r = S k /\ outcome r = Thrown e /\ List.length (waits r) = k.
Proof.
  intros Hm Ht Hstop Hk.
  destruct (machine_run w p 0 r Hm) as [_ [Hs Hd]].
  specialize (Hd k Hk). cbn [Nat.add] in Hd. rewrite Ht in Hd.
  replace (transient e && (k <? 3)%nat) with false in Hd.
  - destruct Hd as [Hc Ho]. split; [exact Hc|]. split; [exact Ho|].
    rewrite (waits_expected r 0 Hs), length_map, length_seq. lia.
  - destruct Hstop as [-> | Hge]; [reflexivity|].
    apply Nat.ltb_ge in Hge. rewrite Hge, andb_false_r. reflexivity.
Qed.

Lemma run_goes_on (r : Run) (k : nat) (e : JS.Error) :
  machine w p 0 r ->
  tryBlock w k p = inr e ->
  transient e = true ->
  k < 3 ->
  k < calls r ->
  S k < calls r.
Proof.
  intros Hm Ht Htr Hlt Hk.
  destruct (machine_run w p 0 r Hm) as [_ [_ Hd]].
  specialize (Hd k Hk). cbn [Nat.add] in Hd. rewrite Ht, Htr in Hd.
  apply Nat.ltb_lt in Hlt. rewrite Hlt in Hd. exact Hd.
Qed.

End Analyze.

(* ===================================================================== *)
(** * The claims about [analyzeArticles]                                  *)
(* ===================================================================== *)

Section Claims.

Lemma transient_quota (e : JS.Error) :
  isQuotaError e = true -> transient e = true.
Proof. unfold transient. intros ->. reflexivity. Qed.

Lemma transient_overload (e : JS.Error) :
  isServerOverload e = true -> transient e = true.
Proof. unfold transient. intros ->. apply orb_true_r. Qed.

Lemma not_transient (e : JS.Error) :
  isQuotaError e = false -> isServerOverload e = false ->
  transient e = false.
Proof. unfold transient. intros -> ->. reflexivity. Qed.

(** The test of the catch clause, on the fields of the error. *)
Lemma strictEqNumber_iff (v : JS.value) (n : Z) :
  JS.strictEqNumber v n = true <-> v = JS.number n.
Proof.
  destruct v as [|m|s]; cbn; split; intros H; try discriminate.
  - apply Z.eqb_eq in H. subst. reflexivity.
  - injection H as ->. apply Z.eqb_refl.
Qed.

Lemma transient_fields (e : JS.Error) :
  transient e = true
  <-> JS.status e = JS.number 429 \/ JS.status e = JS.number 503
      \/ JS.code e = JS.number 429
      \/ JS.messageIncludes e "429" = true
      \/ JS.messageIncludes e "503" = true.
Proof.
  unfold transient, isQuotaError, isServerOverload.
  rewrite !orb_true_iff, !strictEqNumber_iff. tauto.
Qed.

Lemma transient_status (e : JS.Error) :
  JS.status e = JS.number 429 \/ JS.status e = JS.number 503 ->
  transient e = true.
Proof. intros H. apply transient_fields. tauto. Qed.


Lemma strictEqNumber_other (v : JS.value) (n : Z) :
  v <> JS.number n -> JS.strictEqNumber v n = false.
Proof.
  destruct v as [|m|s]; intros H; try reflexivity.
  cbn. destruct (Z.eqb_spec m n); [subst; contradiction|reflexivity].
Qed.

(** A terminal cause makes the try block fail with its error, and that
    error is not transient. *)
Lemma terminalCause_tryBlock (w : World) (p : GenerateContentParameters)
  (k : nat) (e : JS.Error) :
  terminalCause w p k e -> tryBlock w k p = inr e /\ transient e = false.
Proof.
  intros [H | text H Hne Hp H4 H5 | e' H Hq Hs].
  - split; [apply tryBlock_no_body, H | reflexivity].
  - split; [apply (tryBlock_syntax_error _ _ _ _ H Hne Hp)|].
    unfold transient, isQuotaError, isServerOverload, JS.messageIncludes.
    cbn. rewrite H4, H5. reflexivity.
  - split; [apply tryBlock_rejected, H | apply not_transient; assumption].
Qed.

(** C6.  Without a key (unset or empty) the function throws its
    configuration error at once: no call, no wait, whatever the topic and
    the files. *)
Theorem C6_missing_key_throws_before_any_call
  (w : World) (topic : string) (files : list FileInput) (fuel : nat) :
  API_KEY w = None \/ API_KEY w = Some EmptyString ->
  exists r,
    analyzeArticles fuel w topic files = Some r
    /\ outcome r
       = Thrown (JS.newError "API Key is missing in environment variables")
    /\ events r = []
    /\ calls r = 0
    /\ waits r = [].
Proof.
  intros H. eexists. split.
  - apply analyze_without_key. unfold apiKeyMissing.
    destruct H as [-> | ->]; reflexivity.
  - repeat split.
Qed.

Lemma C6_witness :
  API_KEY (Scenario.withoutKey [Scenario.respond Scenario.goodPayload]) = None
  /\ exists r,
       analyzeArticles 0
         (Scenario.withoutKey [Scenario.respond Scenario.goodPayload])
         Scenario.plainTopic [Scenario.dataUrlUpload] = Some r
       /\ calls r = 0.
Proof.
  split; [reflexivity|].
  destruct (C6_missing_key_throws_before_any_call
              (Scenario.withoutKey [Scenario.respond Scenario.goodPayload])
              Scenario.plainTopic [Scenario.dataUrlUpload] 0
              (or_introl eq_refl)) as [r [Hr [_ [_ [Hc _]]]]].
  exists r. split; assumption.
Defined.



(** C2, as the code has it.  After a rejected call the run calls again
    exactly when fewer than 3 retries were made and the error has status
    429 or 503, or code 429, or a message that holds the text 429 or
    503; a call that yields no body, or a body that parses, is never
    followed by another; the waits are [2000 * 2 ^ (attempt - 1)], each
    before its retry; and two failures of status 429 followed by a
    payload give three calls, waits of 2000 and 4000, and the payload. *)
Theorem C2_retry_follows_status_code_and_message
  (w : World) (topic : string) (files : list FileInput) (fuel : nat) :
  apiKeyMissing w = false ->
  4 <= fuel ->
  exists r,
    analyzeArticles fuel w topic files = Some r
    /\ (forall k e,
          k < calls r ->
          generateContent w k (request (buildParts topic files))
          = Rejected e ->
          (S k < calls r
           <-> k < 3
               /\ (JS.status e = JS.number 429
                   \/ JS.status e = JS.number 503
                   \/ JS.code e = JS.number 429
                   \/ JS.messageIncludes e "429" = true
                   \/ JS.messageIncludes e "503" = true)))
    /\ (forall k,
          k < calls r ->
          generateContent w k (request (buildParts topic files))
          = Fulfilled None
          \/ generateContent w k (request (buildParts topic files))
             = Fulfilled (Some EmptyString) ->
          calls r = S k)
    /\ (forall k text v,
          k < calls r ->
          generateContent w k (request (buildParts topic files))
          = Fulfilled (Some text) ->
          JSON.parse text = Some v ->
          calls r = S k /\ outcome r = Returned v)
    /\ steps r = expectedSteps 0 (calls r)
    /\ waits r
       = map (fun k => (2000 * 2 ^ Z.of_nat k)%Z) (seq 0 (calls r - 1))
    /\ (forall e1 e2 text v,
          generateContent w 0 (request (buildParts topic files))
          = Rejected e1 ->
          JS.status e1 = JS.number 429 ->
          generateContent w 1 (request (buildParts topic files))
          = Rejected e2 ->
          JS.status e2 = JS.number 429 ->
          generateContent w 2 (request (buildParts topic files))
          = Fulfilled (Some text) ->
          JSON.parse text = Some v ->
          outcome r = Returned v
          /\ calls r = 3
          /\ steps r
             = [CallStep; WaitStep 2000; CallStep; WaitStep 4000; CallStep]).
Proof.
  intros Hk Hf. set (p := request (buildParts topic files)).
  destruct (analyze_machine w topic files fuel Hk Hf) as [r [Hr Hm]].
  fold p in Hm.
  destruct (machine_run w p 0 r Hm) as [H1 [Hs Hd]].
  exists r. split; [exact Hr|].
  split; [|split; [|split; [|split; [exact Hs|split]]]].
  - intros k e Hlt Hg. specialize (Hd k Hlt). cbn [Nat.add] in Hd.
    rewrite (tryBlock_rejected w p k e Hg) in Hd.
    rewrite <- transient_fields. split.
    + intros Hmore. destruct (transient e); cbn [andb] in Hd; [|lia].
      destruct (Nat.ltb_spec k 3); [auto|lia].
    + intros [Hk3 Htr]. rewrite Htr in Hd.
      apply Nat.ltb_lt in Hk3. rewrite Hk3 in Hd. exact Hd.
  - intros k Hlt Hg.
    apply (run_stops_with_error w topic files r k _ Hm
             (tryBlock_no_body w p k Hg) (or_introl eq_refl) Hlt).
  - intros k text v Hlt Hg Hp.
    destruct (run_stops_with_value w topic files r k v Hm
                (tryBlock_parsed w p k text v Hg Hp) Hlt) as [Hc [Ho _]].
    auto.
  - apply (waits_expected r 0 Hs).
  - intros e1 e2 text v G0 Q1 G1 Q2 G2 Hp.
    pose proof (tryBlock_rejected w p 0 e1 G0) as T0.
    pose proof (tryBlock_rejected w p 1 e2 G1) as T1.
    pose proof (tryBlock_parsed w p 2 text v G2 Hp) as T2.
    assert (C1 : 1 < calls r)
      by (apply (run_goes_on w topic files r 0 e1 Hm T0
                   (transient_status _ (or_introl Q1))); lia).
    assert (C2 : 2 < calls r)
      by (apply (run_goes_on w topic files r 1 e2 Hm T1
                   (transient_status _ (or_introl Q2))); lia).
    destruct (run_stops_with_value w topic files r 2 v Hm T2 C2)
      as [Hc [Ho _]].
    split; [exact Ho|]. split; [exact Hc|].
    rewrite Hs, Hc. reflexivity.
Qed.

Lemma C2_witness :
  exists r,
    analyzeArticles 4
      (Scenario.scripted
         [Rejected Scenario.quotaError; Rejected Scenario.quotaError;
          Scenario.respond Scenario.goodPayload])
      Scenario.plainTopic [Scenario.dataUrlUpload] = Some r
    /\ outcome r = Returned Scenario.goodPayload
    /\ calls r = 3
    /\ waits r = [2000; 4000]%Z.
Proof.
  destruct (C2_retry_follows_status_code_and_message
              (Scenario.scripted
                 [Rejected Scenario.quotaError; Rejected Scenario.quotaError;
                  Scenario.respond Scenario.goodPayload])
              Scenario.plainTopic [Scenario.dataUrlUpload] 4
              eq_refl (le_n 4)) as [r [Hr [_ [_ [_ [_ [Hw Hsc]]]]]]].
  destruct (Hsc Scenario.quotaError Scenario.quotaError
              (JSON.stringify Scenario.goodPayload) Scenario.goodPayload
              eq_refl eq_refl eq_refl eq_refl eq_refl
              ltac:(vm_compute; reflexivity)) as [Ho [Hc _]].
  exists r. split; [exact Hr|]. split; [exact Ho|]. split; [exact Hc|].
  rewrite Hw, Hc. reflexivity.
Defined.

(** C2 as stated fails: the run also retries after a failure that is
    neither of the two classes.  A request refused with HTTP status 400
    is tried again, as a quota error, because the token count in its
    message holds the digits 429. *)
Lemma C2_counterexample :
  JS.status Scenario.tokenLimitError = JS.number 400
  /\ JS.code Scenario.tokenLimitError = JS.undefined
  /\ JS.message Scenario.tokenLimitError
     = Some "The input token count (1429034) exceeds the maximum number of tokens allowed (1048576)."
  /\ analyzeArticles 4
       (Scenario.scripted
          [Rejected Scenario.tokenLimitError;
           Scenario.respond Scenario.goodPayload])
       Scenario.plainTopic [Scenario.dataUrlUpload]
     = Some {| outcome := Returned Scenario.goodPayload;
               events :=
                 [ServiceCall
                    (request (buildParts Scenario.plainTopic
                                [Scenario.dataUrlUpload]));
                  ConsoleWarn
                    "Attempt 1 failed with quota error. Retrying in 2000ms...";
                  Wait 2000;
                  ServiceCall
                    (request (buildParts Scenario.plainTopic
                                [Scenario.dataUrlUpload]))] |}.
Proof.
  repeat (split; [reflexivity|]). vm_compute. reflexivity.
Qed.

(** C3.  Every run ends after at most 4 calls and at most 14 seconds of
    waiting; when each of the four attempts is rejected with status 429
    or status 503, the run makes exactly 4 calls with waits of 2000, 4000
    and 8000 between them and throws the error of the fourth. *)
Theorem C3_at_most_four_calls
  (w : World) (topic : string) (files : list FileInput) (fuel : nat) :
  4 <= fuel ->
  exists r,
    analyzeArticles fuel w topic files = Some r
    /\ calls r <= 4
    /\ (totalWait r <= 14000)%Z
    /\ (apiKeyMissing w = false ->
        forall e0 e1 e2 e3,
          generateContent w 0 (request (buildParts topic files))
          = Rejected e0 ->
          generateContent w 1 (request (buildParts topic files))
          = Rejected e1 ->
          generateContent w 2 (request (buildParts topic files))
          = Rejected e2 ->
          generateContent w 3 (request (buildParts topic files))
          = Rejected e3 ->
          JS.status e0 = JS.number 429 \/ JS.status e0 = JS.number 503 ->
          JS.status e1 = JS.number 429 \/ JS.status e1 = JS.number 503 ->
          JS.status e2 = JS.number 429 \/ JS.status e2 = JS.number 503 ->
          JS.status e3 = JS.number 429 \/ JS.status e3 = JS.number 503 ->
          calls r = 4
          /\ steps r
             = [CallStep; WaitStep 2000; CallStep; WaitStep 4000;
                CallStep; WaitStep 8000; CallStep]
          /\ waits r = [2000; 4000; 8000]%Z
          /\ totalWait r = 14000%Z
          /\ outcome r = Thrown e3).
Proof.
  intros Hf. set (p := request (buildParts topic files)).
  destruct (apiKeyMissing w) eqn:Hk.
  - eexists. split; [apply (analyze_without_key _ _ _ _ Hk)|].
    split; [cbn; lia|]. split; [cbn; lia|]. discriminate.
  - destruct (analyze_machine w topic files fuel Hk Hf) as [r [Hr Hm]].
    fold p in Hm.
    destruct (machine_bounds w p 0 r Hm ltac:(lia)) as [Hc Hw].
    exists r. split; [exact Hr|]. split; [lia|].
    split; [change (2000 * 2 ^ Z.of_nat 0)%Z with 2000%Z in Hw; lia|].
    intros _ e0 e1 e2 e3 G0 G1 G2 G3 S0 S1 S2 S3.
    pose proof (transient_status _ S0) as T0.
    pose proof (transient_status _ S1) as T1.
    pose proof (transient_status _ S2) as T2.
    pose proof (tryBlock_rejected w p 0 e0 G0) as B0.
    pose proof (tryBlock_rejected w p 1 e1 G1) as B1.
    pose proof (tryBlock_rejected w p 2 e2 G2) as B2.
    pose proof (tryBlock_rejected w p 3 e3 G3) as B3.
    destruct (machine_run w p 0 r Hm) as [H1 [Hs _]].
    assert (C1 : 1 < calls r)
      by (apply (run_goes_on w topic files r 0 e0 Hm B0 T0); lia).
    assert (C2 : 2 < calls r)
      by (apply (run_goes_on w topic files r 1 e1 Hm B1 T1); lia).
    assert (C3 : 3 < calls r)
      by (apply (run_goes_on w topic files r 2 e2 Hm B2 T2); lia).
    destruct (run_stops_with_error w topic files r 3 e3 Hm B3
                (or_intror (le_n 3)) C3) as [Hn [Ho _]].
    split; [exact Hn|].
    split; [rewrite Hs, Hn; reflexivity|].
    assert (Hwaits : waits r = [2000; 4000; 8000]%Z)
      by (rewrite (waits_expected r 0 Hs), Hn; reflexivity).
    split; [exact Hwaits|].
    split; [unfold totalWait; rewrite Hwaits; reflexivity|exact Ho].
Qed.

Lemma C3_witness :
  exists r,
    analyzeArticles 7
      (Scenario.scripted
         [Rejected Scenario.quotaError; Rejected Scenario.overloadError;
          Rejected Scenario.overloadError; Rejected Scenario.quotaError;
          Scenario.respond Scenario.goodPayload])
      Scenario.plainTopic [Scenario.dataUrlUpload] = Some r
    /\ calls r = 4
    /\ waits r = [2000; 4000; 8000]%Z
    /\ outcome r = Thrown Scenario.quotaError.
Proof.
  destruct (C3_at_most_four_calls
              (Scenario.scripted
                 [Rejected Scenario.quotaError;
                  Rejected Scenario.overloadError;
                  Rejected Scenario.overloadError;
                  Rejected Scenario.quotaError;
                  Scenario.respond Scenario.goodPayload])
              Scenario.plainTopic [Scenario.dataUrlUpload] 7
              ltac:(lia)) as [r [Hr [_ [_ Hsc]]]].
  destruct (Hsc eq_refl Scenario.quotaError Scenario.overloadError
              Scenario.overloadError Scenario.quotaError
              eq_refl eq_refl eq_refl eq_refl
              (or_introl eq_refl) (or_intror eq_refl)
              (or_intror eq_refl) (or_introl eq_refl))
    as [Hc [_ [Hw [_ Ho]]]].
  exists r. repeat split; assumption.
Defined.

(** An object without one of its required keys does not conform. *)
Lemma conforms_required_missing
  (properties : list (string * Schema)) (required : list string)
  (members : list (string * JSON.json)) (k : string) :
  In k required ->
  JSON.getProperty members k = None ->
  conforms (OBJECT properties required) (JSON.JObject members) = false.
Proof.
  intros Hin Hk. cbn [conforms]. apply andb_false_iff. left.
  destruct (forallb (fun k0 => isSome (JSON.getProperty members k0)) required)
    eqn:Hall; [|reflexivity].
  rewrite forallb_forall in Hall. specialize (Hall k Hin).
  rewrite Hk in Hall. discriminate.
Qed.

(** An object one of whose declared properties does not conform does not
    conform. *)
Lemma conforms_property_fails
  (properties : list (string * Schema)) (required : list string)
  (members : list (string * JSON.json)) (k : string) (sub : Schema)
  (x : JSON.json) :
  In (k, sub) properties ->
  JSON.getProperty members k = Some x ->
  conforms sub x = false ->
  conforms (OBJECT properties required) (JSON.JObject members) = false.
Proof.
  intros Hin Hk Hx. cbn [conforms]. apply andb_false_iff. right.
  induction properties as [|[k' sub'] properties IH]; [contradiction|].
  destruct Hin as [Heq | Hin].
  - injection Heq as -> ->. rewrite Hk, Hx. reflexivity.
  - rewrite (IH Hin). apply andb_false_r.
Qed.

(** A payload whose summary table holds a row without [utility] does
    not have the declared shape. *)
Lemma row_without_utility_not_conforming
  (members : list (string * JSON.json)) (rows : list JSON.json)
  (fields : list (string * JSON.json)) :
  JSON.getProperty members "summaryTable" = Some (JSON.JArray rows) ->
  In (JSON.JObject fields) rows ->
  JSON.getProperty fields "utility" = None ->
  conforms responseSchema (JSON.JObject members) = false.
Proof.
  intros Hst Hin Hu.
  apply (conforms_property_fails _ _ _ "summaryTable"
           (ARRAY summaryRowSchema) (JSON.JArray rows));
    [cbn; auto | exact Hst |].
  change (forallb (conforms summaryRowSchema) rows = false).
  destruct (forallb (conforms summaryRowSchema) rows) eqn:Hall;
    [|reflexivity].
  rewrite forallb_forall in Hall. specialize (Hall _ Hin).
  unfold summaryRowSchema in Hall.
  rewrite (conforms_required_missing _ _ _ "utility") in Hall;
    [discriminate | cbn; auto | exact Hu].
Qed.

(** C1, as the code has it.  A response that parses as JSON is returned
    as it is, also when it lacks a required field of the declared shape;
    the run ends with that attempt, without a further call or wait. *)
Theorem C1_payload_without_required_field_is_returned
  (w : World) (topic : string) (files : list FileInput) (fuel k : nat)
  (text : string) (v : JSON.json) :
  apiKeyMissing w = false ->
  4 <= fuel ->
  generateContent w k (request (buildParts topic files))
  = Fulfilled (Some text) ->
  JSON.parse text = Some v ->
  conforms responseSchema v = false ->
  exists r,
    analyzeArticles fuel w topic files = Some r
    /\ (k < calls r ->
        outcome r = Returned v
        /\ calls r = S k
        /\ List.length (waits r) = k).
Proof.
  intros Hk Hf Hg Hp _.
  destruct (analyze_machine w topic files fuel Hk Hf) as [r [Hr Hm]].
  exists r. split; [exact Hr|]. intros Hlt.
  destruct (run_stops_with_value w topic files r k v Hm
              (tryBlock_parsed _ _ _ _ _ Hg Hp) Hlt) as [Hc [Ho Hw]].
  auto.
Qed.

Lemma C1_witness :
  conforms responseSchema Scenario.payloadWithoutUtility = false
  /\ exists r,
       analyzeArticles 4
         (Scenario.scripted [Scenario.respond Scenario.payloadWithoutUtility])
         Scenario.plainTopic [Scenario.dataUrlUpload] = Some r
       /\ outcome r = Returned Scenario.payloadWithoutUtility
       /\ calls r = 1.
Proof.
  split; [reflexivity|].
  destruct (C1_payload_without_required_field_is_returned
              (Scenario.scripted
                 [Scenario.respond Scenario.payloadWithoutUtility])
              Scenario.plainTopic [Scenario.dataUrlUpload] 4 0
              (JSON.stringify Scenario.payloadWithoutUtility)
              Scenario.payloadWithoutUtility
              eq_refl (le_n 4) eq_refl
              ltac:(vm_compute; reflexivity) eq_refl) as [r [Hr Hrun]].
  exists r. split; [exact Hr|].
  assert (Hlt : 0 < calls r).
  { vm_compute in Hr. injection Hr as <-. vm_compute. lia. }
  destruct (Hrun Hlt) as [Ho [Hc _]]. split; assumption.
Defined.

(** C1 as stated fails: the response below parses as JSON, its only
    summary row has no [utility], and the function returns it instead of
    throwing. *)
Lemma C1_counterexample :
  JSON.parse (JSON.stringify Scenario.payloadWithoutUtility)
  = Some Scenario.payloadWithoutUtility
  /\ conforms responseSchema Scenario.payloadWithoutUtility = false
  /\ analyzeArticles 4
       (Scenario.scripted [Scenario.respond Scenario.payloadWithoutUtility])
       Scenario.plainTopic [Scenario.dataUrlUpload]
     = Some {| outcome := Returned Scenario.payloadWithoutUtility;
               events :=
                 [ServiceCall
                    (request (buildParts Scenario.plainTopic
                                [Scenario.dataUrlUpload]))] |}.
Proof.
  split; [vm_compute; reflexivity|].
  split; [reflexivity|]. vm_compute. reflexivity.
Qed.

(** C4, as the code has it.  When the attempt with index [k] fails for a
    terminal cause (no body, a body that is not JSON, a rejection that
    matches neither transient class), the run ends with that attempt: no
    further call, no wait after it, and the error thrown is that very
    error. *)
Theorem C4_terminal_failure_is_rethrown_at_once
  (w : World) (topic : string) (files : list FileInput) (fuel k : nat)
  (e : JS.Error) :
  apiKeyMissing w = false ->
  4 <= fuel ->
  terminalCause w (request (buildParts topic files)) k e ->
  exists r,
    analyzeArticles fuel w topic files = Some r
    /\ (k < calls r ->
        outcome r = Thrown e
        /\ calls r = S k
        /\ List.length (waits r) = k).
Proof.
  intros Hk Hf Hcause.
  destruct (terminalCause_tryBlock _ _ _ _ Hcause) as [Ht Hn].
  destruct (analyze_machine w topic files fuel Hk Hf) as [r [Hr Hm]].
  exists r. split; [exact Hr|]. intros Hlt.
  destruct (run_stops_with_error w topic files r k e Hm Ht
              (or_introl Hn) Hlt) as [Hc [Ho Hw]].
  auto.
Qed.

Lemma C4_witness :
  exists r,
    analyzeArticles 4
      (Scenario.scripted
         [Rejected Scenario.authError; Scenario.respond Scenario.goodPayload])
      Scenario.plainTopic [Scenario.dataUrlUpload] = Some r
    /\ outcome r = Thrown Scenario.authError
    /\ calls r = 1
    /\ waits r = [].
Proof.
  destruct (C4_terminal_failure_is_rethrown_at_once
              (Scenario.scripted
                 [Rejected Scenario.authError;
                  Scenario.respond Scenario.goodPayload])
              Scenario.plainTopic [Scenario.dataUrlUpload] 4 0
              Scenario.authError eq_refl (le_n 4)
              (NotTransient
                 (Scenario.scripted
                    [Rejected Scenario.authError;
                     Scenario.respond Scenario.goodPayload])
                 (request (buildParts Scenario.plainTopic
                             [Scenario.dataUrlUpload]))
                 0 Scenario.authError eq_refl eq_refl eq_refl))
    as [r [Hr Hrun]].
  exists r. split; [exact Hr|].
  assert (Hlt : 0 < calls r).
  { vm_compute in Hr. injection Hr as <-. vm_compute. lia. }
  destruct (Hrun Hlt) as [Ho [Hc Hw]].
  split; [exact Ho|]. split; [exact Hc|].
  destruct (waits r); [reflexivity|discriminate].
Defined.

(** C4 as stated fails: a body that is JSON but not of the declared
    structure does not make the run fail; it is returned. *)
Lemma C4_counterexample :
  JSON.parse (JSON.stringify (JSON.JObject [])) = Some (JSON.JObject [])
  /\ conforms responseSchema (JSON.JObject []) = false
  /\ analyzeArticles 4
       (Scenario.scripted [Scenario.respond (JSON.JObject [])])
       Scenario.plainTopic [Scenario.dataUrlUpload]
     = Some {| outcome := Returned (JSON.JObject []);
               events :=
                 [ServiceCall
                    (request (buildParts Scenario.plainTopic
                                [Scenario.dataUrlUpload]))] |}.
Proof.
  split; [reflexivity|]. split; [reflexivity|]. vm_compute. reflexivity.
Qed.

(** The catch clause reads the message of a [SyntaxError] like any
    other: a body that is not JSON is retried when the engine's wording
    of the error holds the text 429. *)
Lemma syntax_error_worded_like_quota_is_retried :
  JSON.parse Scenario.truncatedBody = None
  /\ syntaxErrorMessage
       (Scenario.positionWording
          [Fulfilled (Some Scenario.truncatedBody);
           Scenario.respond Scenario.goodPayload])
       Scenario.truncatedBody
     = "Unterminated string in JSON at position 4291"
  /\ exists r,
       analyzeArticles 4
         (Scenario.positionWording
            [Fulfilled (Some Scenario.truncatedBody);
             Scenario.respond Scenario.goodPayload])
         Scenario.plainTopic [Scenario.dataUrlUpload] = Some r
       /\ outcome r = Returned Scenario.goodPayload
       /\ calls r = 2
       /\ waits r = [2000%Z].
Proof.
  split; [vm_compute; reflexivity|]. split; [vm_compute; reflexivity|].
  eexists. split; [vm_compute; reflexivity|].
  repeat split.
Qed.

(** C10, as the code has it.  A [code] of 429 alone makes a quota error,
    which is retried while the budget lasts; a [code] of 503 is never
    looked at, so that such an error is thrown at once when neither its
    status nor its message matches one of the two classes. *)
Theorem C10_code_field_counts_for_429_only
  (w : World) (topic : string) (files : list FileInput) (fuel : nat) :
  apiKeyMissing w = false ->
  4 <= fuel ->
  (forall e, JS.code e = JS.number 429 -> isQuotaError e = true)
  /\ (forall e,
        JS.code e = JS.number 503 ->
        JS.status e <> JS.number 503 ->
        JS.messageIncludes e "503" = false ->
        isServerOverload e = false)
  /\ exists r,
       analyzeArticles fuel w topic files = Some r
       /\ (forall k e,
             generateContent w k (request (buildParts topic files))
             = Rejected e ->
             JS.code e = JS.number 429 ->
             k < 3 ->
             k < calls r ->
             S k < calls r
             /\ nth_error (waits r) k = Some (2000 * 2 ^ Z.of_nat k)%Z)
       /\ (forall k e,
             generateContent w k (request (buildParts topic files))
             = Rejected e ->
             JS.code e = JS.number 503 ->
             JS.status e <> JS.number 503 ->
             JS.status e <> JS.number 429 ->
             JS.messageIncludes e "503" = false ->
             JS.messageIncludes e "429" = false ->
             k < calls r ->
             outcome r = Thrown e
             /\ calls r = S k
             /\ List.length (waits r) = k).
Proof.
  intros Hk Hf.
  assert (Q : forall e, JS.code e = JS.number 429 -> isQuotaError e = true).
  { intros e Hc. unfold isQuotaError. rewrite Hc. cbn.
    rewrite !orb_true_r. reflexivity. }
  assert (O : forall e, JS.status e <> JS.number 503 ->
                        JS.messageIncludes e "503" = false ->
                        isServerOverload e = false).
  { intros e Hs Hm. unfold isServerOverload.
    rewrite Hm, (strictEqNumber_other _ _ Hs). reflexivity. }
  split; [exact Q|]. split; [intros e _; apply O|].
  destruct (analyze_machine w topic files fuel Hk Hf) as [r [Hr Hm]].
  exists r. split; [exact Hr|]. split.
  - intros k e Hg Hc Hk3 Hlt.
    pose proof (run_goes_on w topic files r k e Hm
                  (tryBlock_rejected _ _ _ _ Hg)
                  (transient_quota _ (Q e Hc)) Hk3 Hlt) as Hmore.
    split; [exact Hmore|].
    destruct (machine_run w _ 0 r Hm) as [_ [Hs _]].
    rewrite (waits_expected r 0 Hs).
    rewrite nth_error_map, nth_error_seq.
    destruct (Nat.ltb_spec k (calls r - 1)); [reflexivity|lia].
  - intros k e Hg Hc Hs3 Hs9 Hm3 Hm9 Hlt.
    assert (Hn : transient e = false).
    { apply not_transient; [|apply (O e Hs3 Hm3)].
      unfold isQuotaError.
      rewrite Hm9, (strictEqNumber_other _ _ Hs9), Hc. reflexivity. }
    destruct (run_stops_with_error w topic files r k e Hm
                (tryBlock_rejected _ _ _ _ Hg) (or_introl Hn) Hlt)
      as [Hcalls [Ho Hw]].
    auto.
Qed.

Lemma C10_witness :
  exists r,
    analyzeArticles 4
      (Scenario.scripted
         [Rejected Scenario.code429Error; Rejected Scenario.code503Error;
          Scenario.respond Scenario.goodPayload])
      Scenario.plainTopic [Scenario.dataUrlUpload] = Some r
    /\ outcome r = Thrown Scenario.code503Error
    /\ calls r = 2
    /\ nth_error (waits r) 0 = Some 2000%Z.
Proof.
  destruct (C10_code_field_counts_for_429_only
              (Scenario.scripted
                 [Rejected Scenario.code429Error;
                  Rejected Scenario.code503Error;
                  Scenario.respond Scenario.goodPayload])
              Scenario.plainTopic [Scenario.dataUrlUpload] 4
              eq_refl (le_n 4)) as [_ [_ [r [Hr [H429 H503]]]]].
  exists r. split; [exact Hr|].
  assert (Hlt : 0 < calls r).
  { vm_compute in Hr. injection Hr as <-. vm_compute. lia. }
  destruct (H429 0 Scenario.code429Error eq_refl eq_refl
              ltac:(lia) Hlt) as [Hmore Hwait].
  destruct (H503 1 Scenario.code503Error eq_refl eq_refl
              ltac:(discriminate) ltac:(discriminate) eq_refl eq_refl
              Hmore) as [Ho [Hc _]].
  split; [exact Ho|]. split; [exact Hc|exact Hwait].
Defined.

(** C10 as stated fails in its second half: an error with [code] 503, no
    status and a message without the text 503 is still retried when its
    message holds the text 429. *)
Lemma C10_counterexample :
  JS.code Scenario.code503TraceError = JS.number 503
  /\ JS.status Scenario.code503TraceError = JS.undefined
  /\ JS.messageIncludes Scenario.code503TraceError "503" = false
  /\ isServerOverload Scenario.code503TraceError = false
  /\ analyzeArticles 4
       (Scenario.scripted
          [Rejected Scenario.code503TraceError;
           Scenario.respond Scenario.goodPayload])
       Scenario.plainTopic [Scenario.dataUrlUpload]
     = Some {| outcome := Returned Scenario.goodPayload;
               events :=
                 [ServiceCall
                    (request (buildParts Scenario.plainTopic
                                [Scenario.dataUrlUpload]));
                  ConsoleWarn
                    "Attempt 1 failed with quota error. Retrying in 2000ms...";
                  Wait 2000;
                  ServiceCall
                    (request (buildParts Scenario.plainTopic
                                [Scenario.dataUrlUpload]))] |}.
Proof.
  repeat (split; [reflexivity|]). vm_compute. reflexivity.
Qed.

End Claims.

(* ===================================================================== *)
(** * Further properties: the request, the log, and the components       *)
(* ===================================================================== *)

Section ServiceExtras.

(** Every segment [split] yields is free of the separator. *)
Lemma split_segments_clean (sep : ascii) (s : string) :
  Forall (fun seg => JS.includes seg (String sep EmptyString) = false)
         (JS.split sep s).
Proof.
  induction s as [|c s IH]; cbn [JS.split].
  - constructor; [reflexivity|constructor].
  - destruct (Ascii.eqb c sep) eqn:Hc.
    + constructor; [reflexivity|exact IH].
    + destruct (JS.split sep s) as [|seg segs]; [constructor; [|constructor]|].
      * unfold JS.includes. cbn. rewrite Ascii.eqb_sym, Hc. reflexivity.
      * inversion IH as [|? ? Hseg Hsegs]; subst. constructor; [|exact Hsegs].
        unfold JS.includes in *. cbn [JS.indexOf JS.startsWith].
        rewrite Ascii.eqb_sym, Hc. cbn [andb].
        destruct (JS.indexOf seg (String sep EmptyString)); [discriminate|].
        reflexivity.
Qed.

(** X1.  The parts of a request, for every topic and every file list:
    one part more than there are files; first the text of the template
    with its head and its tail around what stands for the topic, which
    is the topic itself when it holds no dollar form; then one part for
    each file, in the order of the input, with the type of the file and
    the second comma-separated segment of its string; nothing after
    them. *)
Theorem request_has_prompt_then_files_in_order
  (topic : string) (files : list FileInput) :
  List.length (buildParts topic files) = 1 + List.length files
  /\ (exists middle,
        nth_error (buildParts topic files) 0
        = Some (TextPart (PROMPT_HEAD ++ JS.dquote ++ middle
                          ++ JS.dquote ++ PROMPT_TAIL))
        /\ (hasDollarPattern topic = false -> middle = topic))
  /\ (forall i f, nth_error files i = Some f ->
        nth_error (buildParts topic files) (S i)
        = Some (InlineDataPart (type (file f))
                  (nth_error (JS.split ","%char (base64 f)) 1)))
  /\ (forall i, List.length files <= i ->
        nth_error (buildParts topic files) (S i) = None).
Proof.
  split; [apply buildParts_length|]. split; [|split].
  - eexists. split.
    + rewrite buildParts_shape. cbn [nth_error]. rewrite prompt_unfold.
      reflexivity.
    + intros H. apply (GetSubstitution_plain _ _ _ _ H).
  - intros i f H. apply (buildParts_nth _ _ _ _ H).
  - intros i H. apply nth_error_None. rewrite buildParts_length. lia.
Qed.

Lemma request_has_prompt_then_files_in_order_witness :
  exists middle,
    nth_error (buildParts Scenario.plainTopic
                 [Scenario.dataUrlUpload; Scenario.bareUpload]) 0
    = Some (TextPart (PROMPT_HEAD ++ JS.dquote ++ middle
                      ++ JS.dquote ++ PROMPT_TAIL))
    /\ middle = Scenario.plainTopic.
Proof.
  destruct (request_has_prompt_then_files_in_order Scenario.plainTopic
              [Scenario.dataUrlUpload; Scenario.bareUpload])
    as [_ [[middle [H1 H2]] _]].
  exists middle. split; [exact H1|]. apply H2. reflexivity.
Defined.

(** X2.  Whatever the caller passes as the string of a file, the data
    of a part of the request, when it is defined, holds no comma. *)
Theorem inline_data_never_holds_a_comma
  (topic : string) (files : list FileInput) (i : nat) (mime data : string) :
  nth_error (buildParts topic files) i
  = Some (InlineDataPart mime (Some data)) ->
  JS.includes data "," = false.
Proof.
  rewrite buildParts_shape. destruct i as [|i]; [discriminate|].
  cbn [nth_error]. rewrite nth_error_map.
  destruct (nth_error files i) as [f|]; [|discriminate].
  cbn [option_map]. unfold inlinePart, base64Data.
  pose proof (split_segments_clean ","%char (base64 f)) as Hall.
  destruct (JS.split ","%char (base64 f)) as [|a [|b l]];
    cbn [nth_error]; try discriminate.
  intros [= _ <-].
  inversion Hall as [|? ? _ Hrest]; subst.
  inversion Hrest as [|? ? Hb _]; subst. exact Hb.
Qed.

Lemma inline_data_never_holds_a_comma_witness :
  JS.includes "JVBERi0xLjQ=" "," = false.
Proof.
  apply (inline_data_never_holds_a_comma Scenario.plainTopic
           [{| file := Scenario.pdf;
               base64 := "data:application/pdf;base64,JVBERi0xLjQ=,more" |}]
           1 "application/pdf" "JVBERi0xLjQ=").
  reflexivity.
Defined.

(** Along a run of the machine every call carries the same request,
    each wait has its warning, and an error is logged once, when it is
    thrown. *)
Lemma machine_log (w : World) (p : GenerateContentParameters) (i : nat)
  (r : Run) :
  machine w p i r ->
  RunLog.requestsOf (events r) = repeat p (calls r)
  /\ List.length (RunLog.warningsOf (events r)) = List.length (waits r)
  /\ RunLog.errorLogsOf (events r) = RunLog.thrownBy r.
Proof.
  induction 1 as [i v Ht | i e Ht Hstop | i e r Ht Htr Hlt Hm IH].
  - repeat split.
  - repeat split.
  - destruct IH as [IH1 [IH2 IH3]].
    unfold waits, calls, RunLog.thrownBy in *.
    cbn [events outcome RunLog.requestsOf RunLog.warningsOf
         RunLog.errorLogsOf waitsOf filter isCall List.length repeat].
    rewrite IH1, IH2, IH3. repeat split.
Qed.

(** X3.  What a run of [analyzeArticles] logs.  Every call of the
    service carries the same request, built once before the loop; each
    wait is announced by one warning; with a key, the error the run
    throws is written to [console.error] once and nothing is written
    when it returns, and without a key the configuration error is thrown
    without being logged. *)
Theorem run_sends_one_request_and_logs_each_step
  (w : World) (topic : string) (files : list FileInput) (fuel : nat) :
  4 <= fuel ->
  exists r,
    analyzeArticles fuel w topic files = Some r
    /\ RunLog.requestsOf (events r)
       = repeat (request (buildParts topic files)) (calls r)
    /\ List.length (RunLog.warningsOf (events r)) = List.length (waits r)
    /\ RunLog.errorLogsOf (events r)
       = (if apiKeyMissing w then [] else RunLog.thrownBy r).
Proof.
  intros Hf. destruct (apiKeyMissing w) eqn:Hk.
  - eexists. split; [apply (analyze_without_key _ _ _ _ Hk)|].
    repeat split.
  - destruct (analyze_machine w topic files fuel Hk Hf) as [r [Hr Hm]].
    exists r. split; [exact Hr|]. apply (machine_log _ _ _ _ Hm).
Qed.

Lemma run_sends_one_request_and_logs_each_step_witness :
  exists r,
    analyzeArticles 4
      (Scenario.scripted
         [Rejected Scenario.quotaError; Rejected Scenario.authError])
      Scenario.plainTopic [Scenario.dataUrlUpload] = Some r
    /\ List.length (RunLog.requestsOf (events r)) = 2
    /\ List.length (RunLog.warningsOf (events r)) = 1
    /\ RunLog.errorLogsOf (events r) = [Scenario.authError].
Proof.
  destruct (run_sends_one_request_and_logs_each_step
              (Scenario.scripted
                 [Rejected Scenario.quotaError; Rejected Scenario.authError])
              Scenario.plainTopic [Scenario.dataUrlUpload] 4 (le_n 4))
    as [r [Hr [H1 [H2 H3]]]].
  exists r. split; [exact Hr|].
  assert (E : r = {| outcome := Thrown Scenario.authError;
                     events := events r |} /\ calls r = 2
              /\ List.length (waits r) = 1).
  { vm_compute in Hr. injection Hr as <-. vm_compute. repeat split. }
  destruct E as [E1 [E2 E3]].
  rewrite H1, H2, H3, E2, E3. rewrite E1. repeat split.
Defined.

(** X5.  The [catch] clause also receives the [SyntaxError] of
    [JSON.parse] and classifies it by its message like any other error:
    when the body of attempt [k], with [k < 3], is not JSON and the
    message of the engine holds [429] or [503], the run waits
    [2000 * 2 ^ k] and calls the service again. *)
Theorem body_that_is_not_json_is_retried_when_worded_like_a_transient_error
  (w : World) (topic : string) (files : list FileInput) (fuel k : nat)
  (text : string) :
  apiKeyMissing w = false ->
  4 <= fuel ->
  generateContent w k (request (buildParts topic files))
  = Fulfilled (Some text) ->
  text <> EmptyString ->
  JSON.parse text = None ->
  JS.includes (syntaxErrorMessage w text) "429" = true
  \/ JS.includes (syntaxErrorMessage w text) "503" = true ->
  k < 3 ->
  exists r,
    analyzeArticles fuel w topic files = Some r
    /\ (k < calls r ->
        S k < calls r
        /\ nth_error (waits r) k = Some (2000 * 2 ^ Z.of_nat k)%Z).
Proof.
  intros Hk Hf Hg Hne Hp Hmsg Hk3.
  destruct (analyze_machine w topic files fuel Hk Hf) as [r [Hr Hm]].
  exists r. split; [exact Hr|]. intros Hlt.
  pose proof (tryBlock_syntax_error _ _ _ _ Hg Hne Hp) as Ht.
  assert (Htr : transient (syntaxError w text) = true).
  { unfold transient, isQuotaError, isServerOverload, JS.messageIncludes.
    cbn [syntaxError JS.message JS.status JS.code JS.strictEqNumber].
    destruct Hmsg as [-> | ->]; [reflexivity|].
    rewrite !orb_false_r. apply orb_true_r. }
  pose proof (run_goes_on w topic files r k _ Hm Ht Htr Hk3 Hlt) as Hmore.
  split; [exact Hmore|].
  destruct (machine_run w _ 0 r Hm) as [_ [Hs _]].
  rewrite (waits_expected r 0 Hs), nth_error_map, nth_error_seq.
  destruct (Nat.ltb_spec k (calls r - 1)); [reflexivity|lia].
Qed.

Lemma body_that_is_not_json_is_retried_witness :
  exists r,
    analyzeArticles 4
      (Scenario.positionWording
         [Fulfilled (Some Scenario.truncatedBody);
          Scenario.respond Scenario.goodPayload])
      Scenario.plainTopic [Scenario.dataUrlUpload] = Some r
    /\ 1 < calls r
    /\ nth_error (waits r) 0 = Some 2000%Z.
Proof.
  destruct (body_that_is_not_json_is_retried_when_worded_like_a_transient_error
              (Scenario.positionWording
                 [Fulfilled (Some Scenario.truncatedBody);
                  Scenario.respond Scenario.goodPayload])
              Scenario.plainTopic [Scenario.dataUrlUpload] 4 0
              Scenario.truncatedBody
              eq_refl (le_n 4) eq_refl)
    as [r [Hr Hrun]].
  { discriminate. }
  { vm_compute. reflexivity. }
  { left. vm_compute. reflexivity. }
  { lia. }
  exists r. split; [exact Hr|].
  apply Hrun. vm_compute in Hr. injection Hr as <-. vm_compute. lia.
Defined.

(** X6.  The version of the service function without the loop against
    the one with it, for a service that answers the first call alike for
    the two requests: the former always makes one call and never waits;
    the two end alike, after one call, unless the first attempt fails
    with a transient signature; in that case the former throws the error
    where the latter calls again. *)
Theorem single_shot_agrees_unless_the_first_failure_is_transient
  (w : World) (topic : string) (files : list FileInput) (fuel : nat) :
  apiKeyMissing w = false ->
  4 <= fuel ->
  generateContent w 0 (SingleShot.request (buildParts topic files))
  = generateContent w 0 (request (buildParts topic files)) ->
  exists r,
    analyzeArticles fuel w topic files = Some r
    /\ calls (SingleShot.analyzeArticles w topic files) = 1
    /\ waits (SingleShot.analyzeArticles w topic files) = []
    /\ ((forall e,
           tryBlock w 0 (request (buildParts topic files)) = inr e ->
           transient e = false) ->
        outcome r = outcome (SingleShot.analyzeArticles w topic files)
        /\ calls r = 1)
    /\ (forall e,
          tryBlock w 0 (request (buildParts topic files)) = inr e ->
          transient e = true ->
          outcome (SingleShot.analyzeArticles w topic files) = Thrown e
          /\ 1 < calls r).
Proof.
  intros Hk Hf Hsame.
  destruct (analyze_machine w topic files fuel Hk Hf) as [r [Hr Hm]].
  exists r. split; [exact Hr|].
  assert (Ht : tryBlock w 0 (SingleShot.request (buildParts topic files))
               = tryBlock w 0 (request (buildParts topic files))).
  { unfold tryBlock. rewrite Hsame. reflexivity. }
  unfold SingleShot.analyzeArticles. rewrite Hk, Ht.
  pose proof (machine_run w _ 0 r Hm) as [H1 _].
  destruct (tryBlock w 0 (request (buildParts topic files))) as [v|e] eqn:E.
  - split; [reflexivity|]. split; [reflexivity|]. split.
    + intros _.
      destruct (run_stops_with_value w topic files r 0 v Hm E ltac:(lia))
        as [Hc [Ho _]].
      split; [exact Ho|exact Hc].
    + intros e He. discriminate.
  - split; [reflexivity|]. split; [reflexivity|]. split.
    + intros Hn.
      destruct (run_stops_with_error w topic files r 0 e Hm E
                  (or_introl (Hn e eq_refl)) ltac:(lia)) as [Hc [Ho _]].
      split; [exact Ho|exact Hc].
    + intros e' [= <-] Htr. split; [reflexivity|].
      apply (run_goes_on w topic files r 0 e Hm E Htr); lia.
Qed.

Lemma single_shot_agrees_witness :
  exists r,
    analyzeArticles 4
      (Scenario.scripted
         [Rejected Scenario.overloadError;
          Scenario.respond Scenario.goodPayload])
      Scenario.plainTopic [Scenario.dataUrlUpload] = Some r
    /\ outcome (SingleShot.analyzeArticles
                  (Scenario.scripted
                     [Rejected Scenario.overloadError;
                      Scenario.respond Scenario.goodPayload])
                  Scenario.plainTopic [Scenario.dataUrlUpload])
       = Thrown Scenario.overloadError
    /\ 1 < calls r.
Proof.
  destruct (single_shot_agrees_unless_the_first_failure_is_transient
              (Scenario.scripted
                 [Rejected Scenario.overloadError;
                  Scenario.respond Scenario.goodPayload])
              Scenario.plainTopic [Scenario.dataUrlUpload] 4
              eq_refl (le_n 4) eq_refl) as [r [Hr [_ [_ [_ H]]]]].
  exists r. split; [exact Hr|].
  apply (H Scenario.overloadError); reflexivity.
Defined.

Lemma machine_warnings (w : World) (p : GenerateContentParameters) (i : nat)
  (r : Run) :
  machine w p i r ->
  forall k e,
    S k < calls r ->
    tryBlock w (i + k) p = inr e ->
    nth_error (RunLog.warningsOf (events r)) k
    = Some (warning (Z.of_nat (S (i + k))) (isQuotaError e)
              (2000 * 2 ^ Z.of_nat (i + k))).
Proof.
  induction 1 as [i v Ht | i e Ht Hstop | i e r Ht Htr Hlt Hm IH];
    intros k e' Hk He.
  - cbn in Hk. lia.
  - cbn in Hk. lia.
  - unfold calls in *.
    cbn [events RunLog.warningsOf filter isCall List.length] in *.
    destruct k as [|k].
    + rewrite Nat.add_0_r in *. rewrite Ht in He. injection He as <-.
      reflexivity.
    + cbn [nth_error]. replace (i + S k) with (S i + k) in * by lia.
      apply IH; [lia|exact He].
Qed.

(** X4.  The warning before the retry that follows the attempt with
    index [k] names attempt [k + 1], the delay [2000 * 2 ^ k], and the
    class of the error of that attempt: [quota] whenever the error
    matches the quota class, also when it matches both classes, and
    [server] otherwise. *)
Theorem each_warning_names_its_attempt_class_and_delay
  (w : World) (topic : string) (files : list FileInput) (fuel : nat) :
  apiKeyMissing w = false ->
  4 <= fuel ->
  exists r,
    analyzeArticles fuel w topic files = Some r
    /\ forall k e,
         S k < calls r ->
         tryBlock w k (request (buildParts topic files)) = inr e ->
         nth_error (RunLog.warningsOf (events r)) k
         = Some ("Attempt " ++ JS.showZ (Z.of_nat (S k)) ++ " failed with "
                 ++ (if isQuotaError e then "quota" else "server")
                 ++ " error. Retrying in "
                 ++ JS.showZ (2000 * 2 ^ Z.of_nat k) ++ "ms...").
Proof.
  intros Hk Hf.
  destruct (analyze_machine w topic files fuel Hk Hf) as [r [Hr Hm]].
  exists r. split; [exact Hr|]. intros k e Hlt He.
  apply (machine_warnings _ _ 0 r Hm k e Hlt He).
Qed.

Lemma each_warning_names_its_attempt_witness :
  exists r,
    analyzeArticles 4
      (Scenario.scripted
         [Rejected Scenario.overloadError; Rejected Scenario.quotaError;
          Scenario.respond Scenario.goodPayload])
      Scenario.plainTopic [Scenario.dataUrlUpload] = Some r
    /\ nth_error (RunLog.warningsOf (events r)) 1
       = Some "Attempt 2 failed with quota error. Retrying in 4000ms...".
Proof.
  destruct (each_warning_names_its_attempt_class_and_delay
              (Scenario.scripted
                 [Rejected Scenario.overloadError;
                  Rejected Scenario.quotaError;
                  Scenario.respond Scenario.goodPayload])
              Scenario.plainTopic [Scenario.dataUrlUpload] 4
              eq_refl (le_n 4)) as [r [Hr H]].
  exists r. split; [exact Hr|].
  apply (H 1 Scenario.quotaError); [|reflexivity].
  vm_compute in Hr. injection Hr as <-. vm_compute. lia.
Defined.

End ServiceExtras.

Section UploadFacts.

Lemma filterIndex_remove {A : Type} (l : list A) (k index : nat) :
  FileUpload.filterIndex (fun i => negb (i =? k + index)%nat) k l
  = (firstn index l ++ skipn (S index) l)%list.
Proof.
  revert k index. induction l as [|x l IH]; intros k index.
  - cbn. destruct index; reflexivity.
  - cbn [FileUpload.filterIndex]. destruct index as [|index].
    + rewrite Nat.add_0_r, Nat.eqb_refl. cbn [negb firstn skipn app].
      clear IH. generalize (Nat.lt_succ_diag_r k).
      generalize (S k) as j. induction l as [|y l IH]; intros j Hj.
      * reflexivity.
      * cbn [FileUpload.filterIndex].
        destruct (Nat.eqb_spec j k) as [E|_]; [lia|]. cbn [negb].
        f_equal. apply IH. lia.
    + destruct (Nat.eqb_spec k (k + S index)) as [E|_]; [lia|].
      cbn [negb firstn skipn app]. f_equal.
      replace (k + S index) with (S k + index) by lia. apply IH.
Qed.

Lemma removeFile_eq (index : nat) (prev : list FileInput) :
  FileUpload.removeFile index prev
  = (firstn index prev ++ skipn (S index) prev)%list.
Proof. unfold FileUpload.removeFile. apply (filterIndex_remove prev 0). Qed.

(** X7.  [removeFile] at an index inside the list takes one entry away,
    leaves the entries before it where they are and moves each later one
    a place down; at an index outside the list it changes nothing. *)
Theorem removeFile_drops_the_entry_at_the_index_only
  (index : nat) (prev : list FileInput) :
  (index < List.length prev ->
   List.length (FileUpload.removeFile index prev) = List.length prev - 1
   /\ forall j,
        nth_error (FileUpload.removeFile index prev) j
        = if (j <? index)%nat then nth_error prev j
          else nth_error prev (S j))
  /\ (List.length prev <= index -> FileUpload.removeFile index prev = prev).
Proof.
  rewrite removeFile_eq. split.
  - intros Hlt. split.
    + rewrite length_app, length_firstn, length_skipn. lia.
    + intros j. destruct (Nat.ltb_spec j index) as [Hj|Hj].
      * rewrite nth_error_app1 by (rewrite length_firstn; lia).
        rewrite nth_error_firstn.
        destruct (Nat.ltb_spec j index); [reflexivity|lia].
      * rewrite nth_error_app2 by (rewrite length_firstn; lia).
        rewrite length_firstn, nth_error_skipn.
        f_equal. lia.
  - intros Hle. rewrite firstn_all2 by exact Hle.
    rewrite skipn_all2 by lia. apply app_nil_r.
Qed.

Lemma removeFile_drops_the_entry_at_the_index_only_witness :
  FileUpload.removeFile 0
    [Scenario.dataUrlUpload; Scenario.bareUpload]
  = [Scenario.bareUpload]
  /\ FileUpload.removeFile 2
       [Scenario.dataUrlUpload; Scenario.bareUpload]
     = [Scenario.dataUrlUpload; Scenario.bareUpload].
Proof.
  destruct (removeFile_drops_the_entry_at_the_index_only 0
              [Scenario.dataUrlUpload; Scenario.bareUpload]) as [H _].
  destruct (removeFile_drops_the_entry_at_the_index_only 2
              [Scenario.dataUrlUpload; Scenario.bareUpload]) as [_ H'].
  split.
  - destruct (H ltac:(cbn; lia)) as [_ Hn].
    pose proof (Hn 0) as H0. pose proof (Hn 1) as H1.
    destruct (FileUpload.removeFile 0 _) as [|a [|b l]];
      cbn in H0, H1; try discriminate.
    injection H0 as ->. reflexivity.
  - apply H'. cbn. lia.
Defined.

(** X8.  Removing one of the files just appended by [processFiles]
    gives what appending the others alone gives, and removing an earlier
    file commutes with the upload. *)
Theorem removing_an_upload_undoes_it_and_commutes_with_later_uploads
  (readAsDataURL : File -> string) (l : list File)
  (prev : list FileInput) (i : nat) :
  FileUpload.removeFile (List.length prev + i)
    (FileUpload.processFiles readAsDataURL (Some l) prev)
  = FileUpload.processFiles readAsDataURL
      (Some (firstn i l ++ skipn (S i) l)%list) prev
  /\ (i < List.length prev ->
      FileUpload.removeFile i
        (FileUpload.processFiles readAsDataURL (Some l) prev)
      = FileUpload.processFiles readAsDataURL (Some l)
          (FileUpload.removeFile i prev)).
Proof.
  rewrite !removeFile_eq. unfold FileUpload.processFiles. split.
  - rewrite firstn_app, skipn_app, map_app, firstn_map, skipn_map.
    rewrite firstn_all2 by lia.
    replace (List.length prev + i - List.length prev) with i by lia.
    rewrite skipn_all2 by lia.
    replace (S (List.length prev + i) - List.length prev) with (S i) by lia.
    cbn [app]. rewrite <- app_assoc. reflexivity.
  - intros Hlt.
    rewrite firstn_app, skipn_app.
    replace (i - List.length prev) with 0 by lia.
    replace (S i - List.length prev) with 0 by lia.
    cbn [firstn skipn]. rewrite app_nil_r, <- !app_assoc. reflexivity.
Qed.

Lemma removing_an_upload_undoes_it_witness :
  FileUpload.removeFile 0
    (FileUpload.processFiles Cases.reader (Some [Cases.second])
       [Scenario.bareUpload])
  = FileUpload.processFiles Cases.reader (Some [Cases.second]) [].
Proof.
  destruct (removing_an_upload_undoes_it_and_commutes_with_later_uploads
              Cases.reader [Cases.second] [Scenario.bareUpload] 0)
    as [_ H].
  rewrite (H ltac:(cbn; lia)). reflexivity.
Defined.

Lemma includes_char_app (sep : ascii) (a b : string) :
  JS.includes a (String sep EmptyString) = false ->
  JS.includes b (String sep EmptyString) = false ->
  JS.includes (a ++ b) (String sep EmptyString) = false.
Proof.
  induction a as [|c a IH]; intros Ha Hb; [exact Hb|].
  apply includes_char_cons in Ha. destruct Ha as [Hc Ha].
  cbn [append]. unfold JS.includes in *. cbn [JS.indexOf JS.startsWith].
  rewrite (Ascii.eqb_sym sep c), Hc.
  specialize (IH Ha Hb).
  destruct (JS.indexOf (a ++ b) (String sep EmptyString));
    [discriminate|reflexivity].
Qed.

(** X9.  From the upload component to the request: a file read as a
    data URL, with a type and a payload that hold no comma, gives the
    part at its place after the parts of the files already there, with
    its type and the bare payload as data; the parts of the earlier
    files stay as they were. *)
Theorem uploaded_file_reaches_the_request_as_its_bare_payload
  (readAsDataURL : File -> string) (payload : File -> string)
  (topic : string) (prev : list FileInput) (l : list File)
  (i : nat) (f : File) :
  nth_error l i = Some f ->
  readAsDataURL f = "data:" ++ type f ++ ";base64," ++ payload f ->
  JS.includes (type f) "," = false ->
  JS.includes (payload f) "," = false ->
  nth_error
    (buildParts topic (FileUpload.processFiles readAsDataURL (Some l) prev))
    (S (List.length prev + i))
  = Some (InlineDataPart (type f) (Some (payload f)))
  /\ forall j,
       j < List.length prev ->
       nth_error
         (buildParts topic
            (FileUpload.processFiles readAsDataURL (Some l) prev)) (S j)
       = nth_error (buildParts topic prev) (S j).
Proof.
  intros Hf Hr Ht Hp. split.
  - rewrite (buildParts_nth _ _ _ {| file := f; base64 := readAsDataURL f |}).
    + unfold inlinePart, base64Data. cbn [file base64]. rewrite Hr.
      change ("data:" ++ type f ++ ";base64," ++ payload f)
        with ("data:" ++ (type f ++ ";base64" ++ String ","%char (payload f))).
      replace ("data:" ++ (type f ++ ";base64" ++ String ","%char (payload f)))
        with (("data:" ++ type f ++ ";base64") ++ String ","%char (payload f)).
      2:{ rewrite <- !append_assoc. reflexivity. }
      rewrite split_prefix.
      * rewrite (split_no_separator _ _ Hp). reflexivity.
      * apply (includes_char_app _ "data:"); [reflexivity|].
        apply includes_char_app; [exact Ht|reflexivity].
    + unfold FileUpload.processFiles.
      rewrite nth_error_app2 by lia.
      replace (List.length prev + i - List.length prev) with i by lia.
      rewrite nth_error_map, Hf. reflexivity.
  - intros j Hj. rewrite !buildParts_shape. cbn [nth_error].
    unfold FileUpload.processFiles. rewrite map_app.
    apply nth_error_app1. rewrite length_map. exact Hj.
Qed.

Lemma uploaded_file_reaches_the_request_witness :
  nth_error
    (buildParts Scenario.plainTopic
       (FileUpload.processFiles Cases.reader (Some [Cases.second])
          [Scenario.bareUpload])) 2
  = Some (InlineDataPart "application/pdf" (Some "JVBERi0xLjQ=")).
Proof.
  apply (uploaded_file_reaches_the_request_as_its_bare_payload
           Cases.reader (fun _ => "JVBERi0xLjQ=") Scenario.plainTopic
           [Scenario.bareUpload] [Cases.second] 0 Cases.second
           eq_refl eq_refl eq_refl eq_refl).
Defined.

End UploadFacts.

Section AppFacts.

Lemma isEmpty_trimEnd (s : string) :
  JSString.isEmpty (JSString.trimEnd s) = JSString.blank s.
Proof.
  destruct s as [|c r]; [reflexivity|].
  cbn [JSString.trimEnd].
  destruct (JSString.blank (String c r)); reflexivity.
Qed.

Lemma blank_trimStartFrom (s : string) (skip : nat) :
  JSString.blank (JSString.trimStartFrom skip s) = JSString.blankFrom skip s.
Proof.
  revert skip. induction s as [|c r IH]; intros skip; [reflexivity|].
  cbn [JSString.trimStartFrom JSString.blankFrom].
  destruct skip as [|k]; [|apply IH].
  destruct (JSString.whiteSpaceBytes (String c r)) as [|k] eqn:E;
    [|apply IH].
  unfold JSString.blank. cbn [JSString.blankFrom]. rewrite E. reflexivity.
Qed.

(** [!topic.trim()] holds exactly of a topic that is white space
    throughout. *)
Lemma trim_empty_iff_blank (s : string) :
  JSString.isEmpty (JSString.trim s) = JSString.blank s.
Proof.
  unfold JSString.trim. rewrite isEmpty_trimEnd.
  apply blank_trimStartFrom.
Qed.

Lemma messageOr_nonempty (e : JS.Error) (c : ascii) (m : string) :
  exists c' m', App.messageOr e (String c m) = String c' m'.
Proof.
  unfold App.messageOr. destruct (JS.message e) as [[|c' m']|]; eauto.
Qed.

Lemma analyze_total (w : World) (topic : string) (files : list FileInput)
  (fuel : nat) :
  4 <= fuel ->
  exists r, analyzeArticles fuel w topic files = Some r /\ calls r <= 4.
Proof.
  intros Hf. destruct (apiKeyMissing w) eqn:Hk.
  - eexists. split; [apply (analyze_without_key _ _ _ _ Hk)|]. cbn. lia.
  - destruct (analyze_machine w topic files fuel Hk Hf) as [r [Hr Hm]].
    exists r. split; [exact Hr|].
    destruct (machine_bounds w _ 0 r Hm); lia.
Qed.

(** X10.  In a state where the button is drawn disabled (a topic that
    is white space throughout, or no file), [handleAnalyze] calls
    nothing, logs nothing and changes the error cell alone; the topic is
    checked first; the form then shows the message, with the button
    still disabled. *)
Theorem handleAnalyze_refuses_when_the_button_is_disabled
  (fuel : nat) (w : World) (s : App.State) :
  App.buttonDisabled s = true ->
  App.handleAnalyze fuel w s
  = Some {| App.final :=
              App.withError s
                (if JSString.blank (App.topic s)
                 then "Please enter a research topic."
                 else "Please upload at least one PDF article.");
            App.awaiting := None;
            App.service := None;
            App.logged := [] |}
  /\ (App.stage s = App.INPUT ->
      App.render (App.withError s
                    (if JSString.blank (App.topic s)
                     then "Please enter a research topic."
                     else "Please upload at least one PDF article."))
      = App.FormView
          (Some (if JSString.blank (App.topic s)
                 then "Please enter a research topic."
                 else "Please upload at least one PDF article."))
          true).
Proof.
  unfold App.buttonDisabled, App.handleAnalyze.
  rewrite trim_empty_iff_blank. intros H. split.
  - destruct (JSString.blank (App.topic s)); [reflexivity|].
    cbn [orb] in H. rewrite H. reflexivity.
  - intros Hs. unfold App.render, App.mainCard, App.withError.
    cbn [App.stage App.results]. rewrite Hs.
    unfold App.errorShown, App.buttonDisabled.
    cbn [App.error App.topic App.files].
    rewrite trim_empty_iff_blank, H.
    destruct (JSString.blank (App.topic s)); reflexivity.
Qed.

Lemma handleAnalyze_refuses_witness :
  App.handleAnalyze 0 (Scenario.scripted [])
    {| App.topic := Cases.blankTopic;
       App.files := [Scenario.dataUrlUpload];
       App.stage := App.INPUT;
       App.results := None;
       App.error := None |}
  = Some {| App.final :=
              {| App.topic := Cases.blankTopic;
                 App.files := [Scenario.dataUrlUpload];
                 App.stage := App.INPUT;
                 App.results := None;
                 App.error := Some "Please enter a research topic." |};
            App.awaiting := None;
            App.service := None;
            App.logged := [] |}.
Proof.
  apply (handleAnalyze_refuses_when_the_button_is_disabled 0
           (Scenario.scripted [])
           {| App.topic := Cases.blankTopic;
              App.files := [Scenario.dataUrlUpload];
              App.stage := App.INPUT;
              App.results := None;
              App.error := None |} eq_refl).
Defined.

(** X11.  In a state where the button is enabled, [handleAnalyze] runs
    the service function once on the topic and the files of the state,
    which makes at most four calls; meanwhile the stage is PROCESSING
    and the error cell is cleared; topic and files are never changed; a
    returned value ends in stage RESULTS with that value and no error;
    a thrown error is logged once more, the stage goes back to INPUT,
    the results are kept, and the form shows the message of the error,
    or the fallback text when it has none. *)
Theorem handleAnalyze_ends_on_results_or_on_the_form_with_the_error
  (fuel : nat) (w : World) (s : App.State) :
  App.buttonDisabled s = false ->
  4 <= fuel ->
  exists h r,
    App.handleAnalyze fuel w s = Some h
    /\ analyzeArticles fuel w (App.topic s) (App.files s) = Some r
    /\ App.service h = Some r
    /\ calls r <= 4
    /\ App.awaiting h
       = Some {| App.topic := App.topic s; App.files := App.files s;
                 App.stage := App.PROCESSING;
                 App.results := App.results s; App.error := None |}
    /\ App.topic (App.final h) = App.topic s
    /\ App.files (App.final h) = App.files s
    /\ match outcome r with
       | Returned v =>
           App.stage (App.final h) = App.RESULTS
           /\ App.results (App.final h) = Some v
           /\ App.error (App.final h) = None
           /\ App.logged h = []
       | Thrown e =>
           App.stage (App.final h) = App.INPUT
           /\ App.results (App.final h) = App.results s
           /\ App.logged h = [e]
           /\ App.render (App.final h)
              = App.FormView
                  (Some (App.messageOr e
                           "An unexpected error occurred during analysis."))
                  false
       end.
Proof.
  intros Hb Hf.
  destruct (analyze_total w (App.topic s) (App.files s) fuel Hf)
    as [r [Hr Hc]].
  pose proof Hb as Hb'. unfold App.buttonDisabled in Hb'.
  apply orb_false_elim in Hb'. destruct Hb' as [Ht Hl].
  unfold App.handleAnalyze. rewrite Ht, Hl, Hr.
  destruct (outcome r) as [v|e] eqn:Ho.
  - eexists. exists r. split; [reflexivity|]. rewrite Ho. repeat split.
    exact Hc.
  - eexists. exists r. split; [reflexivity|]. rewrite Ho.
    cbn [App.final App.service App.awaiting App.logged App.topic App.files
         App.stage App.results App.error].
    repeat split; try exact Hc.
    unfold App.render, App.mainCard.
    cbn [App.stage App.results].
    unfold App.errorShown, App.buttonDisabled.
    cbn [App.error App.topic App.files]. rewrite Ht, Hl.
    destruct (messageOr_nonempty e "A"%char
                "n unexpected error occurred during analysis.")
      as [c' [m' E]].
    change (String "A"%char "n unexpected error occurred during analysis.")
      with "An unexpected error occurred during analysis." in E.
    rewrite E. reflexivity.
Qed.

Lemma handleAnalyze_ends_witness :
  exists h r,
    App.handleAnalyze 4
      (Scenario.scripted [Rejected Scenario.authError]) Cases.filled
    = Some h
    /\ App.service h = Some r
    /\ App.logged h = [Scenario.authError]
    /\ App.stage (App.final h) = App.INPUT.
Proof.
  destruct (handleAnalyze_ends_on_results_or_on_the_form_with_the_error 4
              (Scenario.scripted [Rejected Scenario.authError]) Cases.filled
              eq_refl (le_n 4))
    as [h [r [Hh [Hr [Hs [_ [_ [_ [_ Ho]]]]]]]]].
  exists h, r. split; [exact Hh|]. split; [exact Hs|].
  assert (E : outcome r = Thrown Scenario.authError).
  { vm_compute in Hr. injection Hr as <-. reflexivity. }
  rewrite E in Ho. destruct Ho as [H1 [_ [H3 _]]]. split; assumption.
Defined.

(** X12.  Without an API key a click on the enabled button makes no
    call of the service: the configuration error is logged by the
    handler and its message is shown on the form. *)
Theorem missing_key_is_reported_on_the_form_without_any_call
  (fuel : nat) (w : World) (s : App.State) :
  apiKeyMissing w = true ->
  App.buttonDisabled s = false ->
  exists h r,
    App.handleAnalyze fuel w s = Some h
    /\ App.service h = Some r
    /\ events r = []
    /\ App.logged h
       = [JS.newError "API Key is missing in environment variables"]
    /\ App.render (App.final h)
       = App.FormView (Some "API Key is missing in environment variables")
           false.
Proof.
  intros Hk Hb.
  pose proof Hb as Hb'. unfold App.buttonDisabled in Hb'.
  apply orb_false_elim in Hb'. destruct Hb' as [Ht Hl].
  unfold App.handleAnalyze.
  rewrite Ht, Hl, (analyze_without_key w _ _ fuel Hk).
  cbn [outcome]. do 2 eexists. split; [reflexivity|].
  cbn [App.final App.service App.logged events].
  repeat split.
  unfold App.render, App.mainCard. cbn [App.stage App.results].
  unfold App.errorShown, App.buttonDisabled.
  cbn [App.error App.topic App.files]. rewrite Ht, Hl. reflexivity.
Qed.

Lemma missing_key_is_reported_witness :
  exists h r,
    App.handleAnalyze 0 (Scenario.withoutKey []) Cases.filled = Some h
    /\ App.service h = Some r
    /\ events r = []
    /\ App.logged h
       = [JS.newError "API Key is missing in environment variables"]
    /\ App.render (App.final h)
       = App.FormView (Some "API Key is missing in environment variables")
           false.
Proof.
  apply (missing_key_is_reported_on_the_form_without_any_call 0
           (Scenario.withoutKey []) Cases.filled eq_refl eq_refl).
Defined.



End AppFacts.

Section ExportFacts.

Lemma countChar_app (c : ascii) (a b : string) :
  JSString.countChar c (a ++ b)
  = JSString.countChar c a + JSString.countChar c b.
Proof.
  induction a as [|x a IH]; [reflexivity|].
  cbn [append JSString.countChar]. rewrite IH. lia.
Qed.

(** A character that is neither a pipe nor a backslash closes what
    stands before it. *)
Lemma unescapedPipesAfter_app (x : ascii) (b : bool) (a r : string) :
  Ascii.eqb x "|"%char = false ->
  Ascii.eqb x JSON.BACKSLASH = false ->
  JSString.unescapedPipesAfter b (a ++ String x r)
  = JSString.unescapedPipesAfter b a + JSString.unescapedPipesAfter false r.
Proof.
  intros Hp Hb. revert b. induction a as [|y a IH]; intros b.
  - cbn [append JSString.unescapedPipesAfter]. rewrite Hp, Hb. reflexivity.
  - cbn [append JSString.unescapedPipesAfter]. rewrite IH. lia.
Qed.

Lemma unescapedPipesAfter_plain (b : bool) (a : string) :
  JSString.countChar "|"%char a = 0 -> JSString.unescapedPipesAfter b a = 0.
Proof.
  revert b. induction a as [|y a IH]; intros b H; [reflexivity|].
  cbn [JSString.countChar] in H. cbn [JSString.unescapedPipesAfter].
  destruct (Ascii.eqb y "|"%char); [discriminate|].
  cbn [andb]. apply IH. exact H.
Qed.

Lemma sanitize_cons (x : ascii) (s : string) :
  AnalysisView.sanitize (String x s)
  = if Ascii.eqb x "|"%char then "\|" ++ AnalysisView.sanitize s
    else if Ascii.eqb x (ascii_of_nat 10) then " " ++ AnalysisView.sanitize s
    else String x (AnalysisView.sanitize s).
Proof.
  unfold AnalysisView.sanitize. cbn [JSString.replaceAllChar].
  destruct (Ascii.eqb x "|"%char); [reflexivity|].
  cbn [JSString.replaceAllChar].
  destruct (Ascii.eqb x (ascii_of_nat 10)); reflexivity.
Qed.

Lemma sanitize_no_line_feed (s : string) :
  JSString.countChar (ascii_of_nat 10) (AnalysisView.sanitize s) = 0.
Proof.
  induction s as [|x s IH]; [reflexivity|].
  rewrite sanitize_cons.
  destruct (Ascii.eqb x "|"%char) eqn:Ep; [exact IH|].
  destruct (Ascii.eqb x (ascii_of_nat 10)) eqn:En; [exact IH|].
  cbn [JSString.countChar]. rewrite En. exact IH.
Qed.

Lemma sanitize_no_unescaped_pipe (s : string) (b : bool) :
  JSString.unescapedPipesAfter b (AnalysisView.sanitize s) = 0.
Proof.
  revert b. induction s as [|x s IH]; intros b; [reflexivity|].
  rewrite sanitize_cons.
  destruct (Ascii.eqb x "|"%char) eqn:Ep.
  - cbn [append JSString.unescapedPipesAfter]. apply IH.
  - destruct (Ascii.eqb x (ascii_of_nat 10)) eqn:En.
    + cbn [append JSString.unescapedPipesAfter]. apply IH.
    + cbn [JSString.unescapedPipesAfter]. rewrite Ep. apply IH.
Qed.

(** X14.  A sanitised cell of the exported table holds no line feed
    and no pipe without a backslash right before it, whatever the text
    was and whatever stands before the cell. *)
Theorem sanitized_cell_cannot_break_its_row (s : string) (escaped : bool) :
  JSString.countChar (ascii_of_nat 10) (AnalysisView.sanitize s) = 0
  /\ JSString.unescapedPipesAfter escaped (AnalysisView.sanitize s) = 0.
Proof.
  split; [apply sanitize_no_line_feed|apply sanitize_no_unescaped_pipe].
Qed.

(** X15.  Sanitising lengthens a text by one character for each of its
    pipes, and leaves a text without pipe and line feed as it is. *)
Theorem sanitize_adds_one_character_for_each_pipe (s : string) :
  String.length (AnalysisView.sanitize s)
  = String.length s + JSString.countChar "|"%char s
  /\ (JSString.countChar "|"%char s = 0 ->
      JSString.countChar (ascii_of_nat 10) s = 0 ->
      AnalysisView.sanitize s = s).
Proof.
  induction s as [|x s [IH1 IH2]]; [split; reflexivity|].
  rewrite sanitize_cons. cbn [JSString.countChar String.length].
  destruct (Ascii.eqb x "|"%char) eqn:Ep.
  - split; [cbn [append String.length]; lia|discriminate].
  - destruct (Ascii.eqb x (ascii_of_nat 10)) eqn:En.
    + split; [cbn [append String.length]; lia|discriminate].
    + split; [cbn [String.length]; lia|].
      cbn [Nat.add]. intros Hp Hn. rewrite (IH2 Hp Hn). reflexivity.
Qed.

Lemma sanitize_adds_one_character_witness :
  AnalysisView.sanitize Scenario.plainTopic = Scenario.plainTopic.
Proof.
  destruct (sanitize_adds_one_character_for_each_pipe Scenario.plainTopic)
    as [_ H].
  apply H; reflexivity.
Defined.

(** The decimal digits of a number hold no pipe, backslash or line feed. *)
Lemma uint_plain (c : ascii) (d : Decimal.uint) :
  c = "|"%char \/ c = JSON.BACKSLASH \/ c = (ascii_of_nat 10) ->
  JSString.countChar c (NilEmpty.string_of_uint d) = 0.
Proof.
  intros Hc. induction d; cbn [NilEmpty.string_of_uint JSString.countChar];
    [reflexivity|..];
    rewrite IHd; destruct Hc as [-> | [-> | ->]]; reflexivity.
Qed.

Lemma showZ_plain (c : ascii) (z : Z) :
  c = "|"%char \/ c = JSON.BACKSLASH \/ c = (ascii_of_nat 10) ->
  JSString.countChar c (JS.showZ z) = 0.
Proof.
  intros Hc. unfold JS.showZ, NilZero.string_of_int.
  assert (U : forall d, JSString.countChar c (NilZero.string_of_uint d) = 0).
  { intros d. unfold NilZero.string_of_uint.
    destruct d; try apply (uint_plain c _ Hc).
    destruct Hc as [-> | [-> | ->]]; reflexivity. }
  destruct (Z.to_int z) as [d|d]; [apply U|].
  cbn [JSString.countChar]. rewrite U.
  destruct Hc as [-> | [-> | ->]]; reflexivity.
Qed.

Lemma utilityText_plain (c : ascii) (u : Utility) :
  c = "|"%char \/ c = JSON.BACKSLASH \/ c = (ascii_of_nat 10) ->
  JSString.countChar c (utilityText u) = 0.
Proof. intros [-> | [-> | ->]]; destruct u; reflexivity. Qed.

Lemma summaryLine_line_feeds (row : SummaryRow) :
  JSString.countChar (ascii_of_nat 10) (AnalysisView.summaryLine row) = 1.
Proof.
  unfold AnalysisView.summaryLine.
  rewrite !countChar_app, !sanitize_no_line_feed.
  rewrite (showZ_plain (ascii_of_nat 10)) by auto.
  rewrite (utilityText_plain (ascii_of_nat 10)) by auto.
  reflexivity.
Qed.

Lemma summaryLine_pipes (row : SummaryRow) (rest : string) :
  JSString.unescapedPipesAfter false (AnalysisView.summaryLine row ++ rest)
  = 5 + JSString.unescapedPipesAfter false rest.
Proof.
  unfold AnalysisView.summaryLine, JSString.LF.
  rewrite !append_assoc. cbn [append].
  repeat (cbn [JSString.unescapedPipesAfter];
          rewrite ?unescapedPipesAfter_app by reflexivity).
  rewrite !sanitize_no_unescaped_pipe.
  rewrite !unescapedPipesAfter_plain
    by (apply showZ_plain || apply utilityText_plain; auto).
  reflexivity.
Qed.

Lemma appendEach_cons {A : Type} (text : A -> string) (x : A) (l : list A)
  (content : string) :
  AnalysisView.appendEach text (x :: l) content
  = AnalysisView.appendEach text l (content ++ text x).
Proof. reflexivity. Qed.

Lemma appendEach_content {A : Type} (text : A -> string) (l : list A)
  (content : string) :
  AnalysisView.appendEach text l content
  = content ++ AnalysisView.appendEach text l EmptyString.
Proof.
  revert content. induction l as [|x l IH]; intros content.
  - cbn. induction content as [|c content IHc]; [reflexivity|].
    cbn [append]. rewrite <- IHc. reflexivity.
  - rewrite !appendEach_cons, IH, (IH (EmptyString ++ text x)).
    cbn [append]. rewrite append_assoc. reflexivity.
Qed.

(** X16.  The rows [handleExport] appends for the summary table,
    whatever their cells hold: the text so far is kept, and what is
    added has one line feed for each row and five unescaped pipes for
    each row. *)
Theorem summary_rows_keep_the_shape_of_the_table
  (rows : list SummaryRow) (content : string) :
  AnalysisView.appendEach AnalysisView.summaryLine rows content
  = content ++ AnalysisView.appendEach AnalysisView.summaryLine rows
                 EmptyString
  /\ JSString.countChar (ascii_of_nat 10)
       (AnalysisView.appendEach AnalysisView.summaryLine rows EmptyString)
     = List.length rows
  /\ JSString.unescapedPipes
       (AnalysisView.appendEach AnalysisView.summaryLine rows EmptyString)
     = 5 * List.length rows.
Proof.
  split; [apply appendEach_content|].
  unfold JSString.unescapedPipes.
  induction rows as [|row rows [IH1 IH2]]; [split; reflexivity|].
  rewrite appendEach_cons, appendEach_content. cbn [append List.length].
  split.
  - rewrite countChar_app, summaryLine_line_feeds, IH1. reflexivity.
  - rewrite summaryLine_pipes, IH2. lia.
Qed.

(** X17.  In the summary table a rating is emphasised exactly from 60
    on, which is exactly where [getRatingColor] gives green or blue. *)
Theorem table_emphasis_is_the_green_and_blue_bands (rating : Z) :
  (AnalysisView.ratingEmphasis rating = "text-academic-800"
   <-> (60 <= rating)%Z)
  /\ ((60 <= rating)%Z
      <-> AnalysisView.getRatingColor rating
          = "text-green-600 bg-green-50 border-green-200"
          \/ AnalysisView.getRatingColor rating
             = "text-blue-600 bg-blue-50 border-blue-200").
Proof.
  unfold AnalysisView.ratingEmphasis, AnalysisView.getRatingColor.
  destruct (Z.leb_spec 85 rating), (Z.leb_spec 60 rating),
    (Z.leb_spec 30 rating);
    (split; split; intros G; try lia; try reflexivity; auto;
     try discriminate; try (destruct G; discriminate)).
Qed.

Lemma table_emphasis_witness :
  AnalysisView.ratingEmphasis (rating Cases.awkwardRow) = "text-academic-800".
Proof.
  destruct (table_emphasis_is_the_green_and_blue_bands
              (rating Cases.awkwardRow)) as [[_ H] _].
  apply H. cbn. lia.
Defined.

End ExportFacts.
